(** * SparkFun / ThingMagic UHF RFID reader driver: protocol layer

    A shallow embedding of the protocol-relevant parts of
    [SparkFun_UHF_RFID_Reader.cpp] (class [RFID]):

    - [calculateCRC]            the ThingMagic CRC-16,
    - [sendMessage]/[sendCommand] the synchronous request/response exchange,
    - [parseResponse]           the continuous-mode frame classifier,
    - [check]                   the continuous-mode byte reassembly,
    - [getTemp], [getTagRSSI]   small accessors,
    - [ReadingAllBanks]         the read-all-banks record parser,
    - [SelectiveReadDataRegion] the selective-match retry loop,
    - [stopReading], [startReadingBank], [setPowerMode], [setGen2Q],
      [setReadPower], [setWritePower]  commands and settings,
    - [readData], [writeData], [writeDataRegion]  tag memory access,
    - [getTagTimestamp], [getTagDataBytes], [getTagData], [getTagEPCBytes]
      the fields of a tag record,
    - [digitalRead]             the GPIO query.

    Machine integers are modelled as [Z] with the wrap-around of every
    narrowing conversion written out ([u8], [u16], [u32], [s8]).  The shared
    receive buffer [msg] is a [list Z]; the serial stream is a record holding
    the bytes waiting to be read, the frames written so far and the peer.  *)

From Stdlib Require Import ZArith Lia Bool.
From stdpp Require Import base tactics option list.

Local Open Scope Z_scope.

(** ** Machine integers *)

Definition u8 (x : Z) : Z := x mod 256.
Definition u16 (x : Z) : Z := x mod 65536.
Definition u32 (x : Z) : Z := x mod 4294967296.

(** Conversion of an integer to [int8_t] (two's complement, 8 bits). *)
Definition s8 (x : Z) : Z :=
  let r := x mod 256 in if r <? 128 then r else r - 256.

(** A value that fits a [uint8_t]. *)
Definition is_byte (b : Z) : bool := (0 <=? b) && (b <? 256).
Definition bytes_ok (l : list Z) : bool := forallb is_byte l.

(** ** Arrays

    [get a i] is the C++ read [a[i]] and [put a i v] the store [a[i] = v].
    Inside the array they are the usual lookup and update.  Outside of it the
    C++ behaviour is undefined; the model reads 0 and drops the store, and
    every theorem below that depends on such an access carries the bounds as
    a hypothesis. *)

Definition get (a : list Z) (i : Z) : Z :=
  if i <? 0 then 0 else default 0 (a !! Z.to_nat i).

Definition put (a : list Z) (i : Z) (v : Z) : list Z :=
  if i <? 0 then a else <[Z.to_nat i := v]> a.

(** ** Constants of the header file *)

Definition MAX_MSG_SIZE : Z := 255.

Definition TMR_SR_OPCODE_READ_TAG_ID_MULTIPLE : Z := 0x22.
Definition TMR_SR_OPCODE_GET_TAG_ID_BUFFER : Z := 0x29.
Definition TMR_SR_OPCODE_CLEAR_TAG_ID_BUFFER : Z := 0x2A.
Definition TMR_SR_OPCODE_MULTI_PROTOCOL_TAG_OP : Z := 0x2F.
Definition TMR_SR_OPCODE_GET_TEMPERATURE : Z := 0x72.
Definition TMR_SR_OPCODE_SET_READER_OPTIONAL_PARAMS : Z := 0x9A.

Definition ALL_GOOD : Z := 0.
Definition ERROR_COMMAND_RESPONSE_TIMEOUT : Z := 1.
Definition ERROR_CORRUPT_RESPONSE : Z := 2.
Definition ERROR_WRONG_OPCODE_RESPONSE : Z := 3.
Definition ERROR_UNKNOWN_OPCODE : Z := 4.
Definition RESPONSE_IS_TEMPERATURE : Z := 5.
Definition RESPONSE_IS_KEEPALIVE : Z := 6.
Definition RESPONSE_IS_TEMPTHROTTLE : Z := 7.
Definition RESPONSE_IS_TAGFOUND : Z := 8.
Definition RESPONSE_IS_NOTAGFOUND : Z := 9.
Definition RESPONSE_IS_UNKNOWN : Z := 10.
Definition RESPONSE_SUCCESS : Z := 11.
Definition RESPONSE_FAIL : Z := 12.
Definition ERROR_INVALID_EPC_REQ : Z := 13.
Definition ERROR_INVALID_REQ : Z := 14.

Definition TMR_GEN2_BANK_RESERVED : Z := 0.
Definition TMR_GEN2_BANK_EPC : Z := 1.
Definition TMR_GEN2_BANK_TID : Z := 2.
Definition TMR_GEN2_BANK_USER : Z := 3.
Definition TMR_GEN2_BANK_RESERVED_ENABLED : Z := 0x4.
Definition TMR_GEN2_BANK_TID_ENABLED : Z := 0x10.
Definition TMR_GEN2_BANK_USER_ENABLED : Z := 0x20.
Definition TMR_MAX_EPC_BYTE_COUNT : Z := 32.

(** ** The CRC ([crctable], [RFID::calculateCRC]) *)

Definition crctable : list Z :=
  [ 0x0000; 0x1021; 0x2042; 0x3063; 0x4084; 0x50a5; 0x60c6; 0x70e7;
    0x8108; 0x9129; 0xa14a; 0xb16b; 0xc18c; 0xd1ad; 0xe1ce; 0xf1ef ].

(** One line of the loop body,
    [crc = ((crc << 4) | nib) ^ crctable[crc >> 12]]: the right-hand side is
    computed in [int] and narrowed to [uint16_t] by the assignment. *)
Definition crc_nibble (crc nib : Z) : Z :=
  u16 (Z.lxor (Z.lor (Z.shiftl crc 4) nib) (get crctable (Z.shiftr crc 12))).

(** The [for (uint8_t i = 0; i < len; i++)] loop; [n] is the number of
    iterations still to run ([len - i]). *)
Fixpoint calculateCRC_loop (u8Buf : list Z) (n : nat) (i : Z) (crc : Z) : Z :=
  match n with
  | O => crc
  | S n' =>
      let crc := crc_nibble crc (Z.shiftr (get u8Buf i) 4) in
      let crc := crc_nibble crc (Z.land (get u8Buf i) 0x0F) in
      calculateCRC_loop u8Buf n' (i + 1) crc
  end.

(** [u8Buf] is the array the pointer argument points into, [len] the
    [uint8_t] length argument. *)
Definition calculateCRC (u8Buf : list Z) (len : Z) : Z :=
  calculateCRC_loop u8Buf (Z.to_nat len) 0 0xFFFF.

(** The algorithm in the words of the specification: seed [0xFFFF]; every
    byte contributes its high nibble, then its low nibble; one update per
    nibble on a 16-bit register, the table being indexed by the register's
    top nibble. *)
Module Spec.

Definition nibbles (b : Z) : list Z := [b / 16; b mod 16].

Definition update (crc nib : Z) : Z :=
  Z.lxor (Z.lor ((crc * 16) mod 65536) nib)
         (nth (Z.to_nat (crc / 4096)) crctable 0).

Definition crc16 (bytes : list Z) : Z :=
  fold_left update (concat (map nibbles bytes)) 0xFFFF.

(** Frame validity: the total length is the length byte plus 7, and the CRC
    of the bytes after the header, up to the CRC, equals the trailing two
    bytes (high byte first). *)
Definition total (frame : list Z) : Z := get frame 1 + 7.

Definition crc_ok (frame : list Z) : bool :=
  crc16 (take (Z.to_nat (total frame - 3)) (drop 1 frame))
  =? get frame (total frame - 2) * 256 + get frame (total frame - 1).

(** A complete frame that the 255-byte receive buffer can take: all of its
    [total] bytes are there, and [total] stays below the buffer size. *)
Definition complete (frame : list Z) : bool :=
  bytes_ok frame
  && (total frame <? MAX_MSG_SIZE)
  && (total frame <=? Z.of_nat (length frame)).

(** [encode]: header, length, opcode, payload, CRC. *)
Definition encode (opcode : Z) (payload : list Z) : list Z :=
  let body := Z.of_nat (length payload) :: opcode :: payload in
  let crc := crc16 body in
  0xFF :: body ++ [crc / 256; crc mod 256].

(** A response carries its two status bytes outside of the length byte. *)
Definition response (opcode status : Z) (payload : list Z) : list Z :=
  let body :=
    Z.of_nat (length payload) :: opcode :: status / 256 :: status mod 256 :: payload in
  let crc := crc16 body in
  0xFF :: body ++ [crc / 256; crc mod 256].

(** The status word: the first two bytes after the opcode, high byte first. *)
Definition status_word (frame : list Z) : Z := get frame 3 * 256 + get frame 4.

(** The discriminants of the continuous-mode classifier as documented:
    length 0 with status [0x0400] (keep-alive) or [0x0504] (temperature
    throttle); length 14 with status [0x0400] (keep-alive); length 10 with
    the statistics marker (temperature sample); any other length (statistics
    update or tag record). *)
Definition documented (frame : list Z) : bool :=
  let len := get frame 1 in
  let status := status_word frame in
  ((len =? 0) && ((status =? 0x0400) || (status =? 0x0504)))
  || ((len =? 14) && (status =? 0x0400))
  || ((len =? 10) && (get frame 8 =? 0x02))
  || (negb (len =? 0) && negb (len =? 14) && negb (len =? 10)).

End Spec.

(** ** The serial stream and the driver state

    Time is not modelled.  [rx] holds the bytes that reach the driver before
    the deadline of the wait in progress, in order of arrival: [available()]
    is [rx <> []], [read()] takes the first byte, and a wait that finds [rx]
    empty ends on its deadline.  [tx] is the log of what was written, one
    entry per call of [sendCommand] (the frame, written byte by byte).  The
    module at the other end is [peer]: given every frame written so far, the
    bytes it sends in answer to the last one. *)

Record Stream := mkStream {
  rx : list Z;
  tx : list (list Z);
  peer : list (list Z) -> list Z
}.

Record RFID := mkRFID {
  msg : list Z;
  _head : Z;
  _continuousModeTemp : bool;
  _contTemp : Z;
  _rfidSerial : Stream
}.

Definition with_msg (st : RFID) (m : list Z) : RFID :=
  mkRFID m (_head st) (_continuousModeTemp st) (_contTemp st) (_rfidSerial st).

Definition with_serial (st : RFID) (s : Stream) : RFID :=
  mkRFID (msg st) (_head st) (_continuousModeTemp st) (_contTemp st) s.

Definition with_head (st : RFID) (h : Z) : RFID :=
  mkRFID (msg st) h (_continuousModeTemp st) (_contTemp st) (_rfidSerial st).

Definition with_contTemp (st : RFID) (t : Z) : RFID :=
  mkRFID (msg st) (_head st) (_continuousModeTemp st) t (_rfidSerial st).

(** [while (_rfidSerial->available()) _rfidSerial->read();] *)
Definition drain (s : Stream) : Stream := mkStream [] (tx s) (peer s).

(** The frame has gone out; the module's answer is on its way. *)
Definition written (s : Stream) (frame : list Z) : Stream :=
  mkStream (rx s ++ peer s (tx s ++ [frame])) (tx s ++ [frame]) (peer s).

(** The constructor [RFID::RFID] followed by [begin]. *)
Definition RFID_begin (serialPort : Stream) : RFID :=
  mkRFID (replicate (Z.to_nat MAX_MSG_SIZE) 0) 0 false 0 serialPort.

(** ** [RFID::sendCommand] and [RFID::sendMessage] *)

(** [for (uint8_t x = 0; x < messageLength + 5; x++) write(msg[x]);]
    with [n] iterations to go. *)
Fixpoint write_loop (m : list Z) (n : nat) (x : Z) : list Z :=
  match n with
  | O => []
  | S n' => get m x :: write_loop m n' (x + 1)
  end.

Inductive Received :=
| TimedOut (rx' : list Z) (m : list Z)
| Complete (rx' : list Z) (m : list Z) (messageLength : Z).

(** The accumulation loop [while (spot < messageLength)]: every pass that
    finds a byte stores it and advances [spot]; a pass that finds none ends
    on the deadline (time out 2). *)
Fixpoint receive (rx0 : list Z) (m : list Z) (messageLength spot : Z) : Received :=
  if spot <? messageLength then
    match rx0 with
    | [] => TimedOut [] m
    | b :: rx' =>
        let m := put m spot (u8 b) in
        let messageLength :=
          if spot =? 1 then u8 (get m 1 + 7) else messageLength in
        let spot := (spot + 1) mod MAX_MSG_SIZE in
        receive rx' m messageLength spot
    end
  else Complete rx0 m messageLength.

(** The test both [sendCommand] and [parseResponse] apply to a frame of
    [messageLength] bytes held in [msg]:
    [(msg[messageLength - 2] != (crc >> 8)) ||
     (msg[messageLength - 1] != (crc & 0xFF))]
    with [crc = calculateCRC(&msg[1], messageLength - 3)]. *)
Definition crc_mismatch (m : list Z) (messageLength : Z) : bool :=
  let crc := calculateCRC (drop 1 m) (u8 (messageLength - 3)) in
  negb (get m (messageLength - 2) =? Z.shiftr crc 8)
  || negb (get m (messageLength - 1) =? Z.land crc 0xFF).

(** The result is [None] when the call cannot return: with
    [messageLength + 5 > 255] the 8-bit counter of the write loop stays
    below its bound for ever (and the CRC is stored outside [msg]). *)
Definition sendCommand (st : RFID) (timeOut : Z) (waitForResponse : bool)
  : option RFID :=
  let m := put (msg st) 0 0xFF in
  let messageLength := get m 1 in
  let opcode := get m 2 in
  let crc := calculateCRC (drop 1 m) (u8 (messageLength + 2)) in
  let m := put m (messageLength + 3) (u8 (Z.shiftr crc 8)) in
  let m := put m (messageLength + 4) (u8 (Z.land crc 0xFF)) in
  let s := drain (_rfidSerial st) in
  if 255 <? messageLength + 5 then None
  else
    let s := written s (write_loop m (Z.to_nat (messageLength + 5)) 0) in
    if negb waitForResponse then
      Some (with_serial (with_msg st m) (drain s))
    else
      match rx s with
      | [] =>
          Some (with_serial (with_msg st (put m 0 ERROR_COMMAND_RESPONSE_TIMEOUT)) s)
      | _ :: _ =>
          match receive (rx s) m (MAX_MSG_SIZE - 1) 0 with
          | TimedOut rx' m =>
              Some (with_serial
                      (with_msg st (put m 0 ERROR_COMMAND_RESPONSE_TIMEOUT))
                      (mkStream rx' (tx s) (peer s)))
          | Complete rx' m messageLength =>
              let s := mkStream rx' (tx s) (peer s) in
              if crc_mismatch m messageLength
              then Some (with_serial (with_msg st (put m 0 ERROR_CORRUPT_RESPONSE)) s)
              else if negb (get m 2 =? opcode)
              then Some (with_serial (with_msg st (put m 0 ERROR_WRONG_OPCODE_RESPONSE)) s)
              else Some (with_serial (with_msg st (put m 0 ALL_GOOD)) s)
          end
      end.

(** The frame a call of [sendCommand] writes when [msg] holds [m0]: the
    array after the header and the CRC are in place, up to the CRC. *)
Definition outgoing (m0 : list Z) : list Z :=
  let m := put m0 0 0xFF in
  let messageLength := get m 1 in
  let crc := calculateCRC (drop 1 m) (u8 (messageLength + 2)) in
  let m := put m (messageLength + 3) (u8 (Z.shiftr crc 8)) in
  let m := put m (messageLength + 4) (u8 (Z.land crc 0xFF)) in
  write_loop m (Z.to_nat (messageLength + 5)) 0.

(** [for (uint8_t x = 0; x < size; x++) msg[3 + x] = data[x];] *)
Fixpoint load_data (m data : list Z) (n : nat) (x : Z) : list Z :=
  match n with
  | O => m
  | S n' => load_data (put m (3 + x) (get data x)) data n' (x + 1)
  end.

Definition COMMAND_TIME_OUT : Z := 2000.

Definition sendMessage (st : RFID) (opcode : Z) (data : list Z) (size : Z)
  (timeOut : Z) (waitForResponse : bool) : option RFID :=
  let m := put (msg st) 1 size in
  let m := put m 2 opcode in
  let m := load_data m data (Z.to_nat size) 0 in
  sendCommand (with_msg st m) timeOut waitForResponse.

Definition setReaderConfiguration (st : RFID) (option1 option2 : Z) : option RFID :=
  let data := [1; option1; option2] in
  sendMessage st TMR_SR_OPCODE_SET_READER_OPTIONAL_PARAMS data 3
    COMMAND_TIME_OUT true.

Definition disableReadFilter (st : RFID) : option RFID :=
  setReaderConfiguration st 0x0C 0x00.

(** A call that does not return makes its caller not return. *)
Notation "'do' x <- a ; b" :=
  (match a with Some x => b | None => None end)
  (at level 10, x name, a at level 100, b at level 200, only parsing).

(** ** [RFID::check] *)

(** [for (uint8_t x = _head; x < MAX_MSG_SIZE; x++) msg[x] = 0;] *)
Fixpoint erase (m : list Z) (n : nat) (x : Z) : list Z :=
  match n with
  | O => m
  | S n' => erase (put m x 0) n' (x + 1)
  end.

(** The [while (_rfidSerial->available())] loop over the bytes waiting in the
    stream; the second component of the result is the value returned. *)
Fixpoint check_loop (rx0 : list Z) (st : RFID) : RFID * bool :=
  match rx0 with
  | [] => (with_serial st (drain (_rfidSerial st)), false)
  | b :: rx' =>
      let incomingData := u8 b in
      if (_head st =? 0) && negb (incomingData =? 0xFF) then
        check_loop rx' st
      else
        let m := put (msg st) (_head st) incomingData in
        let h := u8 (_head st + 1) in
        let h := h mod MAX_MSG_SIZE in
        if (0 <? h) && (h =? get m 1 + 7) then
          let m := erase m (Z.to_nat (MAX_MSG_SIZE - h)) h in
          let st := with_head (with_msg st m) 0 in
          let s := mkStream rx' (tx (_rfidSerial st)) (peer (_rfidSerial st)) in
          if _continuousModeTemp st then
            if get m 5 =? 0x10 then (with_serial st s, true)
            else if get m 3 =? 0x04 then (with_serial st s, true)
            else if get m 8 =? 0x02 then
              if (get m 13 =? 1) && (get m 11 =? 0x82)
              then (with_serial (with_contTemp st (s8 (get m 14))) s, false)
              else (with_serial st s, false)
            else (with_serial st s, false)
          else check_loop rx' st
        else check_loop rx' (with_head (with_msg st m) h)
  end.

Definition check (st : RFID) : RFID * bool :=
  check_loop (rx (_rfidSerial st)) st.

(** ** [RFID::startReading], [RFID::getTemp] and [RFID::getTagRSSI] *)

(** Only the temperature flag and cache matter to what follows; the blob is
    the one of the source. *)
Definition startReading (st : RFID) : option RFID :=
  do st <- disableReadFilter st;
  let configBlob := [0x00; 0x00; 0x01; 0x22; 0x00; 0x00; 0x05; 0x09; 0x22;
                     0x10; 0x01; 0x1B; 0x03; 0xE8; 0x01; 0xFF; 0x01; 0x00] in
  let st := mkRFID (msg st) (_head st) true 0 (_rfidSerial st) in
  sendMessage st TMR_SR_OPCODE_MULTI_PROTOCOL_TAG_OP configBlob 18
    COMMAND_TIME_OUT true.


Definition getTemp (st : RFID) : option (RFID * Z) :=
  if _continuousModeTemp st then
    if 0 <? _contTemp st then Some (st, _contTemp st)
    else Some (st, -1)
  else
    do st <- sendMessage st TMR_SR_OPCODE_GET_TEMPERATURE [] 0
               COMMAND_TIME_OUT true;
    if get (msg st) 0 =? ALL_GOOD then Some (st, s8 (get (msg st) 5))
    else Some (st, -1).

(** [int8_t RFID::getTagRSSI(void) { return (msg[12] - 256); }] *)
Definition getTagRSSI (st : RFID) : Z := s8 (get (msg st) 12 - 256).

(** ** [RFID::parseResponse] *)

(** The chain of conditionals under [opCode == 0x22]; [None] when control
    leaves the chain without a [return]. *)
Definition parse_multiple (m : list Z) (statusMsg : Z) : option Z :=
  if get m 1 =? 0x00 then
    let statusMsg := u16 (Z.lor statusMsg (Z.shiftl (get m (3 + 0)) (8 * (1 - 0)))) in
    let statusMsg := u16 (Z.lor statusMsg (Z.shiftl (get m (3 + 1)) (8 * (1 - 1)))) in
    if statusMsg =? 0x0400 then Some RESPONSE_IS_KEEPALIVE
    else if statusMsg =? 0x0504 then Some RESPONSE_IS_TEMPTHROTTLE
    else None
  else if get m 1 =? 0x08 then Some RESPONSE_IS_UNKNOWN
  else if get m 1 =? 0x0E then
    if statusMsg =? 0x0400 then Some RESPONSE_IS_KEEPALIVE else None
  else if get m 1 =? 0x0A then Some RESPONSE_IS_TEMPERATURE
  else Some RESPONSE_IS_TAGFOUND.

Definition parseResponse (st : RFID) : Z :=
  let m := msg st in
  let msgLength := u8 (get m 1 + 7) in
  let opCode := get m 2 in
  let statusMsg := 0 in
  if crc_mismatch m msgLength
  then ERROR_CORRUPT_RESPONSE
  else
    match
      (if opCode =? TMR_SR_OPCODE_READ_TAG_ID_MULTIPLE
       then parse_multiple m statusMsg else None)
    with
    | Some r => r
    | None => ERROR_UNKNOWN_OPCODE
    end.

(** ** [RFID::ReadingAllBanks] *)

(** [TMR_uint8List]: the array [list], the space [max] and the count [len]
    (the fields carry a prefix here, [list] and [max] being taken). *)
Record TMR_uint8List := mkList {
  l_list : list Z;
  l_max : Z;
  l_len : Z
}.

Record TMR_TagReadData := mkRead {
  epc : list Z;
  epclen : Z;
  TagCount : Z;
  succesCount : Z;
  failureCount : Z;
  rssi : Z;
  frequency : Z;
  timestamp : Z;
  epcMemData : TMR_uint8List;
  tidMemData : TMR_uint8List;
  userMemData : TMR_uint8List;
  reservedMemData : TMR_uint8List
}.

Definition with_counts (r : TMR_TagReadData) (tc sc fc : Z) : TMR_TagReadData :=
  mkRead (epc r) (epclen r) tc sc fc (rssi r) (frequency r) (timestamp r)
    (epcMemData r) (tidMemData r) (userMemData r) (reservedMemData r).

Definition with_meta (r : TMR_TagReadData) (rs fr ts : Z) : TMR_TagReadData :=
  mkRead (epc r) (epclen r) (TagCount r) (succesCount r) (failureCount r)
    rs fr ts (epcMemData r) (tidMemData r) (userMemData r) (reservedMemData r).

Definition with_user (r : TMR_TagReadData) (l : TMR_uint8List) : TMR_TagReadData :=
  mkRead (epc r) (epclen r) (TagCount r) (succesCount r) (failureCount r)
    (rssi r) (frequency r) (timestamp r)
    (epcMemData r) (tidMemData r) l (reservedMemData r).

Definition with_tid (r : TMR_TagReadData) (l : TMR_uint8List) : TMR_TagReadData :=
  mkRead (epc r) (epclen r) (TagCount r) (succesCount r) (failureCount r)
    (rssi r) (frequency r) (timestamp r)
    (epcMemData r) l (userMemData r) (reservedMemData r).

Definition with_reserved (r : TMR_TagReadData) (l : TMR_uint8List) : TMR_TagReadData :=
  mkRead (epc r) (epclen r) (TagCount r) (succesCount r) (failureCount r)
    (rssi r) (frequency r) (timestamp r)
    (epcMemData r) (tidMemData r) (userMemData r) l.

Definition with_epc (r : TMR_TagReadData) (e : list Z) (el : Z) (l : TMR_uint8List)
  : TMR_TagReadData :=
  mkRead e el (TagCount r) (succesCount r) (failureCount r)
    (rssi r) (frequency r) (timestamp r)
    l (tidMemData r) (userMemData r) (reservedMemData r).

(** [for (uint8_t x = 0; x < count; x++)
       acc |= (uint32_t)msg[base + x] << (8 * (count - 1 - x));] *)
Fixpoint load_be (m : list Z) (base count : Z) (n : nat) (x : Z) (acc : Z) : Z :=
  match n with
  | O => acc
  | S n' =>
      load_be m base count n' (x + 1)
        (u32 (Z.lor acc (Z.shiftl (get m (base + x)) (8 * (count - 1 - x)))))
  end.

(** [for (uint8_t j = 0; j < bankLength; j++) list[j] = msg[offset + i + j];] *)
Fixpoint copy_bank (dst m : list Z) (base : Z) (n : nat) (j : Z) : list Z :=
  match n with
  | O => dst
  | S n' => copy_bank (put dst j (get m (base + j))) m base n' (j + 1)
  end.

(** The body shared by the USER, TID and RESERVED branches: clamp
    [bankLength] to [max], copy, record [len].  The second component is the
    clamped [bankLength]. *)
Definition fill_bank (l : TMR_uint8List) (m : list Z) (base bankLength : Z)
  : TMR_uint8List * Z :=
  let bankLength := if l_max l <? bankLength then u8 (l_max l) else bankLength in
  (mkList (copy_bank (l_list l) m base (Z.to_nat bankLength) 0) (l_max l) bankLength,
   bankLength).

(** The copy loop of the EPC branch, which also extracts the EPC proper. *)
Fixpoint copy_epc_bank (dst e m : list Z) (base : Z) (n : nat) (j : Z)
  : list Z * list Z :=
  match n with
  | O => (dst, e)
  | S n' =>
      let dst := put dst j (get m (base + j)) in
      let e :=
        if 3 <? j then
          if j - 4 <? TMR_MAX_EPC_BYTE_COUNT then put e (j - 4) (get dst j) else e
        else e in
      copy_epc_bank dst e m base n' (j + 1)
  end.

Inductive BankStep :=
| BankFail (code : Z)
| BankNext (read : TMR_TagReadData) (i : Z).

(** One pass of [for (uint8_t i = 0; i < datalength;)]: one bank block. *)
Definition bank_block (m : list Z) (offset : Z) (read : TMR_TagReadData) (i : Z)
  : BankStep :=
  let bank := Z.land (Z.shiftr (get m (offset + i)) 4) 0xf in
  let i := u8 (i + 1) in
  let bankLength := u8 (get m (offset + i) * 2) in
  let i := u8 (i + 1) in
  if bank =? TMR_GEN2_BANK_USER then
    let '(l, bankLength) := fill_bank (userMemData read) m (offset + i) bankLength in
    BankNext (with_user read l) (u8 (i + bankLength))
  else if bank =? TMR_GEN2_BANK_TID then
    let '(l, bankLength) := fill_bank (tidMemData read) m (offset + i) bankLength in
    BankNext (with_tid read l) (u8 (i + bankLength))
  else if bank =? TMR_GEN2_BANK_RESERVED then
    let '(l, bankLength) := fill_bank (reservedMemData read) m (offset + i) bankLength in
    BankNext (with_reserved read l) (u8 (i + bankLength))
  else if bank =? TMR_GEN2_BANK_EPC then
    let l := epcMemData read in
    let bankLength := if l_max l <? bankLength then u8 (l_max l) else bankLength in
    let '(dst, e) :=
      copy_epc_bank (l_list l) (epc read) m (offset + i) (Z.to_nat bankLength) 0 in
    BankNext (with_epc read e (u8 (bankLength - 4)) (mkList dst (l_max l) bankLength))
             (u8 (i + bankLength))
  else BankFail RESPONSE_FAIL.

(** The loop over the bank blocks.  It need not end (the 8-bit [i] can wrap
    below [datalength] again), hence the fuel; [None] is "out of fuel". *)
Fixpoint banks_loop (fuel : nat) (m : list Z) (datalength offset : Z)
  (read : TMR_TagReadData) (i : Z) : option (TMR_TagReadData * Z) :=
  match fuel with
  | O => None
  | S fuel' =>
      if i <? datalength then
        match bank_block m offset read i with
        | BankFail code => Some (read, code)
        | BankNext read i => banks_loop fuel' m datalength offset read i
        end
      else Some (read, ALL_GOOD)
  end.

(** What [ReadingAllBanks] does with the answer to the tag-buffer request,
    from "extract the RSSI" to the end. *)
Definition parse_all_banks (fuel : nat) (m : list Z) (read : TMR_TagReadData)
  : option (TMR_TagReadData * Z) :=
  let rs := get m 10 - 256 in
  let fr := load_be m 12 3 3 0 0 in
  let ts := load_be m 15 4 4 0 0 in
  let read := with_meta read rs fr ts in
  let datalength := u16 (Z.lor (Z.shiftl (get m 22) 8) (get m 23) / 8) in
  let offset := 24 in
  banks_loop fuel m datalength offset read 0.

Definition ReadingAllBanks (fuel : nat) (st : RFID) (read : TMR_TagReadData)
  : option (RFID * TMR_TagReadData * Z) :=
  do st <- disableReadFilter st;
  do st <- sendMessage st TMR_SR_OPCODE_CLEAR_TAG_ID_BUFFER [] 0 COMMAND_TIME_OUT true;
  let configBlob := [0x88; 0x10; 0x00; 0x17; 0x01; 0xf4; 0x0f;
                     0xff; 0x01; 0x09; 0x28; 0x07; 0xd0; 0x00;
                     0x3f; 0x00; 0x00; 0x00; 0x00; 0x00] in
  do st <- sendMessage st TMR_SR_OPCODE_READ_TAG_ID_MULTIPLE configBlob 20
             COMMAND_TIME_OUT true;
  if negb (get (msg st) 0 =? ALL_GOOD) then Some (st, read, RESPONSE_FAIL)
  else
    let m := msg st in
    let read :=
      with_counts read
        (u16 (Z.lor (Z.shiftl (get m 11) 8) (get m 12)))
        (u16 (Z.lor (Z.shiftl (get m 15) 8) (get m 16)))
        (u16 (Z.lor (Z.shiftl (get m 17) 8) (get m 18))) in
    if succesCount read =? 0 then Some (st, read, RESPONSE_IS_NOTAGFOUND)
    else
      let flags := [0xf; 0xff; 0x00] in
      do st <- sendMessage st TMR_SR_OPCODE_GET_TAG_ID_BUFFER flags 3
                 COMMAND_TIME_OUT true;
      if negb (get (msg st) 0 =? ALL_GOOD) then Some (st, read, RESPONSE_FAIL)
      else
        do r <- parse_all_banks fuel (msg st) read;
        Some (st, fst r, snd r).

(** ** [RFID::SelectiveReadDataRegion] *)

Record SelectEPC := mkSelectEPC {
  TMR_EPC : list Z;
  EPClen : Z;
  EPCoffset : Z;
  RetryCount : Z
}.

(** [for (e = 0; e < selepc->EPClen; e++)
       if (msg[EPCstart + e] != selepc->TMR_EPC[e]) break;]
    The result is the value of [e] after the loop. *)
Fixpoint epc_compare (m : list Z) (selepc : SelectEPC) (EPCstart : Z)
  (n : nat) (e : Z) : Z :=
  match n with
  | O => e
  | S n' =>
      if negb (get m (EPCstart + e) =? get (TMR_EPC selepc) e) then e
      else epc_compare m selepc EPCstart n' (e + 1)
  end.

(** How the [while (!MatchFound)] loop is left. *)
Inductive MatchLoop :=
| MatchFound (st : RFID)
| MatchReturn (st : RFID) (code : Z).

(** The loop has no bound of its own when [RetryCount] is 0 (and none that
    [retryCount] can reach when it is 255); [None] is "out of fuel", or a
    call of [sendMessage] that does not return. *)
Fixpoint match_loop (fuel : nat) (st : RFID) (selepc : SelectEPC)
  (configBlob : list Z) (EPCBankStartPos retryCount : Z)
  : option MatchLoop :=
  match fuel with
  | O => None
  | S fuel' =>
      do st <- sendMessage st TMR_SR_OPCODE_READ_TAG_ID_MULTIPLE configBlob 20
                 COMMAND_TIME_OUT true;
      if negb (get (msg st) 0 =? ALL_GOOD) then Some (MatchReturn st RESPONSE_FAIL)
      else
        let EPCstart := u8 (EPCBankStartPos + EPCoffset selepc) in
        let e := epc_compare (msg st) selepc EPCstart (Z.to_nat (EPClen selepc)) 0 in
        if e =? EPClen selepc then Some (MatchFound st)
        else if negb (RetryCount selepc =? 0) then
          if RetryCount selepc <? retryCount
          then Some (MatchReturn st ERROR_COMMAND_RESPONSE_TIMEOUT)
          else match_loop fuel' st selepc configBlob EPCBankStartPos
                 (u8 (retryCount + 1))
        else match_loop fuel' st selepc configBlob EPCBankStartPos retryCount
  end.

(** [for (x = 0; x < (length * 2) & x < dataLengthRead; x++)
       dataRead[x] = msg[BankStart + x];]
    The result is the filled buffer and the value of [x] after the loop. *)
Fixpoint copy_window (fuel : nat) (m dataRead : list Z)
  (BankStart length dataLengthRead x : Z) : list Z * Z :=
  match fuel with
  | O => (dataRead, x)
  | S fuel' =>
      if (x <? length * 2) && (x <? dataLengthRead) then
        copy_window fuel' m (put dataRead x (get m (BankStart + x)))
          BankStart length dataLengthRead (u8 (x + 1))
      else (dataRead, x)
  end.

(** The part after the loop: "NOW we have the right tag and good data for
    the requested bank".  The result is the return code, [dataRead] and
    [dataLengthRead]. *)
Definition extract_region (m : list Z) (bank address length : Z)
  (dataRead : list Z) (dataLengthRead : Z) : Z * list Z * Z :=
  let '(BankStartPos, Banklength) :=
    if bank =? TMR_GEN2_BANK_EPC then (23, 12) else (39, get m 38) in
  if Banklength <? u32 (u32 (address * 2) + length * 2) then
    (ERROR_INVALID_REQ, dataRead, 0)
  else
    let BankStart := u8 (u32 (BankStartPos + u32 (address * 2))) in
    let '(dataRead, x) :=
      copy_window 256 m dataRead BankStart length dataLengthRead 0 in
    (RESPONSE_SUCCESS, dataRead, x).

(** [bank], [length], [dataLengthRead] are [uint8_t], [address] is
    [uint32_t], [timeOut] is [uint16_t].  The result is the driver state, the
    return code, [dataRead] and [dataLengthRead]. *)
Definition SelectiveReadDataRegion (fuel : nat) (st : RFID) (selepc : SelectEPC)
  (bank address length : Z) (dataRead : list Z) (dataLengthRead : Z)
  (timeOut : Z) : option (RFID * (Z * list Z * Z)) :=
  let retryCount := 0 in
  if (12 <? EPCoffset selepc + EPClen selepc) || (EPCoffset selepc =? 12) then
    Some (st, (ERROR_INVALID_EPC_REQ, dataRead, 0))
  else
    let c2 := [0x01; 0x08; 0x00] in
    do st <- sendMessage st TMR_SR_OPCODE_SET_READER_OPTIONAL_PARAMS c2 3
               COMMAND_TIME_OUT true;
    do st <- disableReadFilter st;
    do st <- sendMessage st TMR_SR_OPCODE_CLEAR_TAG_ID_BUFFER [] 0
               COMMAND_TIME_OUT true;
    let configBlob := [0x88; 0x10; 0x00; 0x17; 0x01; 0xf4; 0x0f;
                       0xff; 0x01; 0x09; 0x28; 0x07; 0xd0; 0x00;
                       0x01; 0x00; 0x00; 0x00; 0x00; 0x00] in
    let configBlob := put configBlob 4 (Z.land (Z.shiftr timeOut 8) 0xFF) in
    let configBlob := put configBlob 5 (Z.land timeOut 0xFF) in
    let '(EPCBankStartPos, configBlob) :=
      if bank =? TMR_GEN2_BANK_EPC then (23, configBlob)
      else
        (25,
         if bank =? TMR_GEN2_BANK_USER
         then put configBlob 14 (Z.lor (get configBlob 14) TMR_GEN2_BANK_USER_ENABLED)
         else if bank =? TMR_GEN2_BANK_TID
         then put configBlob 14 (Z.lor (get configBlob 14) TMR_GEN2_BANK_TID_ENABLED)
         else if bank =? TMR_GEN2_BANK_RESERVED
         then put configBlob 14 (Z.lor (get configBlob 14) TMR_GEN2_BANK_RESERVED_ENABLED)
         else configBlob) in
    do r <- match_loop fuel st selepc configBlob EPCBankStartPos retryCount;
    match r with
    | MatchReturn st code => Some (st, (code, dataRead, 0))
    | MatchFound st =>
        Some (st, extract_region (msg st) bank address length dataRead dataLengthRead)
    end.

(** The calls of the multi-tag read that went out: the frames of the log
    with opcode [0x22]. *)
Definition read_attempts (s : Stream) : nat :=
  length (filter (fun f => get f 2 = TMR_SR_OPCODE_READ_TAG_ID_MULTIPLE) (tx s)).

(** * Further functions of the driver *)

Definition TMR_SR_OPCODE_WRITE_TAG_DATA : Z := 0x24.
Definition TMR_SR_OPCODE_READ_TAG_DATA : Z := 0x28.
Definition TMR_SR_OPCODE_GET_USER_GPIO_INPUTS : Z := 0x66.
Definition TMR_SR_OPCODE_SET_READ_TX_POWER : Z := 0x92.
Definition TMR_SR_OPCODE_SET_WRITE_TX_POWER : Z := 0x94.
Definition TMR_SR_OPCODE_SET_POWER_MODE : Z := 0x98.
Definition TMR_SR_OPCODE_SET_PROTOCOL_PARAM : Z := 0x9B.

Definition TMR_SR_GEN2_Q_INVALID : Z := 2.

(** [_moduleType] is written by [begin] alone; the functions that read it
    take it as an argument. *)
Inductive ThingMagic_Module_t := ThingMagic_M6E_NANO | ThingMagic_M7E_HECTO.

(** ** [RFID::stopReading] and [RFID::startReadingBank] *)

Definition stopReading (st : RFID) : option RFID :=
  let configBlob := [0x00; 0x00; 0x02] in
  do st <- sendMessage st TMR_SR_OPCODE_MULTI_PROTOCOL_TAG_OP configBlob 3
             COMMAND_TIME_OUT false;
  Some (mkRFID (msg st) (_head st) false (_contTemp st) (_rfidSerial st)).

(** [for (uint8_t x = 0; x < sizeof(address); x++)
       blob[base + x] = address >> (8 * (3 - x)) & 0xFF;] *)
Fixpoint splice_address (blob : list Z) (base address : Z) (n : nat) (x : Z) : list Z :=
  match n with
  | O => blob
  | S n' =>
      splice_address
        (put blob (base + x) (Z.land (Z.shiftr address (8 * (3 - x))) 0xFF))
        base address n' (x + 1)
  end.

Definition startReadingBank (st : RFID) (bank address length : Z) : option RFID :=
  let configBlob := [0x00; 0x00; 0x01; 0x22; 0x00; 0x00; 0x05; 0x15;
                     0x22; 0x10; 0x01; 0x1f; 0x00; 0xfa; 0x01; 0xff;
                     0x01; 0x00; 0x01; 0x09; 0x28; 0x07; 0xd0; 0x00;
                     0x03; 0x00; 0x00; 0x00; 0x00; 0x00] in
  let configBlob := put configBlob 24 bank in
  let configBlob := splice_address configBlob 25 address 4 0 in
  let length :=
    if bank =? TMR_GEN2_BANK_USER then
      if (length =? 0) || (32 <? length) then 32 else length
    else
      if 32 <? length then 32 else length in
  let configBlob := put configBlob 29 length in
  let c2 := [0x01; 0x08; 0x00] in
  do st <- sendMessage st TMR_SR_OPCODE_SET_READER_OPTIONAL_PARAMS c2 3
             COMMAND_TIME_OUT true;
  do st <- disableReadFilter st;
  let st := mkRFID (msg st) (_head st) true 0 (_rfidSerial st) in
  sendMessage st TMR_SR_OPCODE_MULTI_PROTOCOL_TAG_OP configBlob 30
    COMMAND_TIME_OUT true.

(** ** Settings *)

Definition setPowerMode (st : RFID) (_moduleType : ThingMagic_Module_t) (mode : Z)
  : option (RFID * bool) :=
  if 4 <? mode then Some (st, false)
  else
    let mode :=
      match _moduleType with
      | ThingMagic_M6E_NANO => if mode =? 4 then 2 else mode
      | ThingMagic_M7E_HECTO => mode
      end in
    do st <- sendMessage st TMR_SR_OPCODE_SET_POWER_MODE [mode] 1
               COMMAND_TIME_OUT true;
    if get (msg st) 0 =? ALL_GOOD then Some (st, true) else Some (st, false).

(** The test that ends [setGen2Session], [setGen2Q], [setGen2Encoding],
    [setGen2RFmode] and [setGen2Target]:
    [msg[0] == ALL_GOOD && msg[3] == 0x0 && msg[4] == 0x0]. *)
Definition accepted (st : RFID) : bool :=
  (get (msg st) 0 =? ALL_GOOD) && (get (msg st) 3 =? 0x0) && (get (msg st) 4 =? 0x0).

Definition setGen2Q (st : RFID) (Q_state init_value : Z) (set_init : bool)
  : option (RFID * bool) :=
  if Q_state =? TMR_SR_GEN2_Q_INVALID then Some (st, false)
  else
    do st <- sendMessage st TMR_SR_OPCODE_SET_PROTOCOL_PARAM [0x05; 0x12; Q_state] 3
               COMMAND_TIME_OUT true;
    if negb (get (msg st) 0 =? ALL_GOOD) || negb (get (msg st) 3 =? 0x0)
       || negb (get (msg st) 4 =? 0x0)
    then Some (st, false)
    else if set_init then
      if 10 <? init_value then Some (st, false)
      else
        do st <- sendMessage st TMR_SR_OPCODE_SET_PROTOCOL_PARAM
                   [0x05; 0x16; 0x01; init_value] 4 COMMAND_TIME_OUT true;
        Some (st, accepted st)
    else Some (st, accepted st).

(** [for (uint8_t x = 0; x < size; x++)
       data[x] = (uint8_t)(powerSetting >> (8 * (size - 1 - x)));]
    with [size = sizeof(int16_t)]. *)
Fixpoint power_bytes (powerSetting size : Z) (n : nat) (x : Z) : list Z :=
  match n with
  | O => []
  | S n' =>
      u8 (Z.shiftr powerSetting (8 * (size - 1 - x)))
      :: power_bytes powerSetting size n' (x + 1)
  end.

Definition setReadPower (st : RFID) (powerSetting : Z) : option RFID :=
  let powerSetting := if 2700 <? powerSetting then 2700 else powerSetting in
  let size := 2 in
  let data := power_bytes powerSetting size (Z.to_nat size) 0 in
  sendMessage st TMR_SR_OPCODE_SET_READ_TX_POWER data size COMMAND_TIME_OUT true.

Definition setWritePower (st : RFID) (powerSetting : Z) : option RFID :=
  let size := 2 in
  let data := power_bytes powerSetting size (Z.to_nat size) 0 in
  sendMessage st TMR_SR_OPCODE_SET_WRITE_TX_POWER data size COMMAND_TIME_OUT true.

(** ** Reading and writing tag memory *)

(** The end of [readData], from
    [if (msg[0] == ALL_GOOD)] on.  The result is the return code, [dataRead]
    and [dataLengthRead]. *)
Definition load_response (m dataRead : list Z) (dataLengthRead : Z) : Z * list Z * Z :=
  if get m 0 =? ALL_GOOD then
    let status := u16 (Z.lor (Z.shiftl (get m 3) 8) (get m 4)) in
    if status =? 0x0000 then
      let responseLength := get m 1 in
      let dataLengthRead :=
        if responseLength <? dataLengthRead then responseLength else dataLengthRead in
      (RESPONSE_SUCCESS, copy_bank dataRead m 5 (Z.to_nat dataLengthRead) 0,
       dataLengthRead)
    else (RESPONSE_FAIL, dataRead, 0)
  else (RESPONSE_FAIL, dataRead, 0).

(** [bank] and [dataLengthRead] are [uint8_t], [address] is [uint32_t],
    [timeOut] is [uint16_t]. *)
Definition readData (st : RFID) (bank address : Z) (dataRead : list Z)
  (dataLengthRead timeOut : Z) : option (RFID * (Z * list Z * Z)) :=
  let data := replicate 8 0 in
  let data := put data 0 (Z.land (Z.shiftr timeOut 8) 0xFF) in
  let data := put data 1 (Z.land timeOut 0xFF) in
  let data := put data 2 bank in
  let data := splice_address data 3 address 4 0 in
  let data := put data 7 (dataLengthRead / 2) in
  let data := if bank =? TMR_GEN2_BANK_USER then put data 7 0x00 else data in
  do st <- sendMessage st TMR_SR_OPCODE_READ_TAG_DATA data 8 timeOut true;
  Some (st, load_response (msg st) dataRead dataLengthRead).

(** [for (uint8_t x = 0; x < dataLengthToRecord; x++)
       data[8 + x] = dataToRecord[x];] *)
Fixpoint splice_data (data dataToRecord : list Z) (n : nat) (x : Z) : list Z :=
  match n with
  | O => data
  | S n' => splice_data (put data (8 + x) (get dataToRecord x)) dataToRecord n' (x + 1)
  end.

(** The end of [writeData], [writeDataRegion] and [killTag]. *)
Definition write_status (m : list Z) : Z :=
  if get m 0 =? ALL_GOOD then
    let status := u16 (Z.lor (Z.shiftl (get m 3) 8) (get m 4)) in
    if status =? 0x0000 then RESPONSE_SUCCESS else RESPONSE_FAIL
  else RESPONSE_FAIL.

(** [uint8_t data[8 + dataLengthToRecord]]; [sizeof(data)] is narrowed to the
    [uint8_t] parameter [size] of [sendMessage]. *)
Definition writeData (st : RFID) (bank address : Z) (dataToRecord : list Z)
  (dataLengthToRecord timeOut : Z) : option (RFID * Z) :=
  let data := replicate (Z.to_nat (8 + dataLengthToRecord)) 0 in
  let data := put data 0 (Z.land (Z.shiftr timeOut 8) 0xFF) in
  let data := put data 1 (Z.land timeOut 0xFF) in
  let data := put data 2 0x00 in
  let data := splice_address data 3 address 4 0 in
  let data := put data 7 bank in
  let data := splice_data data dataToRecord (Z.to_nat dataLengthToRecord) 0 in
  do st <- sendMessage st TMR_SR_OPCODE_WRITE_TAG_DATA data
             (u8 (8 + dataLengthToRecord)) timeOut true;
  Some (st, write_status (msg st)).

Definition writeDataRegion (st : RFID) (bank address : Z) (dataToRecord : list Z)
  (dataLengthToRecord timeOut : Z) : option (RFID * Z) :=
  let dataLengthToRecord := u8 ((dataLengthToRecord / 2) * 2) in
  let data := replicate (Z.to_nat (8 + dataLengthToRecord)) 0 in
  let data := put data 0 (Z.land (Z.shiftr timeOut 8) 0xFF) in
  let data := put data 1 (Z.land timeOut 0xFF) in
  let data := put data 2 0x00 in
  let data := splice_address data 3 address 4 0 in
  let data := put data 7 bank in
  let data := splice_data data dataToRecord (Z.to_nat dataLengthToRecord) 0 in
  do st <- sendMessage st TMR_SR_OPCODE_WRITE_TAG_DATA data
             (u8 (8 + dataLengthToRecord)) timeOut true;
  Some (st, write_status (msg st)).

(** ** The fields of a tag record held in [msg] *)

Definition getTagDataBytes (st : RFID) : Z :=
  let tagDataLength := 0 in
  let tagDataLength :=
    u16 (Z.lor tagDataLength (Z.shiftl (get (msg st) (24 + 0)) (8 * (1 - 0)))) in
  let tagDataLength :=
    u16 (Z.lor tagDataLength (Z.shiftl (get (msg st) (24 + 1)) (8 * (1 - 1)))) in
  let tagDataBytes := u8 (tagDataLength / 8) in
  if 0 <? tagDataLength mod 8 then u8 (tagDataBytes + 1) else tagDataBytes.

(** The result is [buf] and the number of bytes put in it.  The source
    copies [msg[26 + x]] without a look at the size of [msg]: what it copies
    from behind the array is not determined by the driver state, and the
    result is [None] for a call whose copy would go that far. *)
Definition getTagData (st : RFID) (buf : list Z) (len : Z) : option (list Z * Z) :=
  let tagDataBytes := getTagDataBytes st in
  if tagDataBytes =? 0 then Some (buf, 0)
  else
    let tagDataBytes := if len <? tagDataBytes then len else tagDataBytes in
    if MAX_MSG_SIZE <? 26 + tagDataBytes then None
    else Some (copy_bank buf (msg st) 26 (Z.to_nat tagDataBytes) 0, tagDataBytes).

(** The source reads [msg[27 + tagDataBytes + x]] without a look at the size
    of [msg] either; the result is [None] when the second of the two bytes
    lies behind the array. *)
Definition getTagEPCBytes (st : RFID) : option Z :=
  let epcBits := 0 in
  let tagDataBytes := getTagDataBytes st in
  if MAX_MSG_SIZE <=? 27 + tagDataBytes + 1 then None
  else
    let epcBits :=
      u16 (Z.lor epcBits
             (Z.shiftl (get (msg st) (27 + tagDataBytes + 0)) (8 * (1 - 0)))) in
    let epcBits :=
      u16 (Z.lor epcBits
             (Z.shiftl (get (msg st) (27 + tagDataBytes + 1)) (8 * (1 - 1)))) in
    let epcBytes := u8 (epcBits / 8) in
    Some (u8 (epcBytes - 4)).

(** The 32-bit value is returned as [uint16_t]. *)
Definition getTagTimestamp (st : RFID) : Z :=
  let timeStamp := load_be (msg st) 17 4 4 0 0 in
  u16 timeStamp.

(** ** [RFID::digitalRead] *)

(** [for (int i = 0; i < len; i += 3)]: at most [len] passes, [len] being a
    [uint8_t]; the value of a byte as [bool] is whether it is not 0. *)
Fixpoint scan_pins (m : list Z) (pin len offset : Z) (n : nat) (i : Z) : bool :=
  match n with
  | O => false
  | S n' =>
      if i <? len then
        if get m (i + offset) =? pin then negb (get m (i + offset + 2) =? 0)
        else scan_pins m pin len offset n' (i + 3)
      else false
  end.

Definition digitalRead (st : RFID) (pin : Z) : option (RFID * bool) :=
  do st <- sendMessage st TMR_SR_OPCODE_GET_USER_GPIO_INPUTS [1] 1
             COMMAND_TIME_OUT true;
  let len := u8 (get (msg st) 1 - 1) in
  let offset := 6 in
  Some (st, scan_pins (msg st) pin len offset (Z.to_nat len) 0).

(** * Vocabulary of the statements

    Nothing below is part of the driver: these definitions name what the
    theorems talk about. *)

Definition received_msg (x : Received) : list Z :=
  match x with TimedOut _ m => m | Complete _ m _ => m end.

Definition framed (m0 : list Z) : list Z :=
  let m := put m0 0 0xFF in
  let messageLength := get m 1 in
  let crc := calculateCRC (drop 1 m) (u8 (messageLength + 2)) in
  let m := put m (messageLength + 3) (u8 (Z.shiftr crc 8)) in
  put m (messageLength + 4) (u8 (Z.land crc 0xFF)).

(** What [sendCommand] does once the answer is in [msg]. *)
Definition verdict (st : RFID) (s : Stream) (opcode : Z) (x : Received) : RFID :=
  match x with
  | TimedOut rx' m =>
      with_serial (with_msg st (put m 0 ERROR_COMMAND_RESPONSE_TIMEOUT))
        (mkStream rx' (tx s) (peer s))
  | Complete rx' m messageLength =>
      let s := mkStream rx' (tx s) (peer s) in
      if crc_mismatch m messageLength
      then with_serial (with_msg st (put m 0 ERROR_CORRUPT_RESPONSE)) s
      else if negb (get m 2 =? opcode)
      then with_serial (with_msg st (put m 0 ERROR_WRONG_OPCODE_RESPONSE)) s
      else with_serial (with_msg st (put m 0 ALL_GOOD)) s
  end.

(** The fields a call leaves alone, and the log growing by one frame. *)
Definition sent_from (st st' : RFID) : Prop :=
  length (msg st') = length (msg st)
  /\ tx (_rfidSerial st') = tx (_rfidSerial st) ++ [outgoing (msg st)]
  /\ peer (_rfidSerial st') = peer (_rfidSerial st)
  /\ _head st' = _head st
  /\ _continuousModeTemp st' = _continuousModeTemp st
  /\ _contTemp st' = _contTemp st.

Definition loaded (m0 : list Z) (opcode : Z) (data : list Z) (size : Z) : list Z :=
  load_data (put (put m0 1 size) 2 opcode) data (Z.to_nat size) 0.

(** One call of [sendMessage] seen from outside: a frame with the opcode
    asked for joins the log; the peer and the private fields stay. *)
Definition exchanged (opcode : Z) (st st' : RFID) : Prop :=
  length (msg st') = length (msg st)
  /\ (exists f, tx (_rfidSerial st') = tx (_rfidSerial st) ++ [f] /\ get f 2 = opcode)
  /\ peer (_rfidSerial st') = peer (_rfidSerial st)
  /\ _head st' = _head st
  /\ _continuousModeTemp st' = _continuousModeTemp st
  /\ _contTemp st' = _contTemp st.

(** A module whose answer to every multi-tag read is a complete, valid
    frame for that request, holding the EPC window, in which the filter's
    comparison fails. *)
Definition never_matching (p : list (list Z) -> list Z) (selepc : SelectEPC)
  (EPCstart : Z) : Prop :=
  forall h f, get f 2 = TMR_SR_OPCODE_READ_TAG_ID_MULTIPLE ->
    Spec.complete (p (h ++ [f])) = true
    /\ Spec.crc_ok (p (h ++ [f])) = true
    /\ get (p (h ++ [f])) 2 = TMR_SR_OPCODE_READ_TAG_ID_MULTIPLE
    /\ 1 <= EPCstart
    /\ EPCstart + EPClen selepc <= Spec.total (p (h ++ [f]))
    /\ epc_compare (p (h ++ [f])) selepc EPCstart (Z.to_nat (EPClen selepc)) 0
       <> EPClen selepc.

(** The destination of a bank-type nibble. *)
Definition bank_list (bank : Z) (read : TMR_TagReadData) : TMR_uint8List :=
  if bank =? TMR_GEN2_BANK_USER then userMemData read
  else if bank =? TMR_GEN2_BANK_TID then tidMemData read
  else if bank =? TMR_GEN2_BANK_RESERVED then reservedMemData read
  else epcMemData read.

(** What a block leaves in its destination [l]: the clamped count, the
    bytes of the block, and nothing at or beyond the count. *)
Definition filled (m : list Z) (data words : Z) (l l' : TMR_uint8List) : Prop :=
  l_len l' = Z.min (words * 2) (l_max l)
  /\ l_len l' <= l_max l
  /\ l_max l' = l_max l
  /\ length (l_list l') = length (l_list l)
  /\ (forall j, 0 <= j < l_len l' -> j < Z.of_nat (length (l_list l)) ->
      get (l_list l') j = get m (data + j))
  /\ (forall j, l_len l' <= j -> get (l_list l') j = get (l_list l) j).

(** No bank of [read'] has grown beyond its capacity or been written at or
    past it, compared with [read]. *)
Definition within_capacity (read read' : TMR_TagReadData) : Prop :=
  forall b,
    l_max (bank_list b read') = l_max (bank_list b read)
    /\ length (l_list (bank_list b read')) = length (l_list (bank_list b read))
    /\ (forall j, l_max (bank_list b read) <= j ->
        get (l_list (bank_list b read')) j = get (l_list (bank_list b read)) j).

(** ** Further vocabulary *)

(** The CRC table as a function, and the register shifted by one nibble. *)
Definition table (k : Z) : Z := nth (Z.to_nat k) crctable 0.

Definition shifted (crc : Z) : Z := (crc * 16) mod 65536.

(** The driver after a command that the module has answered with
    [Spec.response opcode status payload]. *)
Definition answered (st' : RFID) (opcode status : Z) (payload : list Z) : Prop :=
  get (msg st') 0 = ALL_GOOD
  /\ get (msg st') 1 = Z.of_nat (length payload)
  /\ get (msg st') 2 = opcode
  /\ get (msg st') 3 = status / 256
  /\ get (msg st') 4 = status mod 256
  /\ (forall j, 0 <= j < Z.of_nat (length payload) ->
      get (msg st') (5 + j) = get payload j)
  /\ rx (_rfidSerial st') = [].

(** What [check] reports for a frame, and the sample it keeps. *)
Definition reported (f : list Z) : bool := (get f 5 =? 0x10) || (get f 3 =? 0x04).

Definition sampled (f : list Z) (old : Z) : Z :=
  if negb (reported f) && (get f 8 =? 0x02) && (get f 13 =? 1) && (get f 11 =? 0x82)
  then s8 (get f 14) else old.

(** The pins of a GPIO answer: number, direction and state of each. *)
Definition pin_bytes (pins : list (Z * Z * Z)) : list Z :=
  flat_map (fun t => [fst (fst t); snd (fst t); snd t]) pins.

Definition pin_state (pins : list (Z * Z * Z)) (pin : Z) : bool :=
  match List.find (fun t => fst (fst t) =? pin) pins with
  | Some t => negb (snd t =? 0)
  | None => false
  end.

(** * Concrete streams, frames and requests

    The inputs at which the theorems are instantiated. *)

(** A stream on which nothing ever arrives. *)
Definition silent : Stream := mkStream [] [] (fun _ => []).

(** A module that sends [frame] in answer to whatever it is sent. *)
Definition answering (frame : list Z) : Stream := mkStream [] [] (fun _ => frame).

(** The driver with [frame] sitting at the start of [msg]. *)
Definition holding (frame : list Z) : RFID :=
  with_msg (RFID_begin silent)
    (frame ++ replicate (Z.to_nat MAX_MSG_SIZE - length frame) 0).

(** The driver about to send the bodiless command [opcode] on [s]. *)
Definition asking (opcode : Z) (s : Stream) : RFID :=
  with_msg (RFID_begin s) (put (put (msg (RFID_begin s)) 1 0) 2 opcode).

(** The frame of the source comment,
    [FF 0E 22 04 00 00 01 1F 00 00 00 00 00 01 28 00 00 00 00] and its CRC. *)
Definition keepalive14 : list Z :=
  Spec.response 0x22 0x0400 [0x00; 0x01; 0x1F; 0x00; 0x00; 0x00; 0x00; 0x00;
                             0x01; 0x28; 0x00; 0x00; 0x00; 0x00].

Definition blank_list (capacity : nat) : TMR_uint8List :=
  mkList (replicate capacity 0) (Z.of_nat capacity) 0.

Definition blank_read (capacity : nat) : TMR_TagReadData :=
  mkRead (replicate (Z.to_nat TMR_MAX_EPC_BYTE_COUNT) 0) 0 0 0 0 0 0 0
    (blank_list capacity) (blank_list capacity)
    (blank_list capacity) (blank_list capacity).

(** A buffer whose first block, at offset 24, is a USER block of 4 words. *)
Definition user_block_msg : list Z :=
  replicate 24 0 ++ [0x30; 0x04; 0xA1; 0xA2; 0xA3; 0xA4; 0xA5; 0xA6; 0xA7; 0xA8]
  ++ replicate 221 0.

(** The answer to the multi-tag read when only the EPC bank is asked for
    (the layout of the source comment): the EPC starts at [msg[23]]. *)
Definition epc_only_reply : list Z :=
  Spec.response 0x22 0x0000
    [0x88; 0x00; 0x00; 0x17; 0x00; 0x00; 0x00; 0x29; 0x01; 0x28; 0x00; 0x29;
     0x00; 0x00; 0xB8; 0x57; 0x34; 0x00;
     0xE2; 0x00; 0x00; 0x15; 0x86; 0x0E; 0x02; 0x88; 0x15; 0x40; 0x29; 0x80].

(** The answers of a module with one tag in the field to the read-all-banks
    sequence: the multi-tag read reports 31 successful reads, the tag buffer
    holds one record with RSSI byte [rssi_byte] and one EPC block. *)
Definition read_reply : list Z :=
  Spec.response 0x22 0x0000
    [0x88; 0x00; 0x00; 0x17; 0x00; 0x00; 0x00; 0x01; 0x01; 0x28; 0x00; 0x1f;
     0x00; 0x00].

Definition buffer_reply (rssi_byte : Z) : list Z :=
  Spec.response 0x29 0x0000
    [0x0F; 0xFF; 0x00; 0x01; 0x01; rssi_byte; 0x11; 0x0E; 0x0E; 0x70;
     0x00; 0x00; 0x00; 0x39; 0x00; 0xAE; 0x05; 0x00; 0x90;
     0x10; 0x08; 0x78; 0xDE; 0x30; 0x00;
     0xE2; 0x00; 0x00; 0x15; 0x86; 0x0E; 0x02; 0x68; 0x15; 0x50; 0x7D; 0xBB].

Definition tag_module (rssi_byte : Z) : Stream :=
  mkStream [] []
    (fun h =>
       match last h with
       | Some f =>
           if get f 2 =? TMR_SR_OPCODE_GET_TAG_ID_BUFFER then buffer_reply rssi_byte
           else read_reply
       | None => []
       end).

(** A tag record as [check] leaves it in [msg], RSSI byte at [msg[12]]. *)
Definition tag_record (rssi_byte : Z) : list Z :=
  Spec.response 0x22 0x0000
    [0x10; 0x00; 0x1B; 0x01; 0xFF; 0x01; 0x01; rssi_byte; 0x11; 0x0E; 0x16; 0x40;
     0x00; 0x00; 0x01; 0x27; 0x00; 0x00; 0x05; 0x00; 0x00; 0x0F; 0x00; 0x80;
     0x30; 0x00; 0x00; 0x00; 0x00; 0x00; 0x00; 0x00; 0x00; 0x00; 0x00; 0x00;
     0x15; 0x45; 0xE9; 0x4A].

(** The answer when the USER bank is asked for as well (the layout of the
    source comment): the EPC starts at [msg[25]], [msg[37]] is the bank type,
    [msg[38]] the length of the bank, 32 words, and the 64 bytes of the bank
    follow from [msg[39]]. *)
Definition user_bank_reply : list Z :=
  Spec.response 0x22 0x0000
    ([0x88; 0x00; 0x00; 0x17; 0x00; 0x00; 0x00; 0x18; 0x01; 0x28; 0x00; 0x18;
      0x00; 0x00; 0x10; 0x08; 0xB8; 0x57; 0x34; 0x00;
      0xE2; 0x00; 0x00; 0x15; 0x86; 0x0E; 0x02; 0x88; 0x15; 0x40; 0x29; 0x80;
      0x30; 0x20;
      0xFF; 0xF1; 0x11; 0x22; 0x33; 0x44; 0x33; 0x34; 0x42; 0x44; 0x74; 0x6F;
      0x20; 0x77; 0x72; 0x69; 0x74; 0x65; 0x74; 0x6F; 0x20; 0x63; 0x61; 0x72;
      0x64] ++ replicate 39 0).

Definition e200_filter : SelectEPC :=
  mkSelectEPC [0xE2; 0x00; 0x00; 0x15; 0; 0; 0; 0; 0; 0; 0; 0] 4 0 3.

Definition other_filter : SelectEPC :=
  mkSelectEPC [0xAA; 0xBB; 0xCC; 0xDD; 0; 0; 0; 0; 0; 0; 0; 0] 4 0 3.

Definition late_filter : SelectEPC :=
  mkSelectEPC [0xE2; 0x00; 0x00; 0x15; 0; 0; 0; 0; 0; 0; 0; 0] 4 12 3.

(** The driver in continuous mode with [t] in the temperature cache. *)
Definition streaming (t : Z) (s : Stream) : RFID :=
  mkRFID (msg (RFID_begin s)) 0 true t s.

(** The statistics frame of the source comment with temperature byte [t]:
    [FF 0A 22 00 00 00 01 1F 02 82 00 82 00 01 t] and its CRC. *)
Definition stats_frame (t : Z) : list Z :=
  Spec.response 0x22 0x0000 [0x00; 0x01; 0x1F; 0x02; 0x82; 0x00; 0x82; 0x00; 0x01; t].


(** ** Further inputs *)

(** A stream on which [bytes] are waiting and nothing is answered. *)
Definition receiving (bytes : list Z) : Stream := mkStream bytes [] (fun _ => []).

(** The keep-alive frame of the continuous stream: status [0x0400], no payload. *)
Definition keepalive0 : list Z := Spec.response 0x22 0x0400 [].

(** The answer to the version request used in the examples. *)
Definition version_reply : list Z := Spec.response 0x03 0 [1; 2; 3].

(** A frame of 255 bytes, one more than [sendCommand] can take. *)
Definition full_reply : list Z := Spec.response 0x03 0 (replicate 248 0).

(** A filter that asks for endless retries. *)
Definition endless_filter : SelectEPC :=
  mkSelectEPC [0xAA; 0xBB; 0xCC; 0xDD; 0; 0; 0; 0; 0; 0; 0; 0] 4 0 0.


(** A frame that announces 255 payload bytes, all of its 262 bytes there,
    with a wrong CRC at its end; its bytes 4 and 5 are the CRC of its bytes
    1 to 3. *)
Definition wrapped_reply : list Z :=
  let c := Spec.crc16 [0xFF; 0x03; 0x00] in
  [0xFF; 0xFF; 0x03; 0x00; c / 256; c mod 256] ++ replicate 256 0.

(** A frame of the stream with payload length 10 and no statistics marker
    ([msg[8]] is 0 where [stats_frame] has [0x02]). *)
Definition unmarked_frame : list Z :=
  Spec.response 0x22 0x0000 [0x00; 0x01; 0x1F; 0x00; 0x82; 0x00; 0x82; 0x00; 0x01; 0x1A].

(** A frame of the stream with payload length 14 and status [0x0000]. *)
Definition length14_frame : list Z :=
  Spec.response 0x22 0x0000 [0x00; 0x01; 0x1F; 0x00; 0x00; 0x00; 0x00; 0x00;
                             0x01; 0x28; 0x00; 0x00; 0x00; 0x00].

(** A tag-buffer answer whose data field (128 bits, from [msg[24]]) holds a
    USER block of 4 words, [A1 .. A8], and a TID block of 2 words,
    [E2 80 11 05]. *)
Definition two_bank_reply : list Z :=
  Spec.response 0x29 0x0000
    [0x0F; 0xFF; 0x00; 0x01; 0x01; 0xDD; 0x11; 0x0E; 0x0E; 0x70;
     0x00; 0x00; 0x00; 0x39; 0x00; 0xAE; 0x05; 0x00; 0x80;
     0x30; 0x04; 0xA1; 0xA2; 0xA3; 0xA4; 0xA5; 0xA6; 0xA7; 0xA8;
     0x20; 0x02; 0xE2; 0x80; 0x11; 0x05].

(** A tag-buffer answer whose data field holds one EPC block of 8 words. *)
Definition epc_bank_msg : list Z := msg (holding (buffer_reply 0xDD)).

(** The tag record of the source comment in [check], with 144 bits (18
    bytes) of embedded data from [msg[26]] on. *)
Definition data_record : list Z :=
  Spec.response 0x22 0x0000
    [0x10; 0x01; 0x1F; 0x0F; 0xFF; 0x01; 0x01; 0xDD; 0x11; 0x0D; 0x37; 0xFC;
     0x00; 0x00; 0x00; 0xB3; 0x00; 0xAE; 0x05; 0x00; 0x90;
     0xFF; 0x00; 0x06; 0x2F; 0x80; 0x29; 0x01; 0x0E; 0x01; 0x54; 0x00; 0x0D;
     0x5F; 0xFB; 0xFF; 0xFF; 0xDC; 0x00;
     0x80; 0x02; 0x00; 0x00; 0x00; 0x80; 0x34; 0x00;
     0xE2; 0x00; 0x00; 0x15; 0x86; 0x0E; 0x02; 0x88; 0x15; 0x40; 0x80; 0x29;
     0x3B; 0x72].

(** The GPIO answer of the source comment: four pins, 1 and 4 high. *)
Definition gpio_pins : list (Z * Z * Z) :=
  [(1, 0, 1); (2, 0, 0); (3, 0, 0); (4, 0, 1)].

Definition gpio_reply : list Z := Spec.response 0x66 0 (1 :: pin_bytes gpio_pins).

(** * Lemmas and theorems *)

(** ** Arrays *)

Lemma get_nth (a : list Z) (i : Z) : 0 <= i -> get a i = nth (Z.to_nat i) a 0.
Proof.
  intros Hi. unfold get. destruct (Z.ltb_spec i 0); [lia|].
  symmetry. apply nth_lookup.
Qed.

Lemma get_cons_succ (b : Z) (l : list Z) (i : Z) :
  0 <= i -> get (b :: l) (i + 1) = get l i.
Proof.
  intros Hi. rewrite !get_nth by lia.
  replace (Z.to_nat (i + 1)) with (S (Z.to_nat i)) by lia. reflexivity.
Qed.

Lemma get_cons_0 (b : Z) (l : list Z) : get (b :: l) 0 = b.
Proof. reflexivity. Qed.

Lemma length_put (a : list Z) (i v : Z) : length (put a i v) = length a.
Proof. unfold put. destruct (i <? 0); [reflexivity|]. apply length_insert. Qed.

Lemma get_put_eq (a : list Z) (i v : Z) :
  0 <= i < Z.of_nat (length a) -> get (put a i v) i = v.
Proof.
  intros Hi. unfold get, put. destruct (Z.ltb_spec i 0); [lia|].
  rewrite list_lookup_insert_eq by lia. reflexivity.
Qed.

Lemma get_put_ne (a : list Z) (i j v : Z) :
  i <> j -> get (put a i v) j = get a j.
Proof.
  intros Hij. unfold get, put.
  destruct (Z.ltb_spec j 0); [reflexivity|].
  destruct (Z.ltb_spec i 0); [reflexivity|].
  rewrite list_lookup_insert_ne by lia. reflexivity.
Qed.

Lemma is_byte_range (b : Z) : is_byte b = true <-> 0 <= b < 256.
Proof. unfold is_byte. rewrite andb_true_iff, Z.leb_le, Z.ltb_lt. tauto. Qed.

Lemma u8_byte (b : Z) : 0 <= b < 256 -> u8 b = b.
Proof. intros. unfold u8. apply Z.mod_small. lia. Qed.

(** ** The CRC *)

Lemma crctable_range (k : Z) : 0 <= get crctable k < 65536.
Proof.
  unfold get. destruct (k <? 0); [lia|].
  generalize (Z.to_nat k) as n. intros n.
  do 16 (destruct n as [|n]; [vm_compute; split; congruence|]).
  vm_compute; split; congruence.
Qed.

Lemma mod16_lxor_lor (a n t : Z) :
  0 <= n < 65536 -> 0 <= t < 65536 ->
  (Z.lxor (Z.lor a n) t) mod 2 ^ 16 = Z.lxor (Z.lor (a mod 2 ^ 16) n) t.
Proof.
  intros Hn Ht.
  rewrite <- (Z.mod_small n (2 ^ 16)) at 2 by lia.
  rewrite <- (Z.mod_small t (2 ^ 16)) at 2 by lia.
  apply Z.bits_inj'. intros k Hk.
  rewrite Z.lxor_spec, Z.lor_spec.
  destruct (Z.lt_ge_cases k 16).
  - rewrite !Z.mod_pow2_bits_low by lia.
    rewrite Z.lxor_spec, Z.lor_spec. reflexivity.
  - rewrite !Z.mod_pow2_bits_high by lia. reflexivity.
Qed.

Lemma crc_nibble_update (crc nib : Z) :
  0 <= crc -> 0 <= nib < 16 -> crc_nibble crc nib = Spec.update crc nib.
Proof.
  intros Hc Hn. unfold crc_nibble, Spec.update, u16.
  assert (Ht := crctable_range (Z.shiftr crc 12)).
  change 65536 with (2 ^ 16) at 1.
  rewrite mod16_lxor_lor by lia.
  rewrite Z.shiftl_mul_pow2 by lia.
  rewrite Z.shiftr_div_pow2 by lia.
  change (2 ^ 4) with 16. change (2 ^ 12) with 4096. change (2 ^ 16) with 65536.
  rewrite get_nth by (apply Z.div_pos; lia). reflexivity.
Qed.

Lemma crc_nibble_range (crc nib : Z) : 0 <= crc_nibble crc nib < 65536.
Proof. unfold crc_nibble, u16. apply Z.mod_pos_bound. lia. Qed.

Lemma update_range (crc nib : Z) :
  0 <= crc -> 0 <= nib < 16 -> 0 <= Spec.update crc nib < 65536.
Proof. intros. rewrite <- crc_nibble_update by lia. apply crc_nibble_range. Qed.

Lemma calculateCRC_loop_cons (b : Z) (l : list Z) (n : nat) (i crc : Z) :
  0 <= i ->
  calculateCRC_loop (b :: l) n (i + 1) crc = calculateCRC_loop l n i crc.
Proof.
  revert i crc. induction n as [|n IH]; intros i crc Hi; [reflexivity|].
  cbn [calculateCRC_loop]. rewrite get_cons_succ by lia.
  apply IH. lia.
Qed.

Lemma calculateCRC_loop_fold (l rest : list Z) (crc : Z) :
  bytes_ok l = true -> 0 <= crc ->
  calculateCRC_loop (l ++ rest) (length l) 0 crc
  = fold_left Spec.update (concat (map Spec.nibbles l)) crc.
Proof.
  revert crc. induction l as [|b l IH]; intros crc Hl Hc; [reflexivity|].
  rewrite <- app_comm_cons.
  cbn in Hl. apply andb_true_iff in Hl as [Hb Hl]. apply is_byte_range in Hb.
  cbn [length calculateCRC_loop map concat Spec.nibbles app fold_left].
  rewrite get_cons_0.
  rewrite calculateCRC_loop_cons by lia.
  assert (Hhi : 0 <= b / 16 < 16).
  { split; [apply Z.div_pos; lia | apply Z.div_lt_upper_bound; lia]. }
  assert (Hlo : 0 <= b mod 16 < 16) by (apply Z.mod_pos_bound; lia).
  rewrite (Z.shiftr_div_pow2 b 4) by lia. change (2 ^ 4) with 16.
  change 15 with (Z.ones 4). rewrite Z.land_ones by lia. change (2 ^ 4) with 16.
  rewrite (crc_nibble_update crc) by lia.
  rewrite crc_nibble_update by (try apply update_range; lia).
  apply IH; [assumption|]. apply update_range; [|lia]. apply update_range; lia.
Qed.

Lemma calculateCRC_prefix (l rest : list Z) :
  bytes_ok l = true ->
  calculateCRC (l ++ rest) (Z.of_nat (length l)) = Spec.crc16 l.
Proof.
  intros Hl. unfold calculateCRC, Spec.crc16. rewrite Nat2Z.id.
  apply calculateCRC_loop_fold; [assumption | lia].
Qed.

Lemma calculateCRC_loop_ext (a b : list Z) (n : nat) (i crc : Z) :
  (forall j, i <= j < i + Z.of_nat n -> get a j = get b j) ->
  calculateCRC_loop a n i crc = calculateCRC_loop b n i crc.
Proof.
  revert i crc. induction n as [|n IH]; intros i crc H; [reflexivity|].
  cbn [calculateCRC_loop]. rewrite (H i) by lia.
  apply IH. intros j Hj. apply H. lia.
Qed.

Lemma calculateCRC_ext (a b : list Z) (len : Z) :
  (forall j, 0 <= j < len -> get a j = get b j) ->
  calculateCRC a len = calculateCRC b len.
Proof.
  intros H. unfold calculateCRC. apply calculateCRC_loop_ext.
  intros j Hj. apply H. lia.
Qed.

Lemma calculateCRC_loop_range (a : list Z) (n : nat) (i crc : Z) :
  0 <= crc < 65536 -> 0 <= calculateCRC_loop a n i crc < 65536.
Proof.
  revert i crc. induction n as [|n IH]; intros i crc H.
  - exact H.
  - cbn [calculateCRC_loop]. apply IH. apply crc_nibble_range.
Qed.

Lemma calculateCRC_range (a : list Z) (len : Z) : 0 <= calculateCRC a len < 65536.
Proof. apply calculateCRC_loop_range. lia. Qed.

Lemma bytes_ok_Forall (l : list Z) :
  bytes_ok l = true <-> Forall (fun b => 0 <= b < 256) l.
Proof.
  unfold bytes_ok. rewrite forallb_forall, Forall_forall.
  split; intros H b Hb.
  - apply is_byte_range, H. apply list_elem_of_In. exact Hb.
  - apply is_byte_range, H. apply list_elem_of_In. exact Hb.
Qed.

Lemma bytes_ok_get (l : list Z) (j : Z) : bytes_ok l = true -> 0 <= get l j < 256.
Proof.
  intros H. apply bytes_ok_Forall in H. unfold get.
  destruct (j <? 0); [lia|].
  destruct (l !! Z.to_nat j) as [b|] eqn:E; cbn; [|lia].
  eapply Forall_lookup_1 in H; [exact H | exact E].
Qed.

Lemma get_take (l : list Z) (n : nat) (j : Z) :
  j < Z.of_nat n -> get (take n l) j = get l j.
Proof.
  intros H. unfold get. destruct (Z.ltb_spec j 0); [reflexivity|].
  rewrite lookup_take_lt by lia. reflexivity.
Qed.

Lemma get_drop (l : list Z) (n : nat) (j : Z) :
  0 <= j -> get (drop n l) j = get l (Z.of_nat n + j).
Proof.
  intros H. unfold get.
  destruct (Z.ltb_spec j 0); [lia|]. destruct (Z.ltb_spec (Z.of_nat n + j) 0); [lia|].
  rewrite lookup_drop. f_equal. f_equal. lia.
Qed.

Lemma get_outside (l : list Z) (j : Z) : Z.of_nat (length l) <= j -> get l j = 0.
Proof.
  intros H. unfold get. destruct (j <? 0); [reflexivity|].
  rewrite lookup_ge_None_2 by lia. reflexivity.
Qed.

Lemma calculateCRC_take (l : list Z) (n : nat) :
  bytes_ok l = true -> (n <= length l)%nat ->
  calculateCRC l (Z.of_nat n) = Spec.crc16 (take n l).
Proof.
  intros Hl Hn.
  rewrite <- (take_drop n l) at 1.
  replace (Z.of_nat n) with (Z.of_nat (length (take n l)))
    by (rewrite length_take; lia).
  apply calculateCRC_prefix.
  apply bytes_ok_Forall, Forall_take, bytes_ok_Forall, Hl.
Qed.

(** ** Frames *)

Lemma complete_inv (r : list Z) :
  Spec.complete r = true ->
  bytes_ok r = true /\ 7 <= Spec.total r < 255
  /\ Spec.total r <= Z.of_nat (length r).
Proof.
  unfold Spec.complete, MAX_MSG_SIZE. intros H.
  apply andb_true_iff in H as [H H3]. apply andb_true_iff in H as [H1 H2].
  apply Z.ltb_lt in H2. apply Z.leb_le in H3.
  pose proof (bytes_ok_get r 1 H1). unfold Spec.total in *. split; [assumption|lia].
Qed.

Lemma split_crc (c hi lo : Z) :
  0 <= c < 65536 -> 0 <= hi < 256 -> 0 <= lo < 256 ->
  negb (hi =? Z.shiftr c 8) || negb (lo =? Z.land c 0xFF) = negb (c =? hi * 256 + lo).
Proof.
  intros Hc Hhi Hlo.
  rewrite Z.shiftr_div_pow2 by lia. change (2 ^ 8) with 256.
  change 255 with (Z.ones 8). rewrite Z.land_ones by lia. change (2 ^ 8) with 256.
  destruct (Z.eqb_spec c (hi * 256 + lo)) as [->|Hne]; cbn.
  - assert (E1 : (hi * 256 + lo) / 256 = hi) by (Z.div_mod_to_equations; lia).
    assert (E2 : (hi * 256 + lo) mod 256 = lo) by (Z.div_mod_to_equations; lia).
    rewrite E1, E2, !Z.eqb_refl. reflexivity.
  - destruct (Z.eqb_spec hi (c / 256)) as [->|]; [|reflexivity].
    destruct (Z.eqb_spec lo (c mod 256)) as [->|]; [|reflexivity].
    exfalso. apply Hne. pose proof (Z.div_mod c 256). lia.
Qed.

(** On a complete frame held in [msg] the driver's test is the negation of
    the specification's validity check. *)
Lemma crc_mismatch_spec (m r : list Z) :
  Spec.complete r = true ->
  (forall j, 1 <= j < Spec.total r -> get m j = get r j) ->
  crc_mismatch m (Spec.total r) = negb (Spec.crc_ok r).
Proof.
  intros Hr Hm. apply complete_inv in Hr as (Hb & Ht & Hlen).
  unfold crc_mismatch, Spec.crc_ok.
  rewrite u8_byte by lia.
  rewrite (calculateCRC_ext _ (drop 1 r)).
  2:{ intros j Hj. rewrite !get_drop by lia. apply Hm. lia. }
  rewrite !Hm by lia.
  assert (E : calculateCRC (drop 1 r) (Spec.total r - 3)
              = Spec.crc16 (take (Z.to_nat (Spec.total r - 3)) (drop 1 r))).
  { rewrite <- calculateCRC_take.
    - rewrite Z2Nat.id by lia. reflexivity.
    - apply bytes_ok_Forall, Forall_drop, bytes_ok_Forall, Hb.
    - rewrite length_drop. lia. }
  rewrite <- E. apply split_crc.
  - apply calculateCRC_range.
  - apply bytes_ok_get, Hb.
  - apply bytes_ok_get, Hb.
Qed.

(** ** The receive loop *)

Lemma receive_eq (rx0 m : list Z) (messageLength spot : Z) :
  receive rx0 m messageLength spot =
  if spot <? messageLength then
    match rx0 with
    | [] => TimedOut [] m
    | b :: rx' =>
        let m := put m spot (u8 b) in
        let messageLength :=
          if spot =? 1 then u8 (get m 1 + 7) else messageLength in
        receive rx' m messageLength ((spot + 1) mod MAX_MSG_SIZE)
    end
  else Complete rx0 m messageLength.
Proof. destruct rx0; reflexivity. Qed.

Lemma receive_length (rx0 m : list Z) (messageLength spot : Z) :
  length (received_msg (receive rx0 m messageLength spot)) = length m.
Proof.
  revert m messageLength spot.
  induction rx0 as [|b rx' IH]; intros m messageLength spot; rewrite receive_eq.
  - destruct (spot <? messageLength); reflexivity.
  - destruct (spot <? messageLength); [|reflexivity].
    cbv zeta. rewrite IH. apply length_put.
Qed.

Lemma receive_body (total : Z) (n : nat) :
  forall (k : Z) (rxs m : list Z),
    2 <= k -> k + Z.of_nat n = total -> total < 255 ->
    (n <= length rxs)%nat -> length m = 255%nat ->
    exists m',
      receive rxs m total k = Complete (drop n rxs) m' total
      /\ length m' = 255%nat
      /\ (forall j, 0 <= j < Z.of_nat n -> get m' (k + j) = u8 (get rxs j))
      /\ (forall j, j < k \/ total <= j -> get m' j = get m j).
Proof.
  induction n as [|n IH]; intros k rxs m Hk Hn Ht Hlen Hm; rewrite receive_eq.
  - destruct (Z.ltb_spec k total); [lia|].
    exists m. rewrite drop_0. repeat split; [assumption | intros; lia].
  - destruct (Z.ltb_spec k total); [|lia].
    destruct rxs as [|b rxs']; [cbn in Hlen; lia|]. cbn in Hlen.
    cbv zeta. destruct (Z.eqb_spec k 1); [lia|].
    unfold MAX_MSG_SIZE. rewrite Z.mod_small by lia.
    destruct (IH (k + 1) rxs' (put m k (u8 b))) as (m' & E & L & Hin & Hout);
      try lia.
    { rewrite length_put. exact Hm. }
    exists m'. split; [exact E|]. split; [exact L|]. split.
    + intros j Hj. destruct (Z.eq_dec j 0) as [->|Hj0].
      * rewrite Z.add_0_r, Hout by lia. rewrite get_put_eq by lia. reflexivity.
      * replace (k + j) with (k + 1 + (j - 1)) by lia. rewrite Hin by lia.
        f_equal. replace j with ((j - 1) + 1) at 2 by lia.
        rewrite get_cons_succ by lia. reflexivity.
    + intros j Hj. rewrite Hout by lia. apply get_put_ne. lia.
Qed.

Lemma receive_frame (r m : list Z) :
  Spec.complete r = true -> length m = 255%nat ->
  exists m',
    receive r m (MAX_MSG_SIZE - 1) 0
    = Complete (drop (Z.to_nat (Spec.total r)) r) m' (Spec.total r)
    /\ length m' = 255%nat
    /\ (forall j, 0 <= j < Spec.total r -> get m' j = get r j)
    /\ (forall j, Spec.total r <= j -> get m' j = get m j).
Proof.
  intros Hr Hm. pose proof (complete_inv r Hr) as (Hb & Ht & Hlen).
  destruct r as [|b0 [|b1 r']]; try (cbn in Hlen; lia).
  assert (H0 : 0 <= b0 < 256) by apply (bytes_ok_get _ 0 Hb).
  assert (H1 : 0 <= b1 < 256) by apply (bytes_ok_get _ 1 Hb).
  assert (Etot : Spec.total (b0 :: b1 :: r') = b1 + 7) by reflexivity.
  rewrite receive_eq. change (0 <? MAX_MSG_SIZE - 1) with true. cbv iota zeta.
  change (0 =? 1) with false. cbv iota.
  change ((0 + 1) mod MAX_MSG_SIZE) with 1.
  rewrite receive_eq. change (1 <? MAX_MSG_SIZE - 1) with true. cbv iota zeta.
  change (1 =? 1) with true. cbv iota.
  change ((1 + 1) mod MAX_MSG_SIZE) with 2.
  rewrite !u8_byte by lia.
  rewrite get_put_eq by (rewrite length_put; lia).
  rewrite (u8_byte (b1 + 7)) by lia.
  destruct (receive_body (b1 + 7) (Z.to_nat (b1 + 5)) 2 r'
              (put (put m 0 b0) 1 b1)) as (m' & E & L & Hin & Hout); try lia.
  { cbn [length] in Hlen. lia. }
  { rewrite !length_put. exact Hm. }
  exists m'. rewrite Etot.
  replace (Z.to_nat (b1 + 7)) with (S (S (Z.to_nat (b1 + 5)))) by lia.
  cbn [drop]. split; [exact E|]. split; [exact L|]. split.
  - intros j Hj.
    destruct (Z.eq_dec j 0) as [->|]; [|destruct (Z.eq_dec j 1) as [->|]].
    + rewrite Hout by lia. rewrite get_put_ne by lia.
      rewrite get_put_eq by lia. reflexivity.
    + rewrite Hout by lia. rewrite get_put_eq by (rewrite length_put; lia).
      reflexivity.
    + replace j with (2 + (j - 2)) at 1 by lia. rewrite Hin by lia.
      rewrite u8_byte.
      * replace j with ((j - 2) + 1 + 1) at 2 by lia.
        rewrite !get_cons_succ by lia. reflexivity.
      * apply bytes_ok_get. cbn in Hb.
        apply andb_true_iff in Hb as [_ Hb]. apply andb_true_iff in Hb as [_ Hb].
        exact Hb.
  - intros j Hj. rewrite Hout by lia. rewrite !get_put_ne by lia. reflexivity.
Qed.

(** ** [sendCommand] *)

Ltac fields :=
  cbn [with_serial with_msg with_head with_contTemp received_msg
       msg _rfidSerial rx tx peer _head _continuousModeTemp _contTemp drain written].

Ltac fields_in H :=
  cbn [with_serial with_msg with_head with_contTemp received_msg
       msg _rfidSerial rx tx peer _head _continuousModeTemp _contTemp drain written]
    in H.

Lemma sendCommand_eq (st : RFID) (timeOut : Z) (waitForResponse : bool) :
  sendCommand st timeOut waitForResponse =
  let m := framed (msg st) in
  if 255 <? get (msg st) 1 + 5 then None
  else
    let s := written (drain (_rfidSerial st)) (outgoing (msg st)) in
    if negb waitForResponse then Some (with_serial (with_msg st m) (drain s))
    else
      match rx s with
      | [] => Some (with_serial (with_msg st (put m 0 ERROR_COMMAND_RESPONSE_TIMEOUT)) s)
      | _ :: _ =>
          Some (verdict st s (get (msg st) 2) (receive (rx s) m (MAX_MSG_SIZE - 1) 0))
      end.
Proof.
  unfold sendCommand, framed, outgoing, verdict. cbv zeta.
  rewrite !(get_put_ne (msg st) 0) by lia.
  destruct (255 <? get (msg st) 1 + 5); [reflexivity|].
  destruct (negb waitForResponse); [reflexivity|].
  destruct (rx _); [reflexivity|].
  destruct (receive _ _ _ _); [reflexivity|].
  destruct (crc_mismatch _ _); [reflexivity|].
  destruct (negb _); reflexivity.
Qed.

Lemma write_loop_get (m : list Z) (n : nat) :
  forall x j, 0 <= j < Z.of_nat n -> get (write_loop m n x) j = get m (x + j).
Proof.
  induction n as [|n IH]; intros x j Hj; [lia|].
  cbn [write_loop]. destruct (Z.eq_dec j 0) as [->|].
  - rewrite Z.add_0_r. apply get_cons_0.
  - replace j with ((j - 1) + 1) at 1 by lia. rewrite get_cons_succ by lia.
    rewrite IH by lia. f_equal. lia.
Qed.

Lemma length_framed (m0 : list Z) : length (framed m0) = length m0.
Proof. unfold framed. cbv zeta. rewrite !length_put. reflexivity. Qed.

Lemma framed_low (m0 : list Z) (j : Z) :
  0 <= get m0 1 -> 1 <= j < 3 -> get (framed m0) j = get m0 j.
Proof.
  intros H Hj. unfold framed. cbv zeta.
  rewrite (get_put_ne m0 0) by lia.
  rewrite !get_put_ne by lia. reflexivity.
Qed.

Lemma outgoing_opcode (m0 : list Z) :
  0 <= get m0 1 -> get (outgoing m0) 2 = get m0 2.
Proof.
  intros H. change (outgoing m0) with
    (write_loop (framed m0) (Z.to_nat (get (put m0 0 0xFF) 1 + 5)) 0).
  rewrite write_loop_get by (rewrite get_put_ne by lia; lia).
  apply framed_low; lia.
Qed.

Lemma verdict_sent (st : RFID) (s : Stream) (opcode : Z) (x : Received) :
  length (received_msg x) = length (msg st) ->
  length (msg (verdict st s opcode x)) = length (msg st)
  /\ tx (_rfidSerial (verdict st s opcode x)) = tx s
  /\ peer (_rfidSerial (verdict st s opcode x)) = peer s
  /\ _head (verdict st s opcode x) = _head st
  /\ _continuousModeTemp (verdict st s opcode x) = _continuousModeTemp st
  /\ _contTemp (verdict st s opcode x) = _contTemp st.
Proof.
  intros H. destruct x as [rx' m|rx' m L]; cbn [received_msg] in H; unfold verdict.
  - fields. rewrite length_put. tauto.
  - destruct (crc_mismatch m L); [|destruct (negb _)]; fields;
      rewrite length_put; tauto.
Qed.

Lemma sendCommand_returns (st : RFID) (timeOut : Z) (waitForResponse : bool) :
  0 <= get (msg st) 1 <= 250 ->
  exists st', sendCommand st timeOut waitForResponse = Some st' /\ sent_from st st'.
Proof.
  intros HL. rewrite sendCommand_eq. cbv zeta.
  destruct (Z.ltb_spec 255 (get (msg st) 1 + 5)); [lia|].
  destruct (negb waitForResponse).
  { eexists. split; [reflexivity|]. unfold sent_from. fields.
    rewrite length_framed. tauto. }
  destruct (rx _) eqn:Erx.
  { eexists. split; [reflexivity|]. unfold sent_from. fields.
    rewrite length_put, length_framed. tauto. }
  eexists. split; [reflexivity|]. unfold sent_from.
  match goal with |- context [verdict st ?s ?o ?x] =>
    destruct (verdict_sent st s o x) as (H1 & H2 & H3 & H4 & H5 & H6) end.
  { rewrite receive_length. apply length_framed. }
  rewrite H1, H2, H3, H4, H5, H6. fields. tauto.
Qed.

(** A complete frame in answer: the outcome is the specification's. *)
Lemma sendCommand_reply (st : RFID) (timeOut : Z) (r : list Z) :
  length (msg st) = 255%nat ->
  0 <= get (msg st) 1 <= 250 ->
  peer (_rfidSerial st) (tx (_rfidSerial st) ++ [outgoing (msg st)]) = r ->
  Spec.complete r = true ->
  exists st',
    sendCommand st timeOut true = Some st'
    /\ sent_from st st'
    /\ rx (_rfidSerial st') = drop (Z.to_nat (Spec.total r)) r
    /\ (forall j, 1 <= j < Spec.total r -> get (msg st') j = get r j)
    /\ get (msg st') 0 =
       if Spec.crc_ok r then
         if get r 2 =? get (msg st) 2 then ALL_GOOD else ERROR_WRONG_OPCODE_RESPONSE
       else ERROR_CORRUPT_RESPONSE.
Proof.
  intros Hm HL Hr Hc.
  destruct (sendCommand_returns st timeOut true HL) as (st' & E & Hsent).
  exists st'. split; [exact E|]. split; [exact Hsent|].
  rewrite sendCommand_eq in E. cbv zeta in E.
  destruct (Z.ltb_spec 255 (get (msg st) 1 + 5)); [lia|].
  cbn [negb] in E. fields_in E. cbn [app] in E.
  rewrite Hr in E.
  pose proof (complete_inv r Hc) as (Hb & Ht & Hlen).
  destruct (receive_frame r (framed (msg st)) Hc) as (m' & Erec & Lm' & Hin & Hout).
  { rewrite length_framed. exact Hm. }
  destruct r as [|b0 r0] eqn:Er; [cbn in Hlen; lia|]. rewrite <- Er in *.
  rewrite Erec in E. unfold verdict in E.
  rewrite (crc_mismatch_spec m' r Hc) in E by (intros; apply Hin; lia).
  rewrite (Hin 2) in E by lia.
  injection E as <-.
  destruct (Spec.crc_ok r); cbn [negb].
  - destruct (get r 2 =? get (msg st) 2); cbn [negb]; fields;
      (split; [reflexivity|]); (split; [intros j Hj; rewrite get_put_ne by lia; apply Hin; lia|]);
      apply get_put_eq; lia.
  - fields.
    (split; [reflexivity|]); (split; [intros j Hj; rewrite get_put_ne by lia; apply Hin; lia|]);
      apply get_put_eq; lia.
Qed.

(** ** [sendMessage] *)

(** The frame that goes out is the specification's [encode] of the opcode
    and the data: here the one of the source comment,
    [ff 03 9a 01 08 00 a7 5d]. *)
Example outgoing_is_encode :
  outgoing (loaded (msg (RFID_begin silent))
              TMR_SR_OPCODE_SET_READER_OPTIONAL_PARAMS [0x01; 0x08; 0x00] 3)
  = [0xff; 0x03; 0x9a; 0x01; 0x08; 0x00; 0xa7; 0x5d]
  /\ Spec.encode TMR_SR_OPCODE_SET_READER_OPTIONAL_PARAMS [0x01; 0x08; 0x00]
     = [0xff; 0x03; 0x9a; 0x01; 0x08; 0x00; 0xa7; 0x5d].
Proof. split; vm_compute; reflexivity. Qed.

Lemma length_load_data (data : list Z) (n : nat) :
  forall m x, length (load_data m data n x) = length m.
Proof.
  induction n as [|n IH]; intros m x; [reflexivity|].
  cbn [load_data]. rewrite IH. apply length_put.
Qed.

Lemma load_data_low (data : list Z) (n : nat) :
  forall m x j, 0 <= x -> j < 3 -> get (load_data m data n x) j = get m j.
Proof.
  induction n as [|n IH]; intros m x j Hx Hj; [reflexivity|].
  cbn [load_data]. rewrite IH by lia. apply get_put_ne. lia.
Qed.

Lemma length_loaded (m0 : list Z) (opcode : Z) (data : list Z) (size : Z) :
  length (loaded m0 opcode data size) = length m0.
Proof. unfold loaded. rewrite length_load_data, !length_put. reflexivity. Qed.

Lemma loaded_size (m0 : list Z) (opcode : Z) (data : list Z) (size : Z) :
  (3 <= length m0)%nat -> get (loaded m0 opcode data size) 1 = size.
Proof.
  intros H. unfold loaded. rewrite load_data_low by lia.
  rewrite get_put_ne by lia. apply get_put_eq. lia.
Qed.

Lemma loaded_opcode (m0 : list Z) (opcode : Z) (data : list Z) (size : Z) :
  (3 <= length m0)%nat -> get (loaded m0 opcode data size) 2 = opcode.
Proof.
  intros H. unfold loaded. rewrite load_data_low by lia.
  apply get_put_eq. rewrite length_put. lia.
Qed.

Lemma sendMessage_eq (st : RFID) (opcode : Z) (data : list Z) (size timeOut : Z)
  (waitForResponse : bool) :
  sendMessage st opcode data size timeOut waitForResponse
  = sendCommand (with_msg st (loaded (msg st) opcode data size)) timeOut waitForResponse.
Proof. reflexivity. Qed.

Lemma sendMessage_returns (st : RFID) (opcode : Z) (data : list Z)
  (size timeOut : Z) (waitForResponse : bool) :
  (3 <= length (msg st))%nat -> 0 <= size <= 250 ->
  exists st',
    sendMessage st opcode data size timeOut waitForResponse = Some st'
    /\ exchanged opcode st st'.
Proof.
  intros Hm Hs. rewrite sendMessage_eq.
  destruct (sendCommand_returns (with_msg st (loaded (msg st) opcode data size))
              timeOut waitForResponse) as (st' & E & H1 & H2 & H3 & H4 & H5 & H6).
  { fields. rewrite loaded_size by lia. lia. }
  fields_in H1. fields_in H2. fields_in H3. fields_in H4. fields_in H5. fields_in H6.
  exists st'. split; [exact E|]. unfold exchanged.
  rewrite H1, length_loaded. repeat split; try assumption.
  eexists. split; [exact H2|].
  rewrite outgoing_opcode by (rewrite loaded_size by lia; lia).
  apply loaded_opcode. lia.
Qed.

Lemma sendMessage_reply (st : RFID) (opcode : Z) (data : list Z)
  (size timeOut : Z) (r : list Z) :
  length (msg st) = 255%nat -> 0 <= size <= 250 ->
  peer (_rfidSerial st)
    (tx (_rfidSerial st) ++ [outgoing (loaded (msg st) opcode data size)]) = r ->
  Spec.complete r = true ->
  exists st',
    sendMessage st opcode data size timeOut true = Some st'
    /\ exchanged opcode st st'
    /\ rx (_rfidSerial st') = drop (Z.to_nat (Spec.total r)) r
    /\ (forall j, 1 <= j < Spec.total r -> get (msg st') j = get r j)
    /\ get (msg st') 0 =
       if Spec.crc_ok r then
         if get r 2 =? opcode then ALL_GOOD else ERROR_WRONG_OPCODE_RESPONSE
       else ERROR_CORRUPT_RESPONSE.
Proof.
  intros Hm Hs Hr Hc.
  destruct (sendMessage_returns st opcode data size timeOut true) as (st' & E & Hex);
    [lia | lia |].
  exists st'. split; [exact E|]. split; [exact Hex|].
  rewrite sendMessage_eq in E.
  destruct (sendCommand_reply (with_msg st (loaded (msg st) opcode data size))
              timeOut r) as (st'' & E' & _ & Hrx & Hin & H0).
  - fields. rewrite length_loaded. exact Hm.
  - fields. rewrite loaded_size by lia. lia.
  - fields. exact Hr.
  - exact Hc.
  - rewrite E in E'. injection E' as <-. fields_in H0.
    rewrite loaded_opcode in H0 by lia. auto.
Qed.

(** ** The CRC and the exchange: C1, C2 *)

(** C1.  On every byte sequence (of a length the 8-bit [len] can express)
    [calculateCRC] is the nibble-wise algorithm of the specification: seed
    [0xFFFF], per byte the high nibble then the low nibble, each step
    [crc = ((crc << 4) | nibble) ^ table[crc >> 12]] on 16 bits.  The value
    is a function of the bytes alone, hence deterministic. *)
Theorem calculateCRC_refines_spec (b : list Z) :
  bytes_ok b = true -> (length b <= 255)%nat ->
  calculateCRC b (Z.of_nat (length b)) = Spec.crc16 b.
Proof.
  intros Hb _. rewrite <- (app_nil_r b) at 1. apply calculateCRC_prefix, Hb.
Qed.

Lemma calculateCRC_refines_spec_witness :
  bytes_ok [0x03; 0x9a; 0x01; 0x08; 0x00] = true
  /\ (length [0x03; 0x9a; 0x01; 0x08; 0x00] <= 255)%nat
  /\ calculateCRC [0x03; 0x9a; 0x01; 0x08; 0x00]
       (Z.of_nat (length [0x03; 0x9a; 0x01; 0x08; 0x00]))
     = Spec.crc16 [0x03; 0x9a; 0x01; 0x08; 0x00].
Proof.
  split; [reflexivity|]. split; [cbn; lia|].
  apply (calculateCRC_refines_spec [0x03; 0x9a; 0x01; 0x08; 0x00]);
    [reflexivity | cbn; lia].
Defined.

(** C2, as amended.  When the module answers with a complete frame [r] that
    is shorter than the 255 bytes of [msg] ([Spec.complete]: all of its
    [total] bytes are there and [total < 255]), [sendCommand]
    returns, and the result code in [msg[0]] is decided in this order: the
    corrupt-response code when the CRC of [r] (over the [total - 3] bytes after
    the header) differs from its trailing two bytes; otherwise the
    wrong-opcode code when the opcode of [r] differs from the one sent;
    otherwise success.  Success is reported only when both tests pass, and
    then [msg] holds the frame. *)
Theorem sendCommand_validates_in_order (st : RFID) (timeOut : Z) (r : list Z) :
  length (msg st) = 255%nat ->
  0 <= get (msg st) 1 <= 250 ->
  peer (_rfidSerial st) (tx (_rfidSerial st) ++ [outgoing (msg st)]) = r ->
  Spec.complete r = true ->
  exists st',
    sendCommand st timeOut true = Some st'
    /\ (Spec.crc_ok r = false -> get (msg st') 0 = ERROR_CORRUPT_RESPONSE)
    /\ (Spec.crc_ok r = true -> get r 2 <> get (msg st) 2 ->
        get (msg st') 0 = ERROR_WRONG_OPCODE_RESPONSE)
    /\ (Spec.crc_ok r = true -> get r 2 = get (msg st) 2 ->
        get (msg st') 0 = ALL_GOOD)
    /\ (get (msg st') 0 = ALL_GOOD ->
        Spec.crc_ok r = true /\ get r 2 = get (msg st) 2)
    /\ (forall j, 1 <= j < Spec.total r -> get (msg st') j = get r j).
Proof.
  intros Hm HL Hr Hc.
  destruct (sendCommand_reply st timeOut r Hm HL Hr Hc)
    as (st' & E & _ & _ & Hin & H0).
  exists st'. split; [exact E|].
  destruct (Spec.crc_ok r); [destruct (Z.eqb_spec (get r 2) (get (msg st) 2))|];
    rewrite H0; repeat split; try assumption; try congruence; try discriminate.
Qed.

Lemma sendCommand_validates_in_order_witness :
  let st := asking 0x03 (answering (Spec.response 0x03 0 [1; 2; 3])) in
  let r := Spec.response 0x03 0 [1; 2; 3] in
  length (msg st) = 255%nat
  /\ 0 <= get (msg st) 1 <= 250
  /\ peer (_rfidSerial st) (tx (_rfidSerial st) ++ [outgoing (msg st)]) = r
  /\ Spec.complete r = true
  /\ exists st',
      sendCommand st 2000 true = Some st'
      /\ (Spec.crc_ok r = false -> get (msg st') 0 = ERROR_CORRUPT_RESPONSE)
      /\ (Spec.crc_ok r = true -> get r 2 <> get (msg st) 2 ->
          get (msg st') 0 = ERROR_WRONG_OPCODE_RESPONSE)
      /\ (Spec.crc_ok r = true -> get r 2 = get (msg st) 2 ->
          get (msg st') 0 = ALL_GOOD)
      /\ (get (msg st') 0 = ALL_GOOD ->
          Spec.crc_ok r = true /\ get r 2 = get (msg st) 2)
      /\ (forall j, 1 <= j < Spec.total r -> get (msg st') j = get r j).
Proof.
  cbv zeta.
  split; [reflexivity|]. split; [vm_compute; split; discriminate|].
  split; [reflexivity|]. split; [vm_compute; reflexivity|].
  apply (sendCommand_validates_in_order
           (asking 0x03 (answering (Spec.response 0x03 0 [1; 2; 3]))) 2000
           (Spec.response 0x03 0 [1; 2; 3]));
    [reflexivity | vm_compute; split; discriminate | reflexivity
    | vm_compute; reflexivity].
Defined.

(** C2, as stated for every complete frame, fails where the frame is not
    shorter than [msg].  The well-formed frame [full_reply] of 255 bytes, all
    of them sent, with the right CRC and opcode, ends in the time-out code:
    [spot] is reduced modulo 255 and never reaches [messageLength].  For the
    frame [wrapped_reply], which announces 255 payload bytes, the 8-bit
    [messageLength] is [255 + 7 - 256 = 6]: the CRC of its bytes 1 to 3 is
    compared with its bytes 4 and 5, and the frame, whose own CRC is wrong,
    ends in [ALL_GOOD]. *)
Lemma long_frames_escape_validation :
  Z.of_nat (length full_reply) = Spec.total full_reply
  /\ bytes_ok full_reply = true
  /\ Spec.crc_ok full_reply = true
  /\ get full_reply 2 = 0x03
  /\ option_map (fun st' => get (msg st') 0)
       (sendCommand (asking 0x03 (answering full_reply)) 2000 true)
     = Some ERROR_COMMAND_RESPONSE_TIMEOUT
  /\ Z.of_nat (length wrapped_reply) = Spec.total wrapped_reply
  /\ bytes_ok wrapped_reply = true
  /\ Spec.crc_ok wrapped_reply = false
  /\ option_map (fun st' => get (msg st') 0)
       (sendCommand (asking 0x03 (answering wrapped_reply)) 2000 true)
     = Some ALL_GOOD.
Proof. repeat split; vm_compute; reflexivity. Qed.

(** ** The selective-match loop *)

Lemma epc_compare_ext (a b : list Z) (selepc : SelectEPC) (EPCstart : Z) (n : nat) :
  forall e,
    (forall j, EPCstart + e <= j < EPCstart + e + Z.of_nat n -> get a j = get b j) ->
    epc_compare a selepc EPCstart n e = epc_compare b selepc EPCstart n e.
Proof.
  induction n as [|n IH]; intros e H; [reflexivity|].
  cbn [epc_compare]. rewrite (H (EPCstart + e)) by lia.
  destruct (negb _); [reflexivity|]. apply IH. intros j Hj. apply H. lia.
Qed.

Lemma read_attempts_other (st st' : RFID) (opcode : Z) :
  exchanged opcode st st' -> opcode <> TMR_SR_OPCODE_READ_TAG_ID_MULTIPLE ->
  read_attempts (_rfidSerial st') = read_attempts (_rfidSerial st).
Proof.
  intros (_ & (f & Htx & Hf) & _) Hne. unfold read_attempts.
  rewrite Htx, filter_app, length_app.
  rewrite filter_cons_False by (rewrite Hf; exact Hne). cbn. lia.
Qed.

Lemma read_attempts_read (st st' : RFID) :
  exchanged TMR_SR_OPCODE_READ_TAG_ID_MULTIPLE st st' ->
  read_attempts (_rfidSerial st') = S (read_attempts (_rfidSerial st)).
Proof.
  intros (_ & (f & Htx & Hf) & _). unfold read_attempts.
  rewrite Htx, filter_app, length_app.
  rewrite filter_cons_True by exact Hf. cbn. lia.
Qed.

(** With [RetryCount] set and a module that never shows the tag, the loop
    gives up once [retryCount] has passed [RetryCount]: from [retryCount = k]
    that takes [RetryCount + 2 - k] reads. *)
Section GivingUp.

Variables (selepc : SelectEPC) (configBlob : list Z) (EPCBankStartPos : Z).

Hypothesis retry_set : 1 <= RetryCount selepc <= 254.

Lemma match_loop_gives_up (n : nat) :
  forall (fuel : nat) (st : RFID) (k : Z),
    length (msg st) = 255%nat ->
    never_matching (peer (_rfidSerial st)) selepc
      (u8 (EPCBankStartPos + EPCoffset selepc)) ->
    0 <= k -> k + Z.of_nat n = RetryCount selepc + 1 ->
    (n < fuel)%nat ->
    exists st',
      match_loop fuel st selepc configBlob EPCBankStartPos k
      = Some (MatchReturn st' ERROR_COMMAND_RESPONSE_TIMEOUT)
      /\ read_attempts (_rfidSerial st') = (read_attempts (_rfidSerial st) + n + 1)%nat.
Proof.
  pose proof retry_set as HR.
  induction n as [|n IH]; intros fuel st k Hm Hp Hk Hn Hfuel;
    (destruct fuel as [|fuel]; [lia|]); cbn [match_loop].
  all: destruct (Hp (tx (_rfidSerial st))
                    (outgoing (loaded (msg st) TMR_SR_OPCODE_READ_TAG_ID_MULTIPLE
                                 configBlob 20)))
         as (Hc & Hcrc & Hop & Hs1 & Hwin & Hcmp);
    [ rewrite outgoing_opcode by (rewrite loaded_size by lia; lia);
      apply loaded_opcode; lia | ].
  all: set (r := peer (_rfidSerial st) _) in *.
  all: destruct (sendMessage_reply st TMR_SR_OPCODE_READ_TAG_ID_MULTIPLE configBlob 20
                   COMMAND_TIME_OUT r Hm ltac:(lia) eq_refl Hc)
         as (st1 & E & Hex & _ & Hin & H0).
  all: rewrite E; rewrite Hcrc, Hop, Z.eqb_refl in H0; rewrite H0.
  all: change (negb (ALL_GOOD =? ALL_GOOD)) with false; cbv iota.
  all: rewrite (epc_compare_ext (msg st1) r selepc) by (intros j Hj; apply Hin; lia).
  all: destruct (Z.eqb_spec
                   (epc_compare r selepc (u8 (EPCBankStartPos + EPCoffset selepc))
                      (Z.to_nat (EPClen selepc)) 0) (EPClen selepc)) as [Heq|_];
    [exfalso; exact (Hcmp Heq)|].
  all: destruct (Z.eqb_spec (RetryCount selepc) 0); [lia|]; cbn [negb].
  - destruct (Z.ltb_spec (RetryCount selepc) k); [|lia].
    exists st1. split; [reflexivity|].
    rewrite (read_attempts_read st st1 Hex). lia.
  - destruct (Z.ltb_spec (RetryCount selepc) k); [lia|].
    unfold u8 at 1. rewrite Z.mod_small by lia.
    destruct Hex as (HL & Htx & Hpeer & Hrest).
    destruct (IH fuel st1 (k + 1)) as (st' & E' & Hcount); try lia.
    { rewrite Hpeer. exact Hp. }
    exists st'. split; [exact E'|].
    rewrite Hcount.
    rewrite (read_attempts_read st st1) by (repeat split; tauto). lia.
Qed.

End GivingUp.

Lemma exchanged_peer (opcode : Z) (st st' : RFID) :
  exchanged opcode st st' -> peer (_rfidSerial st') = peer (_rfidSerial st).
Proof. intros H. apply H. Qed.

Lemma exchanged_length (opcode : Z) (st st' : RFID) :
  exchanged opcode st st' -> length (msg st') = length (msg st).
Proof. intros H. apply H. Qed.

(** C3.  With [RetryCount = 3] and a module that answers every read with a
    valid frame that fails the EPC comparison, [SelectiveReadDataRegion]
    returns the retry-exceeded code after exactly five multi-tag reads: one
    more than the four (first attempt and three retries) the specification
    asks for.
    [retryCount++ > RetryCount] compares the count before the increment. *)
Theorem selective_read_gives_up_after_five (fuel : nat) (st : RFID)
  (selepc : SelectEPC) (bank address len : Z) (dataRead : list Z)
  (dataLengthRead timeOut : Z) :
  length (msg st) = 255%nat ->
  RetryCount selepc = 3 ->
  EPCoffset selepc + EPClen selepc <= 12 -> EPCoffset selepc <> 12 ->
  never_matching (peer (_rfidSerial st)) selepc
    (u8 ((if bank =? TMR_GEN2_BANK_EPC then 23 else 25) + EPCoffset selepc)) ->
  (5 <= fuel)%nat ->
  exists st',
    SelectiveReadDataRegion fuel st selepc bank address len dataRead
      dataLengthRead timeOut
    = Some (st', (ERROR_COMMAND_RESPONSE_TIMEOUT, dataRead, 0))
    /\ read_attempts (_rfidSerial st') = (read_attempts (_rfidSerial st) + 5)%nat.
Proof.
  intros Hm HR Hsum Hoff Hp Hfuel. unfold SelectiveReadDataRegion.
  destruct (Z.ltb_spec 12 (EPCoffset selepc + EPClen selepc)); [lia|].
  destruct (Z.eqb_spec (EPCoffset selepc) 12); [lia|]. cbn [orb].
  destruct (sendMessage_returns st TMR_SR_OPCODE_SET_READER_OPTIONAL_PARAMS
              [1; 8; 0] 3 COMMAND_TIME_OUT true) as (st1 & E1 & X1); [lia | lia |].
  rewrite E1.
  destruct (sendMessage_returns st1 TMR_SR_OPCODE_SET_READER_OPTIONAL_PARAMS
              [1; 12; 0] 3 COMMAND_TIME_OUT true) as (st2 & E2 & X2);
    [rewrite (exchanged_length _ _ _ X1); lia | lia |].
  unfold disableReadFilter, setReaderConfiguration. rewrite E2.
  destruct (sendMessage_returns st2 TMR_SR_OPCODE_CLEAR_TAG_ID_BUFFER
              [] 0 COMMAND_TIME_OUT true) as (st3 & E3 & X3);
    [rewrite (exchanged_length _ _ _ X2), (exchanged_length _ _ _ X1); lia | lia |].
  rewrite E3.
  assert (Hm3 : length (msg st3) = 255%nat).
  { rewrite (exchanged_length _ _ _ X3), (exchanged_length _ _ _ X2),
      (exchanged_length _ _ _ X1). exact Hm. }
  assert (Hp3 : peer (_rfidSerial st3) = peer (_rfidSerial st)).
  { rewrite (exchanged_peer _ _ _ X3), (exchanged_peer _ _ _ X2),
      (exchanged_peer _ _ _ X1). reflexivity. }
  assert (Hcount : read_attempts (_rfidSerial st3) = read_attempts (_rfidSerial st)).
  { rewrite (read_attempts_other _ _ _ X3) by discriminate.
    rewrite (read_attempts_other _ _ _ X2) by discriminate.
    apply (read_attempts_other _ _ _ X1). discriminate. }
  destruct (bank =? TMR_GEN2_BANK_EPC).
  all: match goal with |- context [match_loop _ _ _ ?blob ?pos 0] =>
         destruct (match_loop_gives_up selepc blob pos ltac:(lia) 4 fuel st3 0)
           as (st' & E & Hc); try lia;
           [ rewrite Hp3; exact Hp | ] end.
  all: rewrite E; exists st'; split; [reflexivity|]; lia.
Qed.

(** ** The classifier *)

Lemma parseResponse_eq (st : RFID) :
  crc_mismatch (msg st) (u8 (get (msg st) 1 + 7)) = false ->
  get (msg st) 2 = TMR_SR_OPCODE_READ_TAG_ID_MULTIPLE ->
  parseResponse st =
  match parse_multiple (msg st) 0 with
  | Some r => r
  | None => ERROR_UNKNOWN_OPCODE
  end.
Proof.
  intros Hcrc Hop. unfold parseResponse. cbv zeta.
  rewrite Hcrc, Hop, Z.eqb_refl. reflexivity.
Qed.

(** C4.  A frame of the continuous stream with payload length 14 (and a good
    CRC) is never classified as a keep-alive, whatever its status word: the
    branch tests [statusMsg], which is still 0 there, and control falls
    through to the unknown-opcode return. *)
Theorem length14_is_not_keepalive (st : RFID) :
  crc_mismatch (msg st) (u8 (get (msg st) 1 + 7)) = false ->
  get (msg st) 2 = TMR_SR_OPCODE_READ_TAG_ID_MULTIPLE ->
  get (msg st) 1 = 0x0E ->
  parseResponse st = ERROR_UNKNOWN_OPCODE
  /\ parseResponse st <> RESPONSE_IS_KEEPALIVE.
Proof.
  intros Hcrc Hop Hlen. rewrite (parseResponse_eq st Hcrc Hop).
  unfold parse_multiple. rewrite Hlen. cbn. split; [reflexivity | discriminate].
Qed.

Lemma length14_is_not_keepalive_witness :
  let st := holding keepalive14 in
  crc_mismatch (msg st) (u8 (get (msg st) 1 + 7)) = false
  /\ get (msg st) 2 = TMR_SR_OPCODE_READ_TAG_ID_MULTIPLE
  /\ get (msg st) 1 = 0x0E
  /\ Spec.status_word (msg st) = 0x0400
  /\ parseResponse st = ERROR_UNKNOWN_OPCODE
  /\ parseResponse st <> RESPONSE_IS_KEEPALIVE.
Proof.
  cbv zeta. do 4 (split; [vm_compute; reflexivity|]).
  apply (length14_is_not_keepalive (holding keepalive14));
    vm_compute; reflexivity.
Defined.

Lemma lor_shifted_byte (a b : Z) :
  0 <= a < 256 -> 0 <= b < 256 -> Z.lor (Z.shiftl a 8) b = a * 256 + b.
Proof.
  intros Ha Hb. rewrite Z.shiftl_mul_pow2 by lia. change (2 ^ 8) with 256.
  symmetry. apply Z.add_nocarry_lor.
  apply Z.bits_inj'. intros n Hn. rewrite Z.land_spec, Z.bits_0.
  destruct (Z.lt_ge_cases n 8).
  - change 256 with (2 ^ 8). rewrite Z.mul_pow2_bits_low by lia. reflexivity.
  - rewrite <- (Z.mod_small b (2 ^ 8)) by (change (2 ^ 8) with 256; lia).
    rewrite Z.mod_pow2_bits_high by lia. apply andb_false_r.
Qed.

Lemma status_of_keepalive_branch (m : list Z) :
  bytes_ok m = true ->
  u16 (Z.lor (u16 (Z.lor 0 (Z.shiftl (get m (3 + 0)) (8 * (1 - 0)))))
         (Z.shiftl (get m (3 + 1)) (8 * (1 - 1))))
  = Spec.status_word m.
Proof.
  intros Hb. pose proof (bytes_ok_get m 3 Hb). pose proof (bytes_ok_get m 4 Hb).
  change (3 + 0) with 3. change (3 + 1) with 4.
  change (8 * (1 - 0)) with 8. change (8 * (1 - 1)) with 0.
  rewrite Z.lor_0_l, Z.shiftl_0_r. unfold Spec.status_word, u16.
  rewrite (Z.mod_small (Z.shiftl (get m 3) 8)).
  - rewrite lor_shifted_byte by lia. apply Z.mod_small. lia.
  - rewrite Z.shiftl_mul_pow2 by lia. change (2 ^ 8) with 256. lia.
Qed.

(** C5, as amended.  A frame of the continuous stream (good CRC, opcode
    [0x22]) whose length, status and marker match none of the documented
    discriminants has payload length 0, 14 or 10.  It is never classified as
    a tag record and never as Unknown: with length 0 (status word neither
    [0x0400] nor [0x0504]) and with length 14 (status word other than
    [0x0400]) it is reported with the unknown-opcode error code, and with
    length 10 (no statistics marker) it is classified as a temperature
    sample. *)
Theorem undocumented_frame_is_not_tagfound (st : RFID) :
  bytes_ok (msg st) = true ->
  crc_mismatch (msg st) (u8 (get (msg st) 1 + 7)) = false ->
  get (msg st) 2 = TMR_SR_OPCODE_READ_TAG_ID_MULTIPLE ->
  Spec.documented (msg st) = false ->
  parseResponse st <> RESPONSE_IS_TAGFOUND
  /\ (get (msg st) 1 = 0 -> parseResponse st = ERROR_UNKNOWN_OPCODE)
  /\ parseResponse st <> RESPONSE_IS_UNKNOWN
  /\ (get (msg st) 1 = 0 \/ get (msg st) 1 = 14 \/ get (msg st) 1 = 10)
  /\ (get (msg st) 1 = 14 -> parseResponse st = ERROR_UNKNOWN_OPCODE)
  /\ (get (msg st) 1 = 10 -> parseResponse st = RESPONSE_IS_TEMPERATURE).
Proof.
  intros Hb Hcrc Hop Hdoc. rewrite (parseResponse_eq st Hcrc Hop).
  unfold parse_multiple. rewrite (status_of_keepalive_branch _ Hb).
  unfold Spec.documented in Hdoc. cbv zeta in Hdoc.
  destruct (Z.eqb_spec (get (msg st) 1) 0) as [E0|N0].
  - rewrite E0 in Hdoc. cbn [Z.eqb andb orb negb] in Hdoc.
    rewrite !orb_false_r in Hdoc. apply orb_false_iff in Hdoc as [H1 H2].
    rewrite H1, H2.
    repeat split; try discriminate; try (intros; lia); auto.
  - destruct (Z.eqb_spec (get (msg st) 1) 8) as [E8|N8].
    { exfalso. rewrite E8 in Hdoc. cbn [Z.eqb Pos.eqb andb orb negb] in Hdoc.
      discriminate. }
    destruct (Z.eqb_spec (get (msg st) 1) 14) as [E14|N14].
    { change (0 =? 1024) with false. cbv iota.
      repeat split; try discriminate; try (intros; lia); auto. }
    destruct (Z.eqb_spec (get (msg st) 1) 10) as [E10|N10].
    { repeat split; try discriminate; try (intros; lia); auto. }
    exfalso. cbn [andb orb negb] in Hdoc. discriminate.
Qed.

Lemma undocumented_frame_is_not_tagfound_witness :
  let st := holding length14_frame in
  bytes_ok (msg st) = true
  /\ crc_mismatch (msg st) (u8 (get (msg st) 1 + 7)) = false
  /\ get (msg st) 2 = TMR_SR_OPCODE_READ_TAG_ID_MULTIPLE
  /\ Spec.documented (msg st) = false
  /\ parseResponse st <> RESPONSE_IS_TAGFOUND
  /\ (get (msg st) 1 = 0 -> parseResponse st = ERROR_UNKNOWN_OPCODE)
  /\ parseResponse st <> RESPONSE_IS_UNKNOWN
  /\ (get (msg st) 1 = 0 \/ get (msg st) 1 = 14 \/ get (msg st) 1 = 10)
  /\ (get (msg st) 1 = 14 -> parseResponse st = ERROR_UNKNOWN_OPCODE)
  /\ (get (msg st) 1 = 10 -> parseResponse st = RESPONSE_IS_TEMPERATURE).
Proof.
  cbv zeta. do 4 (split; [vm_compute; reflexivity|]).
  apply (undocumented_frame_is_not_tagfound (holding length14_frame));
    vm_compute; reflexivity.
Defined.

(** The three kinds of frame outside the documented discriminants, each at
    an example. *)
Example undocumented_frames_classified :
  Spec.documented (msg (holding (Spec.response 0x22 0x0000 []))) = false
  /\ parseResponse (holding (Spec.response 0x22 0x0000 [])) = ERROR_UNKNOWN_OPCODE
  /\ Spec.documented (msg (holding length14_frame)) = false
  /\ parseResponse (holding length14_frame) = ERROR_UNKNOWN_OPCODE
  /\ Spec.documented (msg (holding unmarked_frame)) = false
  /\ parseResponse (holding unmarked_frame) = RESPONSE_IS_TEMPERATURE.
Proof. repeat split; vm_compute; reflexivity. Qed.

(** The Unknown discriminant is the answer for payload length 8 and for no
    other, and a tag record is the answer for every length but 0, 8, 10
    and 14. *)
Lemma parseResponse_unknown_iff (st : RFID) :
  bytes_ok (msg st) = true ->
  crc_mismatch (msg st) (u8 (get (msg st) 1 + 7)) = false ->
  get (msg st) 2 = TMR_SR_OPCODE_READ_TAG_ID_MULTIPLE ->
  parseResponse st = RESPONSE_IS_UNKNOWN <-> get (msg st) 1 = 8.
Proof.
  intros Hb Hcrc Hop. rewrite (parseResponse_eq st Hcrc Hop).
  unfold parse_multiple. rewrite (status_of_keepalive_branch _ Hb).
  destruct (Z.eqb_spec (get (msg st) 1) 0) as [E0|N0].
  { destruct (_ =? 0x0400); [|destruct (_ =? 0x0504)];
      (split; [discriminate | lia]). }
  destruct (Z.eqb_spec (get (msg st) 1) 8); [tauto|].
  destruct (Z.eqb_spec (get (msg st) 1) 14);
    [change (0 =? 1024) with false; cbv iota; split; [discriminate | lia]|].
  destruct (Z.eqb_spec (get (msg st) 1) 10); split; (discriminate || lia).
Qed.

Lemma parseResponse_tagfound_iff (st : RFID) :
  bytes_ok (msg st) = true ->
  crc_mismatch (msg st) (u8 (get (msg st) 1 + 7)) = false ->
  get (msg st) 2 = TMR_SR_OPCODE_READ_TAG_ID_MULTIPLE ->
  parseResponse st = RESPONSE_IS_TAGFOUND
  <-> get (msg st) 1 <> 0 /\ get (msg st) 1 <> 8
      /\ get (msg st) 1 <> 14 /\ get (msg st) 1 <> 10.
Proof.
  intros Hb Hcrc Hop. rewrite (parseResponse_eq st Hcrc Hop).
  unfold parse_multiple. rewrite (status_of_keepalive_branch _ Hb).
  destruct (Z.eqb_spec (get (msg st) 1) 0) as [E0|N0].
  { destruct (_ =? 0x0400); [|destruct (_ =? 0x0504)];
      (split; [discriminate | lia]). }
  destruct (Z.eqb_spec (get (msg st) 1) 8); [split; [discriminate | lia]|].
  destruct (Z.eqb_spec (get (msg st) 1) 14);
    [change (0 =? 1024) with false; cbv iota; split; [discriminate | lia]|].
  destruct (Z.eqb_spec (get (msg st) 1) 10); [split; [discriminate | lia]|].
  tauto.
Qed.

(** C5, as stated, fails: the frame [unmarked_frame] has a good CRC, opcode
    [0x22], payload length 10 and no statistics marker, so it matches none of
    the documented discriminants; it is classified as a temperature sample,
    which is neither Unknown nor an error code. *)
Lemma unmarked_frame_is_a_temperature_sample :
  let st := holding unmarked_frame in
  bytes_ok (msg st) = true
  /\ crc_mismatch (msg st) (u8 (get (msg st) 1 + 7)) = false
  /\ get (msg st) 2 = TMR_SR_OPCODE_READ_TAG_ID_MULTIPLE
  /\ get (msg st) 1 = 10 /\ get (msg st) 8 <> 0x02
  /\ Spec.documented (msg st) = false
  /\ parseResponse st = RESPONSE_IS_TEMPERATURE
  /\ parseResponse st <> RESPONSE_IS_UNKNOWN
  /\ parseResponse st <> ERROR_UNKNOWN_OPCODE.
Proof.
  cbv zeta. do 4 (split; [vm_compute; reflexivity|]).
  split; [vm_compute; discriminate|].
  do 2 (split; [vm_compute; reflexivity|]).
  split; vm_compute; discriminate.
Qed.

(** ** Filter validation and the temperature query *)

(** C6.  With [EPCoffset + EPClen > 12] or [EPCoffset = 12],
    [SelectiveReadDataRegion] returns the invalid-filter code at once, with
    [dataLengthRead = 0], and the driver state, stream and log included, is
    the one it started from: nothing was written or read. *)
Theorem invalid_filter_sends_nothing (fuel : nat) (st : RFID) (selepc : SelectEPC)
  (bank address len : Z) (dataRead : list Z) (dataLengthRead timeOut : Z) :
  12 < EPCoffset selepc + EPClen selepc \/ EPCoffset selepc = 12 ->
  SelectiveReadDataRegion fuel st selepc bank address len dataRead
    dataLengthRead timeOut
  = Some (st, (ERROR_INVALID_EPC_REQ, dataRead, 0)).
Proof.
  intros H. unfold SelectiveReadDataRegion.
  destruct (Z.ltb_spec 12 (EPCoffset selepc + EPClen selepc)); [reflexivity|].
  destruct (Z.eqb_spec (EPCoffset selepc) 12); [reflexivity|]. lia.
Qed.

(** C10.  In continuous mode [getTemp] leaves the driver state, stream
    included, as it found it, and returns the cached temperature when that
    is positive and -1 when it is zero or negative. *)
Theorem getTemp_continuous_is_cached (st : RFID) :
  _continuousModeTemp st = true ->
  getTemp st = Some (st, if 0 <? _contTemp st then _contTemp st else -1).
Proof.
  intros H. unfold getTemp. rewrite H. destruct (0 <? _contTemp st); reflexivity.
Qed.

(** ** The bank blocks of [ReadingAllBanks] *)

Section BankCopy.

Variables (m : list Z) (base : Z).

Lemma copy_bank_spec (n : nat) :
  forall (dst : list Z) (j0 : Z),
    0 <= j0 ->
    length (copy_bank dst m base n j0) = length dst
    /\ (forall j, j0 <= j < j0 + Z.of_nat n -> j < Z.of_nat (length dst) ->
        get (copy_bank dst m base n j0) j = get m (base + j))
    /\ (forall j, j < j0 \/ j0 + Z.of_nat n <= j ->
        get (copy_bank dst m base n j0) j = get dst j).
Proof.
  induction n as [|n IH]; intros dst j0 Hj0; cbn [copy_bank].
  - repeat split; intros; try reflexivity. lia.
  - destruct (IH (put dst j0 (get m (base + j0))) (j0 + 1)) as (HL & Hin & Hout);
      [lia|].
    rewrite length_put in HL, Hin. split; [exact HL|]. split.
    + intros j Hj Hlen. destruct (Z.eq_dec j j0) as [->|].
      * rewrite Hout by lia. apply get_put_eq. lia.
      * apply Hin; lia.
    + intros j Hj. rewrite Hout by lia. apply get_put_ne. lia.
Qed.

Lemma copy_epc_bank_fst (n : nat) :
  forall (dst e : list Z) (j : Z),
    fst (copy_epc_bank dst e m base n j) = copy_bank dst m base n j.
Proof.
  induction n as [|n IH]; intros dst e j; [reflexivity|].
  cbn [copy_epc_bank copy_bank]. apply IH.
Qed.

End BankCopy.

Lemma clamp_min (bankLength max : Z) :
  0 <= bankLength <= 255 -> 0 <= max ->
  (if max <? bankLength then u8 max else bankLength) = Z.min bankLength max.
Proof.
  intros Hb Hm. destruct (Z.ltb_spec max bankLength).
  - rewrite u8_byte by lia. lia.
  - lia.
Qed.

Lemma type_nibble (b : Z) : 0 <= b < 256 -> Z.land (Z.shiftr b 4) 0xf = b / 16.
Proof.
  intros Hb. rewrite Z.shiftr_div_pow2 by lia. change (2 ^ 4) with 16.
  change 15 with (Z.ones 4). rewrite Z.land_ones by lia. change (2 ^ 4) with 16.
  apply Z.mod_small. split; [apply Z.div_pos; lia | apply Z.div_lt_upper_bound; lia].
Qed.

Lemma filled_copy (m : list Z) (data words : Z) (l : TMR_uint8List) :
  0 <= words * 2 <= 255 -> 0 <= l_max l ->
  filled m data words l
    (mkList (copy_bank (l_list l) m data (Z.to_nat (Z.min (words * 2) (l_max l))) 0)
       (l_max l) (Z.min (words * 2) (l_max l))).
Proof.
  intros Hw Hmax.
  destruct (copy_bank_spec m data (Z.to_nat (Z.min (words * 2) (l_max l)))
              (l_list l) 0) as (HL & Hin & Hout); [lia|].
  unfold filled. cbn [l_len l_max l_list].
  split; [reflexivity|]. split; [lia|]. split; [reflexivity|].
  split; [exact HL|]. split.
  - intros j Hj Hlen. apply Hin; lia.
  - intros j Hj. apply Hout. lia.
Qed.

(** One pass of the loop.  For a bank block lying inside the message
    buffer: when the type
    nibble is one of Reserved, EPC, TID, User, the block is copied into that
    bank's list up to [min (words * 2) max] bytes, that count is recorded in
    [len], and no entry of the list at or beyond the count (so none at or
    beyond [max]) is touched; with any other type nibble the parser fails
    with [RESPONSE_FAIL]. *)
Lemma bank_block_clamps_to_capacity (m : list Z) (read : TMR_TagReadData) (i : Z) :
  bytes_ok m = true ->
  0 <= i ->
  24 + i + 2 + get m (24 + i + 1) * 2 <= MAX_MSG_SIZE ->
  (forall b, 0 <= l_max (bank_list b read)) ->
  (get m (24 + i) / 16 <= 3 ->
   exists read',
     bank_block m 24 read i
     = BankNext read' (i + 2 + l_len (bank_list (get m (24 + i) / 16) read'))
     /\ filled m (24 + i + 2) (get m (24 + i + 1))
          (bank_list (get m (24 + i) / 16) read)
          (bank_list (get m (24 + i) / 16) read'))
  /\ (3 < get m (24 + i) / 16 -> bank_block m 24 read i = BankFail RESPONSE_FAIL).
Proof.
  intros Hb Hi Hfit Hmax. unfold MAX_MSG_SIZE in Hfit.
  pose proof (bytes_ok_get m (24 + i) Hb) as Ht.
  pose proof (bytes_ok_get m (24 + i + 1) Hb) as Hw.
  assert (Hn : 0 <= get m (24 + i) / 16 < 16).
  { split; [apply Z.div_pos; lia | apply Z.div_lt_upper_bound; lia]. }
  unfold bank_block. cbv zeta.
  rewrite type_nibble by lia.
  rewrite (u8_byte (i + 1)) by lia. rewrite (u8_byte (i + 1 + 1)) by lia.
  replace (24 + (i + 1)) with (24 + i + 1) by lia.
  replace (24 + (i + 1 + 1)) with (24 + i + 2) by lia.
  rewrite (u8_byte (get m (24 + i + 1) * 2)) by lia.
  unfold fill_bank.
  pose proof (Hmax TMR_GEN2_BANK_USER) as HmU.
  pose proof (Hmax TMR_GEN2_BANK_TID) as HmT.
  pose proof (Hmax TMR_GEN2_BANK_RESERVED) as HmR.
  pose proof (Hmax TMR_GEN2_BANK_EPC) as HmE.
  unfold bank_list in HmU, HmT, HmR, HmE |- *.
  cbn [Z.eqb TMR_GEN2_BANK_USER TMR_GEN2_BANK_TID TMR_GEN2_BANK_RESERVED
         TMR_GEN2_BANK_EPC Pos.eqb] in HmU, HmT, HmR, HmE.
  rewrite !(clamp_min (get m (24 + i + 1) * 2) (l_max (userMemData read))) by lia.
  rewrite !(clamp_min (get m (24 + i + 1) * 2) (l_max (tidMemData read))) by lia.
  rewrite !(clamp_min (get m (24 + i + 1) * 2) (l_max (reservedMemData read))) by lia.
  rewrite !(clamp_min (get m (24 + i + 1) * 2) (l_max (epcMemData read))) by lia.
  destruct (Z.eqb_spec (get m (24 + i) / 16) TMR_GEN2_BANK_USER) as [EU|NU].
  { split; [intros _|unfold TMR_GEN2_BANK_USER in EU; lia].
    match goal with |- context [BankNext ?r _] => exists r end.
    cbn [with_user userMemData l_len]. split.
    - rewrite (u8_byte (i + 1 + 1 + _)) by lia. f_equal. lia.
    - apply filled_copy; lia. }
  destruct (Z.eqb_spec (get m (24 + i) / 16) TMR_GEN2_BANK_TID) as [ET|NT].
  { split; [intros _|unfold TMR_GEN2_BANK_TID in ET; lia].
    match goal with |- context [BankNext ?r _] => exists r end.
    cbn [with_tid tidMemData l_len]. split.
    - rewrite (u8_byte (i + 1 + 1 + _)) by lia. f_equal. lia.
    - apply filled_copy; lia. }
  destruct (Z.eqb_spec (get m (24 + i) / 16) TMR_GEN2_BANK_RESERVED) as [ER|NR].
  { split; [intros _|unfold TMR_GEN2_BANK_RESERVED in ER; lia].
    match goal with |- context [BankNext ?r _] => exists r end.
    cbn [with_reserved reservedMemData l_len]. split.
    - rewrite (u8_byte (i + 1 + 1 + _)) by lia. f_equal. lia.
    - apply filled_copy; lia. }
  destruct (Z.eqb_spec (get m (24 + i) / 16) TMR_GEN2_BANK_EPC) as [EE|NE].
  { split; [intros _|unfold TMR_GEN2_BANK_EPC in EE; lia].
    destruct (copy_epc_bank _ _ _ _ _ _) as [dst e] eqn:Ecopy.
    apply (f_equal fst) in Ecopy. rewrite copy_epc_bank_fst in Ecopy.
    cbn [fst] in Ecopy. subst dst.
    match goal with |- context [BankNext ?r _] => exists r end.
    cbn [with_epc epcMemData l_len]. split.
    - rewrite (u8_byte (i + 1 + 1 + _)) by lia. f_equal. lia.
    - apply filled_copy; lia. }
  split; [|reflexivity].
  unfold TMR_GEN2_BANK_USER, TMR_GEN2_BANK_TID, TMR_GEN2_BANK_RESERVED,
    TMR_GEN2_BANK_EPC in *. lia.
Qed.

Lemma bank_block_clamps_to_capacity_witness :
  let m := user_block_msg in
  let read := blank_read 5 in
  bytes_ok m = true
  /\ 0 <= 0
  /\ 24 + 0 + 2 + get m (24 + 0 + 1) * 2 <= MAX_MSG_SIZE
  /\ (forall b, 0 <= l_max (bank_list b read))
  /\ (get m (24 + 0) / 16 <= 3 ->
      exists read',
        bank_block m 24 read 0
        = BankNext read' (0 + 2 + l_len (bank_list (get m (24 + 0) / 16) read'))
        /\ filled m (24 + 0 + 2) (get m (24 + 0 + 1))
             (bank_list (get m (24 + 0) / 16) read)
             (bank_list (get m (24 + 0) / 16) read'))
  /\ (3 < get m (24 + 0) / 16 -> bank_block m 24 read 0 = BankFail RESPONSE_FAIL).
Proof.
  cbv zeta.
  assert (H1 : bytes_ok user_block_msg = true) by (vm_compute; reflexivity).
  assert (H2 : 0 <= 0) by lia.
  assert (H3 : 24 + 0 + 2 + get user_block_msg (24 + 0 + 1) * 2 <= MAX_MSG_SIZE)
    by (vm_compute; discriminate).
  assert (H4 : forall b, 0 <= l_max (bank_list b (blank_read 5))).
  { intros b. unfold bank_list.
    destruct (b =? _); [|destruct (b =? _); [|destruct (b =? _)]];
      vm_compute; discriminate. }
  split; [exact H1|]. split; [exact H2|]. split; [exact H3|]. split; [exact H4|].
  exact (bank_block_clamps_to_capacity user_block_msg (blank_read 5) 0 H1 H2 H3 H4).
Defined.

Example user_block_truncated :
  match bank_block user_block_msg 24 (blank_read 5) 0 with
  | BankNext read' i =>
      l_list (userMemData read') = [0xA1; 0xA2; 0xA3; 0xA4; 0xA5]
      /\ l_len (userMemData read') = 5 /\ i = 7
  | BankFail _ => False
  end.
Proof. vm_compute. repeat split. Qed.

(** Whatever the buffer holds, and whether or not the declared length wraps
    the 8-bit [bankLength], no block and no sequence of blocks is written at
    or past the capacity of a list. *)
Lemma clamp_le (bankLength max : Z) :
  0 <= max ->
  (if max <? bankLength then u8 max else bankLength) <= max.
Proof.
  intros Hm. destruct (Z.ltb_spec max bankLength); [|lia].
  unfold u8. apply Z.mod_le; lia.
Qed.

Lemma within_capacity_refl (read : TMR_TagReadData) : within_capacity read read.
Proof. intros b. repeat split. Qed.

Lemma within_capacity_trans (r1 r2 r3 : TMR_TagReadData) :
  within_capacity r1 r2 -> within_capacity r2 r3 -> within_capacity r1 r3.
Proof.
  intros H12 H23 b. destruct (H12 b) as (M1 & L1 & G1).
  destruct (H23 b) as (M2 & L2 & G2).
  split; [congruence|]. split; [congruence|].
  intros j Hj. rewrite G2 by (rewrite M1; exact Hj). apply G1, Hj.
Qed.

Lemma copied_within (m : list Z) (base bankLength : Z) (l : TMR_uint8List) (b : Z) :
  0 <= l_max l -> 0 <= bankLength ->
  let n := if l_max l <? bankLength then u8 (l_max l) else bankLength in
  length (copy_bank (l_list l) m base (Z.to_nat n) 0) = length (l_list l)
  /\ (forall j, l_max l <= j ->
      get (copy_bank (l_list l) m base (Z.to_nat n) 0) j = get (l_list l) j).
Proof.
  intros Hm Hb n. pose proof (clamp_le bankLength (l_max l) Hm) as Hn.
  fold n in Hn.
  destruct (copy_bank_spec m base (Z.to_nat n) (l_list l) 0) as (HL & _ & Hout);
    [lia|].
  split; [exact HL|]. intros j Hj. apply Hout. lia.
Qed.

Lemma bank_block_within_capacity (m : list Z) (offset : Z)
  (read read' : TMR_TagReadData) (i i' : Z) :
  (forall b, 0 <= l_max (bank_list b read)) ->
  bank_block m offset read i = BankNext read' i' ->
  within_capacity read read'.
Proof.
  intros Hmax. unfold bank_block, fill_bank. cbv zeta.
  set (bl := u8 (get m (offset + u8 (i + 1)) * 2)).
  assert (Hbl : 0 <= bl) by (apply Z.mod_pos_bound; lia).
  pose proof (Hmax TMR_GEN2_BANK_USER) as HmU.
  pose proof (Hmax TMR_GEN2_BANK_TID) as HmT.
  pose proof (Hmax TMR_GEN2_BANK_RESERVED) as HmR.
  pose proof (Hmax TMR_GEN2_BANK_EPC) as HmE.
  unfold bank_list in HmU, HmT, HmR, HmE.
  cbn [Z.eqb TMR_GEN2_BANK_USER TMR_GEN2_BANK_TID TMR_GEN2_BANK_RESERVED
         TMR_GEN2_BANK_EPC Pos.eqb] in HmU, HmT, HmR, HmE.
  destruct (_ =? TMR_GEN2_BANK_USER).
  { intros [= <- _] b. unfold bank_list.
    destruct (b =? _); [|destruct (b =? _); [|destruct (b =? _)]];
      cbn [with_user userMemData tidMemData reservedMemData epcMemData
             l_list l_max]; try (repeat split; reflexivity).
    split; [reflexivity|]. apply copied_within; assumption. }
  destruct (_ =? TMR_GEN2_BANK_TID).
  { intros [= <- _] b. unfold bank_list.
    destruct (b =? _); [|destruct (b =? _); [|destruct (b =? _)]];
      cbn [with_tid userMemData tidMemData reservedMemData epcMemData
             l_list l_max]; try (repeat split; reflexivity).
    split; [reflexivity|]. apply copied_within; assumption. }
  destruct (_ =? TMR_GEN2_BANK_RESERVED).
  { intros [= <- _] b. unfold bank_list.
    destruct (b =? _); [|destruct (b =? _); [|destruct (b =? _)]];
      cbn [with_reserved userMemData tidMemData reservedMemData epcMemData
             l_list l_max]; try (repeat split; reflexivity).
    split; [reflexivity|]. apply copied_within; assumption. }
  destruct (_ =? TMR_GEN2_BANK_EPC); [|discriminate].
  destruct (copy_epc_bank _ _ _ _ _ _) as [dst e] eqn:Ecopy.
  apply (f_equal fst) in Ecopy. rewrite copy_epc_bank_fst in Ecopy.
  cbn [fst] in Ecopy. subst dst.
  intros [= <- _] b. unfold bank_list.
  destruct (b =? _); [|destruct (b =? _); [|destruct (b =? _)]];
    cbn [with_epc userMemData tidMemData reservedMemData epcMemData
           l_list l_max]; try (repeat split; reflexivity).
  split; [reflexivity|]. apply copied_within; assumption.
Qed.

Lemma banks_loop_within_capacity (m : list Z) (datalength offset : Z) (fuel : nat) :
  forall (read read' : TMR_TagReadData) (i code : Z),
    (forall b, 0 <= l_max (bank_list b read)) ->
    banks_loop fuel m datalength offset read i = Some (read', code) ->
    within_capacity read read'.
Proof.
  induction fuel as [|fuel IH]; intros read read' i code Hmax; [discriminate|].
  cbn [banks_loop].
  destruct (i <? datalength);
    [|intros [= <- _]; apply within_capacity_refl].
  destruct (bank_block m offset read i) as [c|read1 i1] eqn:E.
  - intros [= <- _]. apply within_capacity_refl.
  - intros H.
    pose proof (bank_block_within_capacity _ _ _ _ _ _ Hmax E) as H1.
    apply (within_capacity_trans _ read1); [exact H1|].
    apply (IH _ _ _ _ ltac:(intros b; destruct (H1 b) as (-> & _); apply Hmax) H).
Qed.

(** ** The loop over the blocks *)

Lemma no_bank_nibble (m : list Z) (offset : Z) (read : TMR_TagReadData) (i : Z) :
  0 <= get m (offset + i) < 256 -> 3 < get m (offset + i) / 16 ->
  bank_block m offset read i = BankFail RESPONSE_FAIL.
Proof.
  intros Hb Hn. unfold bank_block. cbv zeta. rewrite type_nibble by lia.
  unfold TMR_GEN2_BANK_USER, TMR_GEN2_BANK_TID, TMR_GEN2_BANK_RESERVED,
    TMR_GEN2_BANK_EPC.
  destruct (Z.eqb_spec (get m (offset + i) / 16) 3); [lia|].
  destruct (Z.eqb_spec (get m (offset + i) / 16) 2); [lia|].
  destruct (Z.eqb_spec (get m (offset + i) / 16) 0); [lia|].
  destruct (Z.eqb_spec (get m (offset + i) / 16) 1); [lia|].
  reflexivity.
Qed.

(** C8.  The parser of [ReadingAllBanks] clamps a USER block that is longer
    than the caller's list and records the clamped count, but it then
    advances [i] by the clamped count and not by the length of the block: the
    next block header is read at [msg[24 + 2 + max]], inside the data of the
    truncated block.  When the byte there has no bank nibble the parser
    returns [RESPONSE_FAIL], and whatever block follows the truncated one is
    neither copied nor reported. *)
Theorem truncated_block_hides_the_next (fuel : nat) (m : list Z)
  (read : TMR_TagReadData) :
  bytes_ok m = true ->
  get m 24 / 16 = TMR_GEN2_BANK_USER ->
  get m 25 <= 127 ->
  0 <= l_max (userMemData read) < get m 25 * 2 ->
  2 + l_max (userMemData read) < (get m 22 * 256 + get m 23) / 8 ->
  3 < get m (24 + (2 + l_max (userMemData read))) / 16 ->
  (2 <= fuel)%nat ->
  exists read',
    parse_all_banks fuel m read = Some (read', RESPONSE_FAIL)
    /\ l_len (userMemData read') = l_max (userMemData read)
    /\ (forall j, 0 <= j < l_max (userMemData read) ->
        j < Z.of_nat (length (l_list (userMemData read))) ->
        get (l_list (userMemData read')) j = get m (26 + j))
    /\ tidMemData read' = tidMemData read
    /\ reservedMemData read' = reservedMemData read
    /\ epcMemData read' = epcMemData read
    /\ epc read' = epc read.
Proof.
  intros Hb Hnib Hw Hmax Hdl Hnext Hfuel.
  pose proof (bytes_ok_get m 22 Hb) as H22. pose proof (bytes_ok_get m 23 Hb) as H23.
  pose proof (bytes_ok_get m 24 Hb) as H24. pose proof (bytes_ok_get m 25 Hb) as H25.
  set (max := l_max (userMemData read)) in *.
  unfold parse_all_banks. cbv zeta.
  rewrite lor_shifted_byte by assumption.
  assert (Hd : u16 ((get m 22 * 256 + get m 23) / 8) = (get m 22 * 256 + get m 23) / 8).
  { unfold u16. apply Z.mod_small. Z.div_mod_to_equations. lia. }
  rewrite Hd. set (datalength := (get m 22 * 256 + get m 23) / 8) in *.
  set (read0 := with_meta read _ _ _).
  assert (Hu : userMemData read0 = userMemData read) by reflexivity.
  destruct fuel as [|[|fuel]]; [lia | lia |].
  cbn [banks_loop].
  destruct (Z.ltb_spec 0 datalength); [|lia].
  (* the first block *)
  assert (E1 : bank_block m 24 read0 0
               = BankNext
                   (with_user read0
                      (mkList (copy_bank (l_list (userMemData read)) m 26
                                 (Z.to_nat max) 0) max max))
                   (2 + max)).
  { unfold bank_block. cbv zeta.
    change (24 + 0) with 24. rewrite type_nibble by lia. rewrite Hnib.
    change (TMR_GEN2_BANK_USER =? TMR_GEN2_BANK_USER) with true. cbv iota.
    change (u8 (0 + 1)) with 1. change (u8 (1 + 1)) with 2.
    change (24 + 1) with 25. change (24 + 2) with 26.
    rewrite (u8_byte (get m 25 * 2)) by lia.
    unfold fill_bank. rewrite Hu. fold max.
    destruct (Z.ltb_spec max (get m 25 * 2)); [|lia].
    rewrite !(u8_byte max) by lia. rewrite (u8_byte (2 + max)) by lia.
    reflexivity. }
  rewrite E1.
  destruct (Z.ltb_spec (2 + max) datalength); [|lia].
  (* the next header is taken from the data of the first block *)
  rewrite no_bank_nibble by (try apply bytes_ok_get; assumption).
  eexists. split; [reflexivity|].
  cbn [with_user userMemData tidMemData reservedMemData epcMemData epc l_len l_list].
  destruct (copy_bank_spec m 26 (Z.to_nat max) (l_list (userMemData read)) 0)
    as (_ & G & _); [lia|].
  repeat split; try reflexivity.
  intros j Hj Hlen. apply G; lia.
Qed.

Lemma truncated_block_hides_the_next_witness :
  let m := msg (holding two_bank_reply) in
  exists read',
    parse_all_banks 10 m (blank_read 4) = Some (read', RESPONSE_FAIL)
    /\ l_len (userMemData read') = l_max (userMemData (blank_read 4))
    /\ (forall j, 0 <= j < l_max (userMemData (blank_read 4)) ->
        j < Z.of_nat (length (l_list (userMemData (blank_read 4)))) ->
        get (l_list (userMemData read')) j = get m (26 + j))
    /\ tidMemData read' = tidMemData (blank_read 4)
    /\ reservedMemData read' = reservedMemData (blank_read 4)
    /\ epcMemData read' = epcMemData (blank_read 4)
    /\ epc read' = epc (blank_read 4).
Proof.
  apply (truncated_block_hides_the_next 10 (msg (holding two_bank_reply)) (blank_read 4));
    [ vm_compute; reflexivity | vm_compute; reflexivity | vm_compute; discriminate
    | vm_compute; split; first [reflexivity | discriminate]
    | vm_compute; reflexivity | vm_compute; reflexivity | lia ].
Defined.

(** The same answer parsed with room for both blocks and with room for four
    bytes: result, [len] of the USER list, [len] and contents of the TID
    list. *)
Example truncation_loses_the_tid_block :
  option_map
    (fun r => (snd r, l_len (userMemData (fst r)), l_len (tidMemData (fst r)),
               l_list (tidMemData (fst r))))
    (parse_all_banks 10 (msg (holding two_bank_reply)) (blank_read 8))
  = Some (ALL_GOOD, 8, 4, [0xE2; 0x80; 0x11; 0x05; 0; 0; 0; 0])
  /\ option_map
       (fun r => (snd r, l_len (userMemData (fst r)), l_len (tidMemData (fst r)),
                  l_list (tidMemData (fst r))))
       (parse_all_banks 10 (msg (holding two_bank_reply)) (blank_read 4))
     = Some (RESPONSE_FAIL, 4, 0, [0; 0; 0; 0]).
Proof. split; vm_compute; reflexivity. Qed.

(** An EPC block clamped to fewer than four bytes: [epclen] is
    [bankLength - 4] in 8 bits. *)
Example clamped_epc_block_wraps_epclen :
  match bank_block epc_bank_msg 24 (blank_read 2) 0 with
  | BankNext read' i => l_len (epcMemData read') = 2 /\ epclen read' = 254 /\ i = 4
  | BankFail _ => False
  end.
Proof. vm_compute. repeat split. Qed.

(** ** The RSSI *)

Lemma getTagRSSI_twos_complement (st : RFID) :
  0 <= get (msg st) 12 < 256 ->
  getTagRSSI st
  = if get (msg st) 12 <? 128 then get (msg st) 12 else get (msg st) 12 - 256.
Proof.
  intros Hb. unfold getTagRSSI, s8. cbv zeta.
  replace ((get (msg st) 12 - 256) mod 256) with (get (msg st) 12).
  - reflexivity.
  - symmetry. rewrite <- (Z.mod_small (get (msg st) 12) 256) at 2 by lia.
    replace (get (msg st) 12 - 256) with (get (msg st) 12 + (-1) * 256) by lia.
    apply Z.mod_add. lia.
Qed.

Lemma bank_block_rssi (m : list Z) (offset : Z) (read read' : TMR_TagReadData) (i i' : Z) :
  bank_block m offset read i = BankNext read' i' -> rssi read' = rssi read.
Proof.
  unfold bank_block, fill_bank. cbv zeta.
  destruct (_ =? TMR_GEN2_BANK_USER); [intros [= <- _]; reflexivity|].
  destruct (_ =? TMR_GEN2_BANK_TID); [intros [= <- _]; reflexivity|].
  destruct (_ =? TMR_GEN2_BANK_RESERVED); [intros [= <- _]; reflexivity|].
  destruct (_ =? TMR_GEN2_BANK_EPC); [|discriminate].
  destruct (copy_epc_bank _ _ _ _ _ _). intros [= <- _]. reflexivity.
Qed.

Lemma banks_loop_rssi (m : list Z) (datalength offset : Z) (fuel : nat) :
  forall (read read' : TMR_TagReadData) (i code : Z),
    banks_loop fuel m datalength offset read i = Some (read', code) ->
    rssi read' = rssi read.
Proof.
  induction fuel as [|fuel IH]; intros read read' i code; [discriminate|].
  cbn [banks_loop]. destruct (i <? datalength); [|intros [= <- _]; reflexivity].
  destruct (bank_block m offset read i) as [c|read1 i1] eqn:E.
  - intros [= <- _]. reflexivity.
  - intros H. rewrite (IH _ _ _ _ H). apply (bank_block_rssi _ _ _ _ _ _ E).
Qed.

(** The all-banks path stores [msg[10] - 256] in a 32-bit field: the byte
    minus 256 whatever the byte. *)
Lemma parse_all_banks_rssi (fuel : nat) (m : list Z) (read read' : TMR_TagReadData)
  (code : Z) :
  parse_all_banks fuel m read = Some (read', code) -> rssi read' = get m 10 - 256.
Proof.
  unfold parse_all_banks. cbv zeta. intros H.
  rewrite (banks_loop_rssi _ _ _ _ _ _ _ _ H). reflexivity.
Qed.

(** C9.  On a tag record whose RSSI byte is [0x10], [ReadingAllBanks]
    stores -240 in [rssi] where [getTagRSSI] returns 16, the two's
    complement reading the specification describes; on the byte [0xE9] both
    give -23. *)
Theorem read_all_banks_rssi_below_128 :
  option_map (fun r => (snd r, rssi (snd (fst r))))
    (ReadingAllBanks 2 (RFID_begin (tag_module 0x10)) (blank_read 64))
  = Some (ALL_GOOD, -240)
  /\ getTagRSSI (holding (tag_record 0x10)) = 16
  /\ option_map (fun r => (snd r, rssi (snd (fst r))))
       (ReadingAllBanks 2 (RFID_begin (tag_module 0xE9)) (blank_read 64))
     = Some (ALL_GOOD, -23)
  /\ getTagRSSI (holding (tag_record 0xE9)) = -23.
Proof. repeat split; vm_compute; reflexivity. Qed.

(** ** The window of the selective read *)

(** C7.  With [address = 2^31] and [length = 1] the window of
    [2^32 + 2] bytes exceeds the 12 bytes of the EPC bank, yet the call
    succeeds and copies two bytes: [address * 2] is computed in 32 bits and
    wraps to 0.  With [address = 2^31 - 1] and [length = 2] it copies from
    two bytes before the bank.  And on a USER bank reported as 32 words, a
    window of 20 words (40 of the 64 bytes) is refused: the byte count of
    the window is held against the word count of the bank. *)
Theorem selective_read_window_wraps :
  12 < 2147483648 * 2 + 1 * 2
  /\ option_map snd
       (SelectiveReadDataRegion 1 (RFID_begin (answering epc_only_reply))
          e200_filter TMR_GEN2_BANK_EPC 2147483648 1 [0; 0] 2 2000)
     = Some (RESPONSE_SUCCESS, [0xE2; 0x00], 2)
  /\ 12 < 2147483647 * 2 + 2 * 2
  /\ option_map snd
       (SelectiveReadDataRegion 1 (RFID_begin (answering epc_only_reply))
          e200_filter TMR_GEN2_BANK_EPC 2147483647 2 [0; 0; 0; 0] 4 2000)
     = Some (RESPONSE_SUCCESS, [0x34; 0x00; 0xE2; 0x00], 4)
  /\ get user_bank_reply 38 = 32
  /\ 0 * 2 + 20 * 2 <= 32 * 2
  /\ option_map snd
       (SelectiveReadDataRegion 1 (RFID_begin (answering user_bank_reply))
          e200_filter TMR_GEN2_BANK_USER 0 20 (replicate 40 0) 40 2000)
     = Some (ERROR_INVALID_REQ, replicate 40 0, 0)
  /\ option_map snd
       (SelectiveReadDataRegion 1 (RFID_begin (answering user_bank_reply))
          e200_filter TMR_GEN2_BANK_USER 0 2 [0; 0; 0; 0] 4 2000)
     = Some (RESPONSE_SUCCESS, [0xFF; 0xF1; 0x11; 0x22], 4).
Proof. repeat split; vm_compute; first [reflexivity | discriminate]. Qed.


(** Where nothing wraps, the test holds the byte count of the window against
    [Banklength], 12 for the EPC bank and [msg[38]] for the others: a window
    above it is refused and nothing is copied ... *)
Lemma extract_region_refuses (m : list Z) (bank address len : Z)
  (dataRead : list Z) (dataLengthRead : Z) :
  0 <= address -> 0 <= len -> address * 2 + len * 2 < 4294967296 ->
  (if bank =? TMR_GEN2_BANK_EPC then 12 else get m 38) < address * 2 + len * 2 ->
  extract_region m bank address len dataRead dataLengthRead
  = (ERROR_INVALID_REQ, dataRead, 0).
Proof.
  intros Ha Hl Hno Hwin. unfold extract_region, u32.
  rewrite (Z.mod_small (address * 2)) by lia.
  rewrite (Z.mod_small (address * 2 + len * 2)) by lia.
  destruct (bank =? TMR_GEN2_BANK_EPC); cbv beta iota zeta;
    match goal with |- context [?a <? ?b] => destruct (Z.ltb_spec a b) end;
    (reflexivity || lia).
Qed.


(** ** Witnesses for the loop, the filter and the temperature *)

Lemma other_filter_never_matches :
  never_matching (peer (_rfidSerial (RFID_begin (answering epc_only_reply))))
    other_filter
    (u8 ((if TMR_GEN2_BANK_EPC =? TMR_GEN2_BANK_EPC then 23 else 25)
         + EPCoffset other_filter)).
Proof.
  intros h f _.
  change (peer (_rfidSerial (RFID_begin (answering epc_only_reply))) (h ++ [f]))
    with epc_only_reply.
  repeat split; vm_compute; congruence.
Qed.

Lemma selective_read_gives_up_after_five_witness :
  let st := RFID_begin (answering epc_only_reply) in
  length (msg st) = 255%nat
  /\ RetryCount other_filter = 3
  /\ EPCoffset other_filter + EPClen other_filter <= 12
  /\ EPCoffset other_filter <> 12
  /\ (5 <= 5)%nat
  /\ exists st',
      SelectiveReadDataRegion 5 st other_filter TMR_GEN2_BANK_EPC 0 1 [0; 0] 2 2000
      = Some (st', (ERROR_COMMAND_RESPONSE_TIMEOUT, [0; 0], 0))
      /\ read_attempts (_rfidSerial st') = (read_attempts (_rfidSerial st) + 5)%nat.
Proof.
  cbv zeta.
  split; [reflexivity|]. split; [reflexivity|].
  split; [vm_compute; discriminate|]. split; [vm_compute; discriminate|].
  split; [lia|].
  apply (selective_read_gives_up_after_five 5
           (RFID_begin (answering epc_only_reply)) other_filter
           TMR_GEN2_BANK_EPC 0 1 [0; 0] 2 2000);
    [ reflexivity | reflexivity | vm_compute; discriminate | vm_compute; discriminate
    | exact other_filter_never_matches | lia ].
Defined.

Example five_reads_counted :
  option_map (fun r => (snd r, read_attempts (_rfidSerial (fst r))))
    (SelectiveReadDataRegion 5 (RFID_begin (answering epc_only_reply))
       other_filter TMR_GEN2_BANK_EPC 0 1 [0; 0] 2 2000)
  = Some ((ERROR_COMMAND_RESPONSE_TIMEOUT, [0; 0], 0), 5%nat)
  /\ SelectiveReadDataRegion 4 (RFID_begin (answering epc_only_reply))
       other_filter TMR_GEN2_BANK_EPC 0 1 [0; 0] 2 2000
     = None.
Proof. split; vm_compute; reflexivity. Qed.

Lemma invalid_filter_sends_nothing_witness :
  (12 < EPCoffset late_filter + EPClen late_filter \/ EPCoffset late_filter = 12)
  /\ SelectiveReadDataRegion 0 (RFID_begin (answering epc_only_reply)) late_filter
       TMR_GEN2_BANK_USER 0 1 [7; 7] 2 2000
     = Some (RFID_begin (answering epc_only_reply),
             (ERROR_INVALID_EPC_REQ, [7; 7], 0)).
Proof.
  split; [right; reflexivity|].
  apply (invalid_filter_sends_nothing 0 (RFID_begin (answering epc_only_reply))
           late_filter TMR_GEN2_BANK_USER 0 1 [7; 7] 2 2000).
  right. reflexivity.
Defined.

Lemma getTemp_continuous_is_cached_witness :
  _continuousModeTemp (streaming 26 silent) = true
  /\ getTemp (streaming 26 silent) = Some (streaming 26 silent, 26).
Proof.
  split; [reflexivity|].
  apply (getTemp_continuous_is_cached (streaming 26 silent)). reflexivity.
Defined.

(** Right after [startReading] the cache holds 0 and the query answers -1. *)
Lemma getTemp_after_startReading (st st' : RFID) :
  (3 <= length (msg st))%nat ->
  startReading st = Some st' -> getTemp st' = Some (st', -1).
Proof.
  intros Hm. unfold startReading, disableReadFilter, setReaderConfiguration.
  destruct (sendMessage_returns st TMR_SR_OPCODE_SET_READER_OPTIONAL_PARAMS
              [1; 12; 0] 3 COMMAND_TIME_OUT true) as (st1 & E1 & X1); [lia | lia |].
  rewrite E1. cbv zeta.
  destruct (sendMessage_returns
              (mkRFID (msg st1) (_head st1) true 0 (_rfidSerial st1))
              TMR_SR_OPCODE_MULTI_PROTOCOL_TAG_OP
              [0x00; 0x00; 0x01; 0x22; 0x00; 0x00; 0x05; 0x09; 0x22;
               0x10; 0x01; 0x1B; 0x03; 0xE8; 0x01; 0xFF; 0x01; 0x00] 18
              COMMAND_TIME_OUT true) as (st2 & E2 & X2).
  { cbn [msg]. rewrite (exchanged_length _ _ _ X1). lia. }
  { lia. }
  rewrite E2. intros [= <-].
  destruct X2 as (_ & _ & _ & _ & Hc & Ht). cbn in Hc, Ht.
  unfold getTemp. rewrite Hc, Ht. reflexivity.
Qed.

(** A sample of 0 degrees reaches the cache through [check] and is then
    reported as -1; a sample of 26 degrees is reported as 26.  Neither
    query touches the stream. *)
Example getTemp_after_sample :
  let st0 := streaming 7 (mkStream (stats_frame 0) [] (fun _ => [])) in
  let st26 := streaming 7 (mkStream (stats_frame 26) [] (fun _ => [])) in
  snd (check st0) = false
  /\ _contTemp (fst (check st0)) = 0
  /\ option_map snd (getTemp (fst (check st0))) = Some (-1)
  /\ _contTemp (fst (check st26)) = 26
  /\ option_map snd (getTemp (fst (check st26))) = Some 26.
Proof. cbv zeta. repeat split; vm_compute; reflexivity. Qed.

(** * Further properties of the driver *)

(** ** The frame that goes out *)

Lemma get_inside (a : list Z) (j : Z) :
  0 <= j < Z.of_nat (length a) -> a !! Z.to_nat j = Some (get a j).
Proof.
  intros Hj. unfold get. destruct (Z.ltb_spec j 0); [lia|].
  destruct (a !! Z.to_nat j) eqn:E; [reflexivity|].
  apply lookup_ge_None in E. lia.
Qed.

Lemma list_eq_get (a b : list Z) :
  length a = length b ->
  (forall j, 0 <= j < Z.of_nat (length a) -> get a j = get b j) ->
  a = b.
Proof.
  intros HL H. apply list_eq. intros i.
  destruct (Nat.lt_ge_cases i (length a)) as [Hi|Hi].
  - pose proof (get_inside a (Z.of_nat i)) as Ha.
    pose proof (get_inside b (Z.of_nat i)) as Hb.
    rewrite Nat2Z.id in Ha, Hb. rewrite Ha, Hb by lia. f_equal. apply H. lia.
  - rewrite !lookup_ge_None_2 by lia. reflexivity.
Qed.

Lemma length_write_loop (m : list Z) (n : nat) (x : Z) :
  length (write_loop m n x) = n.
Proof. revert x. induction n as [|n IH]; intros x; cbn; [|rewrite IH]; reflexivity. Qed.

Lemma load_data_spec (data : list Z) (n : nat) :
  forall (m : list Z) (x : Z),
    0 <= x ->
    (forall j, x <= j < x + Z.of_nat n -> 3 + j < Z.of_nat (length m) ->
       get (load_data m data n x) (3 + j) = get data j)
    /\ (forall i, i < 3 + x \/ 3 + x + Z.of_nat n <= i ->
          get (load_data m data n x) i = get m i).
Proof.
  induction n as [|n IH]; intros m x Hx; cbn [load_data].
  - split; intros; [lia | reflexivity].
  - destruct (IH (put m (3 + x) (get data x)) (x + 1)) as (Hin & Hout); [lia|].
    rewrite length_put in Hin. split.
    + intros j Hj Hlen. destruct (Z.eq_dec j x) as [->|].
      * rewrite Hout by lia. apply get_put_eq. lia.
      * apply Hin; lia.
    + intros i Hi. rewrite Hout by lia. apply get_put_ne. lia.
Qed.

Lemma get_app_l (a b : list Z) (j : Z) :
  j < Z.of_nat (length a) -> get (a ++ b) j = get a j.
Proof.
  intros H. unfold get. destruct (Z.ltb_spec j 0); [reflexivity|].
  rewrite lookup_app_l by lia. reflexivity.
Qed.

Lemma get_app_r (a b : list Z) (j : Z) :
  Z.of_nat (length a) <= j -> get (a ++ b) j = get b (j - Z.of_nat (length a)).
Proof.
  intros H. unfold get.
  destruct (Z.ltb_spec j 0); [lia|].
  destruct (Z.ltb_spec (j - Z.of_nat (length a)) 0); [lia|].
  rewrite lookup_app_r by lia. f_equal. f_equal. lia.
Qed.

Lemma split_crc_bytes (c : Z) :
  0 <= c < 65536 ->
  u8 (Z.shiftr c 8) = c / 256 /\ u8 (Z.land c 0xFF) = c mod 256
  /\ 0 <= c / 256 < 256 /\ 0 <= c mod 256 < 256.
Proof.
  intros Hc. rewrite Z.shiftr_div_pow2 by lia. change (2 ^ 8) with 256.
  change 255 with (Z.ones 8). rewrite Z.land_ones by lia. change (2 ^ 8) with 256.
  assert (0 <= c / 256 < 256) by (Z.div_mod_to_equations; lia).
  assert (0 <= c mod 256 < 256) by (Z.div_mod_to_equations; lia).
  rewrite !u8_byte by lia. tauto.
Qed.

(** What [sendMessage] puts on the wire is the specification's [encode]. *)
Lemma sendMessage_writes_encode (m0 : list Z) (opcode : Z) (data : list Z) :
  length m0 = 255%nat ->
  0 <= opcode < 256 -> bytes_ok data = true -> (length data <= 250)%nat ->
  outgoing (loaded m0 opcode data (Z.of_nat (length data)))
  = Spec.encode opcode data.
Proof.
  intros Hm Hop Hd Hlen.
  set (size := Z.of_nat (length data)).
  set (m1 := loaded m0 opcode data size).
  assert (Hm1 : length m1 = 255%nat) by (unfold m1; rewrite length_loaded; exact Hm).
  assert (H1 : get m1 1 = size) by (apply loaded_size; lia).
  assert (H2 : get m1 2 = opcode) by (apply loaded_opcode; lia).
  assert (Hdata : forall j, 0 <= j < size -> get m1 (3 + j) = get data j).
  { intros j Hj. unfold m1, loaded.
    destruct (load_data_spec data (Z.to_nat size) (put (put m0 1 size) 2 opcode) 0)
      as (Hin & _); [lia|].
    apply Hin; [lia|]. rewrite !length_put. lia. }
  set (body := size :: opcode :: data).
  assert (Hbody : bytes_ok body = true).
  { change (is_byte size && (is_byte opcode && bytes_ok data) = true).
    rewrite Hd.
    assert (is_byte size = true) as -> by (apply is_byte_range; lia).
    assert (is_byte opcode = true) as -> by (apply is_byte_range; lia).
    reflexivity. }
  assert (Hcrc : calculateCRC (drop 1 (put m1 0 255)) (u8 (size + 2)) = Spec.crc16 body).
  { rewrite u8_byte by lia.
    replace (size + 2) with (Z.of_nat (length body)) by (unfold body; cbn [length]; lia).
    rewrite <- (calculateCRC_prefix body [] Hbody), app_nil_r.
    apply calculateCRC_ext. intros j Hj. unfold body in Hj. cbn [length] in Hj.
    rewrite get_drop by lia. rewrite get_put_ne by lia.
    destruct (Z.eq_dec j 0) as [->|]; [exact H1|].
    destruct (Z.eq_dec j 1) as [->|]; [exact H2|].
    replace (Z.of_nat 1 + j) with (3 + (j - 2)) by lia. rewrite Hdata by lia.
    unfold body. replace j with ((j - 2) + 1 + 1) at 2 by lia.
    rewrite !get_cons_succ by lia. reflexivity. }
  pose proof (calculateCRC_range (drop 1 (put m1 0 255)) (u8 (size + 2))) as Hr.
  rewrite Hcrc in Hr. destruct (split_crc_bytes _ Hr) as (Ehi & Elo & _ & _).
  unfold outgoing. cbv zeta. rewrite (get_put_ne m1 0) by lia.
  rewrite H1, Hcrc, Ehi, Elo.
  unfold Spec.encode. cbv zeta. fold size. fold body.
  apply list_eq_get.
  - rewrite length_write_loop. unfold body. cbn [length]. rewrite length_app.
    cbn [length]. lia.
  - intros j Hj. rewrite length_write_loop in Hj.
    rewrite write_loop_get by lia. rewrite Z.add_0_l.
    destruct (Z.eq_dec j (size + 4)) as [->|].
    { rewrite get_put_eq by (rewrite !length_put; lia).
      replace (size + 4) with ((size + 3) + 1) by lia. rewrite get_cons_succ by lia.
      rewrite get_app_r by (unfold body; cbn [length]; lia).
      unfold body. cbn [length].
      replace (size + 3 - Z.of_nat (S (S (length data)))) with 1 by lia. reflexivity. }
    rewrite get_put_ne by lia.
    destruct (Z.eq_dec j (size + 3)) as [->|].
    { rewrite get_put_eq by (rewrite !length_put; lia).
      replace (size + 3) with ((size + 2) + 1) by lia. rewrite get_cons_succ by lia.
      rewrite get_app_r by (unfold body; cbn [length]; lia).
      unfold body. cbn [length].
      replace (size + 2 - Z.of_nat (S (S (length data)))) with 0 by lia. reflexivity. }
    rewrite get_put_ne by lia.
    destruct (Z.eq_dec j 0) as [->|].
    { rewrite get_put_eq by lia. reflexivity. }
    rewrite get_put_ne by lia.
    replace j with ((j - 1) + 1) at 2 by lia. rewrite get_cons_succ by lia.
    rewrite get_app_l by (unfold body; cbn [length]; lia).
    destruct (Z.eq_dec j 1) as [->|]; [exact H1|].
    destruct (Z.eq_dec j 2) as [->|]; [exact H2|].
    replace j with (3 + (j - 3)) at 1 by lia. rewrite Hdata by lia.
    unfold body. replace (j - 1) with ((j - 3) + 1 + 1) by lia.
    rewrite !get_cons_succ by lia. reflexivity.
Qed.

(** ** The CRC tells any two messages apart that differ in one byte *)

Lemma nibble_cases (k : Z) :
  0 <= k < 16 ->
  k = 0 \/ k = 1 \/ k = 2 \/ k = 3 \/ k = 4 \/ k = 5 \/ k = 6 \/ k = 7 \/
  k = 8 \/ k = 9 \/ k = 10 \/ k = 11 \/ k = 12 \/ k = 13 \/ k = 14 \/ k = 15.
Proof. lia. Qed.

Lemma table_lxor (i j : Z) :
  0 <= i < 16 -> 0 <= j < 16 -> table (Z.lxor i j) = Z.lxor (table i) (table j).
Proof.
  intros Hi Hj.
  destruct (nibble_cases i Hi) as [->|[->|[->|[->|[->|[->|[->|[->|[->|[->|[->|[->|[->|[->|[->| ->]]]]]]]]]]]]]]];
  destruct (nibble_cases j Hj) as [->|[->|[->|[->|[->|[->|[->|[->|[->|[->|[->|[->|[->|[->|[->| ->]]]]]]]]]]]]]]];
  reflexivity.
Qed.

Lemma table_low_nibble (k : Z) : 0 <= k < 16 -> table k mod 16 = k.
Proof.
  intros Hk.
  destruct (nibble_cases k Hk) as [->|[->|[->|[->|[->|[->|[->|[->|[->|[->|[->|[->|[->|[->|[->| ->]]]]]]]]]]]]]]];
  reflexivity.
Qed.

Lemma lxor_lt_pow2 (n a b : Z) :
  0 < n -> 0 <= a < 2 ^ n -> 0 <= b < 2 ^ n -> 0 <= Z.lxor a b < 2 ^ n.
Proof.
  intros Hn Ha Hb. assert (H0 : 0 <= Z.lxor a b) by (apply Z.lxor_nonneg; lia).
  split; [exact H0|].
  destruct (Z.eq_dec (Z.lxor a b) 0) as [->|Hne]; [lia|].
  apply Z.log2_lt_pow2; [lia|].
  pose proof (Z.log2_lxor a b ltac:(lia) ltac:(lia)) as Hl.
  assert (Z.log2 a < n).
  { destruct (Z.eq_dec a 0) as [->|]; [cbn; lia|]. apply Z.log2_lt_pow2; lia. }
  assert (Z.log2 b < n).
  { destruct (Z.eq_dec b 0) as [->|]; [cbn; lia|]. apply Z.log2_lt_pow2; lia. }
  lia.
Qed.

(** The shifted register has its low nibble free. *)
Lemma shifted_low (crc : Z) (k : Z) : 0 <= k < 4 -> Z.testbit (shifted crc) k = false.
Proof.
  intros Hk. unfold shifted. change 65536 with (2 ^ 16).
  rewrite Z.mod_pow2_bits_low by lia. change 16 with (2 ^ 4).
  apply Z.mul_pow2_bits_low. lia.
Qed.

Lemma nibble_high (n k : Z) : 0 <= n < 16 -> 4 <= k -> Z.testbit n k = false.
Proof.
  intros Hn Hk. rewrite <- (Z.mod_small n (2 ^ 4)) by (change (2 ^ 4) with 16; lia).
  apply Z.mod_pow2_bits_high. lia.
Qed.

Lemma update_as_lxor (crc nib : Z) :
  0 <= nib < 16 ->
  Spec.update crc nib = Z.lxor (Z.lxor (shifted crc) nib) (table (crc / 4096)).
Proof.
  intros Hn. unfold Spec.update. fold (shifted crc). fold (table (crc / 4096)).
  f_equal. symmetry. apply Z.lxor_lor.
  apply Z.bits_inj'. intros k Hk. rewrite Z.land_spec, Z.bits_0.
  destruct (Z.lt_ge_cases k 4).
  - rewrite shifted_low by lia. reflexivity.
  - rewrite (nibble_high nib) by lia. apply andb_false_r.
Qed.

Lemma shifted_shiftl (c : Z) : shifted c = Z.shiftl c 4 mod 2 ^ 16.
Proof. unfold shifted. rewrite Z.shiftl_mul_pow2 by lia. reflexivity. Qed.

Lemma shifted_lxor (a b : Z) : shifted (Z.lxor a b) = Z.lxor (shifted a) (shifted b).
Proof.
  rewrite !shifted_shiftl.
  apply Z.bits_inj'. intros k Hk. rewrite Z.lxor_spec.
  destruct (Z.lt_ge_cases k 16).
  - rewrite !Z.mod_pow2_bits_low by lia.
    rewrite Z.shiftl_lxor, Z.lxor_spec. reflexivity.
  - rewrite !Z.mod_pow2_bits_high by lia. reflexivity.
Qed.

Lemma top_lxor (a b : Z) : Z.lxor a b / 4096 = Z.lxor (a / 4096) (b / 4096).
Proof.
  change 4096 with (2 ^ 12). rewrite <- !Z.shiftr_div_pow2 by lia.
  apply Z.shiftr_lxor.
Qed.

Lemma top_range (a : Z) : 0 <= a < 65536 -> 0 <= a / 4096 < 16.
Proof. intros. Z.div_mod_to_equations. lia. Qed.

(** The update is linear over exclusive or. *)
Lemma update_lxor (a b n m : Z) :
  0 <= a < 65536 -> 0 <= b < 65536 -> 0 <= n < 16 -> 0 <= m < 16 ->
  Z.lxor (Spec.update a n) (Spec.update b m)
  = Spec.update (Z.lxor a b) (Z.lxor n m).
Proof.
  intros Ha Hb Hn Hm.
  pose proof (lxor_lt_pow2 4 n m ltac:(lia) Hn Hm) as Hnm. change (2 ^ 4) with 16 in Hnm.
  rewrite !update_as_lxor by lia.
  rewrite shifted_lxor, top_lxor, table_lxor by (apply top_range; lia).
  apply Z.bits_inj'. intros k _. rewrite !Z.lxor_spec.
  destruct (Z.testbit (shifted a) k), (Z.testbit (shifted b) k),
    (Z.testbit n k), (Z.testbit m k),
    (Z.testbit (table (a / 4096)) k), (Z.testbit (table (b / 4096)) k);
    reflexivity.
Qed.

(** Where the update gives 0, the nibble fed in is the top nibble of the
    register; with a register below 4096 both are 0. *)
Lemma update_zero (x y : Z) :
  0 <= x < 65536 -> 0 <= y < 16 -> Spec.update x y = 0 ->
  y = x / 4096 /\ (x < 4096 -> x = 0).
Proof.
  intros Hx Hy H. rewrite update_as_lxor in H by lia.
  apply Z.lxor_eq in H.
  pose proof (top_range x Hx) as Hk.
  pose proof (table_low_nibble (x / 4096) Hk) as Ht. rewrite <- H in Ht.
  assert (Hlow : Z.lxor (shifted x) y mod 16 = y).
  { change 16 with (2 ^ 4). rewrite <- (Z.mod_small y (2 ^ 4)) at 2
      by (change (2 ^ 4) with 16; lia).
    apply Z.bits_inj'. intros k Hk'.
    destruct (Z.lt_ge_cases k 4).
    - rewrite !Z.mod_pow2_bits_low by lia. rewrite Z.lxor_spec, shifted_low by lia.
      reflexivity.
    - rewrite !Z.mod_pow2_bits_high by lia. reflexivity. }
  rewrite Hlow in Ht. split; [exact Ht|]. intros Hsmall.
  assert (Hk0 : x / 4096 = 0) by (apply Z.div_small; lia).
  rewrite Hk0 in Ht, H. subst y. rewrite Z.lxor_0_r in H. change (table 0) with 0 in H.
  unfold shifted in H. rewrite Z.mod_small in H by lia. lia.
Qed.

Lemma update_zero_input (d : Z) : 0 <= d < 65536 -> Spec.update d 0 = 0 -> d = 0.
Proof.
  intros Hd H. destruct (update_zero d 0 Hd ltac:(lia) H) as (Hk & Hs).
  apply Hs. pose proof (top_range d Hd). Z.div_mod_to_equations. lia.
Qed.

(** Two registers that differ stay different when the same nibble is fed
    to both. *)
Lemma update_injective (s1 s2 n : Z) :
  0 <= s1 < 65536 -> 0 <= s2 < 65536 -> 0 <= n < 16 ->
  Spec.update s1 n = Spec.update s2 n -> s1 = s2.
Proof.
  intros H1 H2 Hn H.
  assert (Hx : Z.lxor (Spec.update s1 n) (Spec.update s2 n) = 0)
    by (rewrite H; apply Z.lxor_nilpotent).
  rewrite update_lxor in Hx by lia. rewrite Z.lxor_nilpotent in Hx.
  apply Z.lxor_eq, update_zero_input; [|exact Hx].
  apply (lxor_lt_pow2 16); lia.
Qed.

Lemma fold_update_range (nibs : list Z) :
  forall s, 0 <= s < 65536 -> Forall (fun n => 0 <= n < 16) nibs ->
  0 <= fold_left Spec.update nibs s < 65536.
Proof.
  induction nibs as [|n nibs IH]; intros s Hs Hn; [exact Hs|].
  inversion Hn; subst. cbn [fold_left]. apply IH; [|assumption].
  apply update_range; lia.
Qed.

Lemma fold_update_injective (nibs : list Z) :
  forall s1 s2,
    0 <= s1 < 65536 -> 0 <= s2 < 65536 -> Forall (fun n => 0 <= n < 16) nibs ->
    fold_left Spec.update nibs s1 = fold_left Spec.update nibs s2 -> s1 = s2.
Proof.
  induction nibs as [|n nibs IH]; intros s1 s2 H1 H2 Hn H; [exact H|].
  inversion Hn; subst. cbn [fold_left] in H.
  apply IH in H; [|apply update_range; lia|apply update_range; lia|assumption].
  apply (update_injective s1 s2 n); assumption.
Qed.

Lemma nibbles_range (l : list Z) :
  bytes_ok l = true ->
  Forall (fun n => 0 <= n < 16) (concat (map Spec.nibbles l)).
Proof.
  induction l as [|b l IH]; intros Hl; [constructor|].
  cbn in Hl. apply andb_true_iff in Hl as [Hb Hl]. apply is_byte_range in Hb.
  cbn [map concat Spec.nibbles app].
  constructor; [Z.div_mod_to_equations; lia|].
  constructor; [Z.div_mod_to_equations; lia|]. apply IH, Hl.
Qed.

(** One byte: the two nibbles of different bytes take the same register to
    different registers. *)
Lemma byte_step_injective (s b1 b2 : Z) :
  0 <= s < 65536 -> 0 <= b1 < 256 -> 0 <= b2 < 256 ->
  Spec.update (Spec.update s (b1 / 16)) (b1 mod 16)
  = Spec.update (Spec.update s (b2 / 16)) (b2 mod 16) ->
  b1 = b2.
Proof.
  intros Hs H1 H2 H.
  assert (Hh1 : 0 <= b1 / 16 < 16) by (Z.div_mod_to_equations; lia).
  assert (Hh2 : 0 <= b2 / 16 < 16) by (Z.div_mod_to_equations; lia).
  assert (Hl1 : 0 <= b1 mod 16 < 16) by (Z.div_mod_to_equations; lia).
  assert (Hl2 : 0 <= b2 mod 16 < 16) by (Z.div_mod_to_equations; lia).
  assert (Hx : Z.lxor (Spec.update (Spec.update s (b1 / 16)) (b1 mod 16))
                 (Spec.update (Spec.update s (b2 / 16)) (b2 mod 16)) = 0)
    by (rewrite H; apply Z.lxor_nilpotent).
  rewrite update_lxor in Hx by (try apply update_range; lia).
  rewrite update_lxor in Hx by lia. rewrite Z.lxor_nilpotent in Hx.
  set (h := Z.lxor (b1 / 16) (b2 / 16)) in *.
  set (l := Z.lxor (b1 mod 16) (b2 mod 16)) in *.
  assert (Hh : 0 <= h < 16) by (apply (lxor_lt_pow2 4); change (2 ^ 4) with 16; lia).
  assert (Hl : 0 <= l < 16) by (apply (lxor_lt_pow2 4); change (2 ^ 4) with 16; lia).
  assert (E0 : Spec.update 0 h = h).
  { rewrite update_as_lxor by lia. unfold shifted. change (0 * 16 mod 65536) with 0.
    change (table (0 / 4096)) with 0. rewrite Z.lxor_0_l, Z.lxor_0_r. reflexivity. }
  rewrite E0 in Hx.
  destruct (update_zero h l ltac:(lia) Hl Hx) as (Hk & Hsmall).
  assert (h = 0) by (apply Hsmall; lia).
  assert (l = 0) by (rewrite Hk, H0; reflexivity).
  apply Z.lxor_eq in H0. apply Z.lxor_eq in H3.
  rewrite (Z.div_mod b1 16), (Z.div_mod b2 16) by lia. rewrite H0, H3. reflexivity.
Qed.

Lemma crc16_detects_byte (pre post : list Z) (b1 b2 : Z) :
  bytes_ok pre = true -> bytes_ok post = true ->
  0 <= b1 < 256 -> 0 <= b2 < 256 ->
  Spec.crc16 (pre ++ b1 :: post) = Spec.crc16 (pre ++ b2 :: post) -> b1 = b2.
Proof.
  intros Hpre Hpost H1 H2. unfold Spec.crc16.
  rewrite !map_app, !concat_app, !fold_left_app.
  cbn [map concat Spec.nibbles app fold_left].
  set (s := fold_left Spec.update (concat (map Spec.nibbles pre)) 65535).
  assert (Hs : 0 <= s < 65536).
  { apply fold_update_range; [lia | apply nibbles_range, Hpre]. }
  intros H. apply fold_update_injective in H;
    [ | apply update_range; [apply update_range|]; Z.div_mod_to_equations; lia
      | apply update_range; [apply update_range|]; Z.div_mod_to_equations; lia
      | apply nibbles_range, Hpost ].
  apply (byte_step_injective s); assumption.
Qed.

(** X1.  Two buffers of the same length that differ in exactly one byte never
    have the same CRC: [calculateCRC] detects every single-byte change. *)
Theorem calculateCRC_detects_byte_change (pre post : list Z) (b1 b2 : Z) :
  bytes_ok pre = true -> bytes_ok post = true ->
  0 <= b1 < 256 -> 0 <= b2 < 256 -> b1 <> b2 ->
  (length pre + 1 + length post <= 255)%nat ->
  calculateCRC (pre ++ b1 :: post) (Z.of_nat (length pre + 1 + length post))
  <> calculateCRC (pre ++ b2 :: post) (Z.of_nat (length pre + 1 + length post)).
Proof.
  intros Hpre Hpost H1 H2 Hne Hlen H.
  assert (Hb : forall b, 0 <= b < 256 -> bytes_ok (pre ++ b :: post) = true).
  { intros b Hb. unfold bytes_ok. rewrite forallb_app. cbn [forallb].
    fold (bytes_ok pre). fold (bytes_ok post). rewrite Hpre, Hpost.
    assert (is_byte b = true) as -> by (apply is_byte_range; lia). reflexivity. }
  assert (Hl : forall b, (length pre + 1 + length post)%nat = length (pre ++ b :: post)).
  { intros b. rewrite length_app. cbn [length]. lia. }
  assert (E : forall b, 0 <= b < 256 ->
            calculateCRC (pre ++ b :: post) (Z.of_nat (length pre + 1 + length post))
            = Spec.crc16 (pre ++ b :: post)).
  { intros b Hr. rewrite (Hl b).
    rewrite <- (app_nil_r (pre ++ b :: post)) at 1.
    apply calculateCRC_prefix, Hb, Hr. }
  rewrite !E in H by assumption.
  apply Hne, (crc16_detects_byte pre post); assumption.
Qed.

Lemma calculateCRC_detects_byte_change_witness :
  bytes_ok [0x03; 0x9a] = true /\ bytes_ok [0x08; 0x00] = true
  /\ 0 <= 0x01 < 256 /\ 0 <= 0x81 < 256 /\ 0x01 <> 0x81
  /\ (length [0x03; 0x9a] + 1 + length [0x08; 0x00] <= 255)%nat
  /\ calculateCRC ([0x03; 0x9a] ++ 0x01 :: [0x08; 0x00])
       (Z.of_nat (length [0x03; 0x9a] + 1 + length [0x08; 0x00]))
     <> calculateCRC ([0x03; 0x9a] ++ 0x81 :: [0x08; 0x00])
          (Z.of_nat (length [0x03; 0x9a] + 1 + length [0x08; 0x00])).
Proof.
  split; [reflexivity|]. split; [reflexivity|]. split; [lia|]. split; [lia|].
  split; [lia|]. split; [cbn; lia|].
  apply (calculateCRC_detects_byte_change [0x03; 0x9a] [0x08; 0x00] 0x01 0x81);
    [reflexivity | reflexivity | lia | lia | lia | cbn; lia].
Defined.

(** ** Answers *)

(** A frame built around a body by appending the CRC of the body. *)
Lemma body_frame_valid (l : Z) (rest : list Z) :
  bytes_ok (l :: rest) = true -> Z.of_nat (length rest) = l + 3 -> l + 7 < 255 ->
  let crc := Spec.crc16 (l :: rest) in
  Spec.complete (0xFF :: (l :: rest) ++ [crc / 256; crc mod 256]) = true
  /\ Spec.crc_ok (0xFF :: (l :: rest) ++ [crc / 256; crc mod 256]) = true
  /\ Z.of_nat (length (0xFF :: (l :: rest) ++ [crc / 256; crc mod 256]))
     = Spec.total (0xFF :: (l :: rest) ++ [crc / 256; crc mod 256]).
Proof.
  intros Hb Hlen Hl crc.
  set (body := l :: rest) in *.
  set (r := 0xFF :: body ++ [crc / 256; crc mod 256]).
  assert (Hcrc : 0 <= crc < 65536).
  { unfold crc. rewrite <- (calculateCRC_prefix body [] Hb). apply calculateCRC_range. }
  assert (Hhi : 0 <= crc / 256 < 256) by (Z.div_mod_to_equations; lia).
  assert (Hlo : 0 <= crc mod 256 < 256) by (Z.div_mod_to_equations; lia).
  assert (Hlb : Z.of_nat (length body) = l + 4) by (unfold body; cbn [length]; lia).
  assert (Htot : Spec.total r = l + 7) by reflexivity.
  assert (Hlr : Z.of_nat (length r) = l + 7).
  { unfold r. cbn [length]. rewrite length_app. cbn [length]. lia. }
  assert (Hbr : bytes_ok r = true).
  { unfold r, bytes_ok. cbn [forallb]. rewrite forallb_app. fold (bytes_ok body).
    rewrite Hb. cbn [forallb].
    assert (is_byte (crc / 256) = true) as -> by (apply is_byte_range; lia).
    assert (is_byte (crc mod 256) = true) as -> by (apply is_byte_range; lia).
    reflexivity. }
  split; [|split].
  - unfold Spec.complete. rewrite Hbr, Htot, Hlr. unfold MAX_MSG_SIZE.
    destruct (Z.ltb_spec (l + 7) 255); [|lia].
    destruct (Z.leb_spec (l + 7) (l + 7)); [reflexivity|lia].
  - unfold Spec.crc_ok. rewrite Htot.
    replace (l + 7 - 3) with (Z.of_nat (length body)) by lia. rewrite Nat2Z.id.
    change (drop 1 r) with (body ++ [crc / 256; crc mod 256]).
    rewrite take_app_length. fold crc.
    assert (E1 : get r (l + 7 - 2) = crc / 256).
    { unfold r. replace (l + 7 - 2) with ((l + 4) + 1) by lia.
      rewrite get_cons_succ by lia. rewrite get_app_r by lia.
      replace (l + 4 - Z.of_nat (length body)) with 0 by lia. reflexivity. }
    assert (E2 : get r (l + 7 - 1) = crc mod 256).
    { unfold r. replace (l + 7 - 1) with ((l + 5) + 1) by lia.
      rewrite get_cons_succ by lia. rewrite get_app_r by lia.
      replace (l + 5 - Z.of_nat (length body)) with 1 by lia. reflexivity. }
    rewrite E1, E2. apply Z.eqb_eq. Z.div_mod_to_equations. lia.
  - rewrite Hlr, Htot. reflexivity.
Qed.

Lemma response_valid (opcode status : Z) (payload : list Z) :
  0 <= opcode < 256 -> 0 <= status < 65536 ->
  bytes_ok payload = true -> (length payload <= 247)%nat ->
  Spec.complete (Spec.response opcode status payload) = true
  /\ Spec.crc_ok (Spec.response opcode status payload) = true
  /\ Z.of_nat (length (Spec.response opcode status payload))
     = Spec.total (Spec.response opcode status payload).
Proof.
  intros Hop Hst Hp Hlen. unfold Spec.response. cbv zeta.
  apply body_frame_valid; [|cbn [length]; lia|lia].
  change (is_byte (Z.of_nat (length payload))
          && (is_byte opcode
              && (is_byte (status / 256)
                  && (is_byte (status mod 256) && bytes_ok payload))) = true).
  rewrite Hp.
  assert (is_byte (Z.of_nat (length payload)) = true) as -> by (apply is_byte_range; lia).
  assert (is_byte opcode = true) as -> by (apply is_byte_range; lia).
  assert (is_byte (status / 256) = true) as ->
    by (apply is_byte_range; Z.div_mod_to_equations; lia).
  assert (is_byte (status mod 256) = true) as ->
    by (apply is_byte_range; Z.div_mod_to_equations; lia).
  reflexivity.
Qed.

Lemma response_fields (opcode status : Z) (payload : list Z) :
  get (Spec.response opcode status payload) 1 = Z.of_nat (length payload)
  /\ get (Spec.response opcode status payload) 2 = opcode
  /\ get (Spec.response opcode status payload) 3 = status / 256
  /\ get (Spec.response opcode status payload) 4 = status mod 256
  /\ (forall j, 0 <= j < Z.of_nat (length payload) ->
      get (Spec.response opcode status payload) (5 + j) = get payload j).
Proof.
  unfold Spec.response. cbv zeta. repeat split.
  intros j Hj. replace (5 + j) with (j + 1 + 1 + 1 + 1 + 1) by lia.
  rewrite get_cons_succ by lia.
  rewrite <- !app_comm_cons. rewrite !get_cons_succ by lia.
  apply get_app_l. lia.
Qed.

(** ** What goes out and what comes back *)

Lemma sendMessage_frame (st : RFID) (opcode : Z) (data : list Z)
  (timeOut : Z) (waitForResponse : bool) :
  length (msg st) = 255%nat -> 0 <= opcode < 256 ->
  bytes_ok data = true -> (length data <= 250)%nat ->
  exists st',
    sendMessage st opcode data (Z.of_nat (length data)) timeOut waitForResponse = Some st'
    /\ tx (_rfidSerial st') = tx (_rfidSerial st) ++ [Spec.encode opcode data]
    /\ length (msg st') = 255%nat
    /\ peer (_rfidSerial st') = peer (_rfidSerial st)
    /\ _head st' = _head st
    /\ _continuousModeTemp st' = _continuousModeTemp st
    /\ _contTemp st' = _contTemp st.
Proof.
  intros Hm Hop Hd Hl. rewrite sendMessage_eq.
  destruct (sendCommand_returns
              (with_msg st (loaded (msg st) opcode data (Z.of_nat (length data))))
              timeOut waitForResponse) as (st' & E & H1 & H2 & H3 & H4 & H5 & H6).
  { fields. rewrite loaded_size by lia. lia. }
  fields_in H1. fields_in H2. fields_in H3. fields_in H4. fields_in H5. fields_in H6.
  exists st'. split; [exact E|]. split.
  - rewrite H2. rewrite sendMessage_writes_encode by assumption. reflexivity.
  - rewrite H1, length_loaded. repeat split; assumption.
Qed.

(** X2.  Whatever [msg] held before, [sendMessage] puts exactly the frame
    [Spec.encode opcode data] on the wire: header, length, opcode, data and
    the CRC of length, opcode and data, and nothing else. *)
Theorem sendMessage_sends_encoded_frame (st : RFID) (opcode : Z) (data : list Z)
  (timeOut : Z) (waitForResponse : bool) :
  length (msg st) = 255%nat -> 0 <= opcode < 256 ->
  bytes_ok data = true -> (length data <= 250)%nat ->
  exists st',
    sendMessage st opcode data (Z.of_nat (length data)) timeOut waitForResponse = Some st'
    /\ tx (_rfidSerial st') = tx (_rfidSerial st) ++ [Spec.encode opcode data].
Proof.
  intros Hm Hop Hd Hl.
  destruct (sendMessage_frame st opcode data timeOut waitForResponse Hm Hop Hd Hl)
    as (st' & E & T & _).
  exists st'. split; assumption.
Qed.

Lemma sendMessage_answered (st : RFID) (opcode : Z) (data : list Z) (timeOut : Z)
  (status : Z) (payload : list Z) :
  length (msg st) = 255%nat -> 0 <= opcode < 256 ->
  bytes_ok data = true -> (length data <= 250)%nat ->
  0 <= status < 65536 -> bytes_ok payload = true -> (length payload <= 247)%nat ->
  peer (_rfidSerial st) (tx (_rfidSerial st) ++ [Spec.encode opcode data])
  = Spec.response opcode status payload ->
  exists st',
    sendMessage st opcode data (Z.of_nat (length data)) timeOut true = Some st'
    /\ answered st' opcode status payload
    /\ tx (_rfidSerial st') = tx (_rfidSerial st) ++ [Spec.encode opcode data]
    /\ length (msg st') = 255%nat
    /\ peer (_rfidSerial st') = peer (_rfidSerial st).
Proof.
  intros Hm Hop Hd Hl Hst Hp Hpl Hpeer.
  destruct (response_valid opcode status payload Hop Hst Hp Hpl) as (Hc & Hok & Hlen).
  destruct (response_fields opcode status payload) as (F1 & F2 & F3 & F4 & F5).
  assert (Ht : Spec.total (Spec.response opcode status payload)
               = Z.of_nat (length payload) + 7) by reflexivity.
  destruct (sendMessage_reply st opcode data (Z.of_nat (length data)) timeOut
              (Spec.response opcode status payload)) as (st' & E & _ & Hrx & Hmsg & H0);
    [assumption | lia | | assumption |].
  { rewrite sendMessage_writes_encode by assumption. exact Hpeer. }
  destruct (sendMessage_frame st opcode data timeOut true Hm Hop Hd Hl)
    as (st2 & E2 & T2 & L2 & P2 & _).
  rewrite E in E2. injection E2 as <-.
  exists st'. split; [exact E|]. split; [|repeat split; assumption].
  rewrite Hok, F2, Z.eqb_refl in H0. rewrite Ht in Hmsg. unfold answered.
  rewrite (Hmsg 1), (Hmsg 2), (Hmsg 3), (Hmsg 4) by lia. rewrite F1, F2, F3, F4.
  repeat split; try assumption; try reflexivity.
  - intros j Hj. rewrite Hmsg by lia. apply F5, Hj.
  - rewrite Hrx, <- Hlen, Nat2Z.id. apply drop_all.
Qed.

(** X3.  Round trip: when the module answers the encoded request with
    [Spec.response opcode status payload], [sendMessage] returns with
    [ALL_GOOD] in [msg[0]], the payload length in [msg[1]], the status word
    in [msg[3..4]], the payload from [msg[5]] on, and nothing left to read. *)
Theorem sendMessage_round_trip (st : RFID) (opcode : Z) (data : list Z) (timeOut : Z)
  (status : Z) (payload : list Z) :
  length (msg st) = 255%nat -> 0 <= opcode < 256 ->
  bytes_ok data = true -> (length data <= 250)%nat ->
  0 <= status < 65536 -> bytes_ok payload = true -> (length payload <= 247)%nat ->
  peer (_rfidSerial st) (tx (_rfidSerial st) ++ [Spec.encode opcode data])
  = Spec.response opcode status payload ->
  exists st',
    sendMessage st opcode data (Z.of_nat (length data)) timeOut true = Some st'
    /\ get (msg st') 0 = ALL_GOOD
    /\ get (msg st') 1 = Z.of_nat (length payload)
    /\ get (msg st') 2 = opcode
    /\ get (msg st') 3 * 256 + get (msg st') 4 = status
    /\ (forall j, 0 <= j < Z.of_nat (length payload) ->
        get (msg st') (5 + j) = get payload j)
    /\ rx (_rfidSerial st') = [].
Proof.
  intros Hm Hop Hd Hl Hst Hp Hpl Hpeer.
  destruct (sendMessage_answered st opcode data timeOut status payload)
    as (st' & E & (A0 & A1 & A2 & A3 & A4 & A5 & A6) & _); try assumption.
  exists st'. rewrite A3, A4.
  repeat split; try assumption.
  Z.div_mod_to_equations. lia.
Qed.

(** ** Damaged answers *)

Lemma put_insert (a : list Z) (i v : Z) :
  0 <= i -> put a i v = <[Z.to_nat i := v]> a.
Proof. intros H. unfold put. destruct (Z.ltb_spec i 0); [lia|reflexivity]. Qed.

Lemma bytes_ok_put (a : list Z) (i v : Z) :
  bytes_ok a = true -> 0 <= v < 256 -> bytes_ok (put a i v) = true.
Proof.
  intros Ha Hv. unfold put. destruct (i <? 0); [assumption|].
  apply bytes_ok_Forall, Forall_insert; [apply bytes_ok_Forall, Ha | exact Hv].
Qed.

Lemma damaged_frame (r : list Z) (i b : Z) :
  Spec.complete r = true -> Spec.crc_ok r = true ->
  2 <= i < Spec.total r -> 0 <= b < 256 -> b <> get r i ->
  Spec.complete (put r i b) = true /\ Spec.crc_ok (put r i b) = false
  /\ Spec.total (put r i b) = Spec.total r.
Proof.
  intros Hc Hok Hi Hb Hne.
  pose proof (complete_inv r Hc) as (Hbr & Ht & Hlen).
  assert (Htot : Spec.total (put r i b) = Spec.total r).
  { unfold Spec.total. rewrite get_put_ne by lia. reflexivity. }
  split; [|split; [|exact Htot]].
  { unfold Spec.complete. rewrite Htot, length_put, bytes_ok_put by assumption.
    unfold Spec.complete in Hc. rewrite Hbr in Hc. exact Hc. }
  unfold Spec.crc_ok in *. rewrite Htot.
  set (t := Spec.total r) in *.
  apply Z.eqb_eq in Hok. apply Z.eqb_neq. intros H.
  rewrite put_insert in H by lia.
  destruct (Z.lt_ge_cases i (t - 2)) as [Hlt|Hge].
  - (* the damage is in the body *)
    rewrite <- put_insert in H by lia.
    rewrite !get_put_ne in H by lia. rewrite <- Hok in H.
    rewrite put_insert in H by lia.
    rewrite drop_insert_ge in H by lia.
    rewrite take_insert_lt in H by lia.
    set (body := take (Z.to_nat (t - 3)) (drop 1 r)) in *.
    assert (Hlb : length body = Z.to_nat (t - 3)).
    { unfold body. rewrite length_take, length_drop. lia. }
    assert (Hbody : bytes_ok body = true).
    { apply bytes_ok_Forall, Forall_take, Forall_drop, bytes_ok_Forall, Hbr. }
    assert (Hx : body !! (Z.to_nat i - 1)%nat = Some (get r i)).
    { unfold body. rewrite lookup_take_lt by lia. rewrite lookup_drop.
      replace (1 + (Z.to_nat i - 1))%nat with (Z.to_nat i) by lia.
      unfold get. destruct (Z.ltb_spec i 0); [lia|].
      destruct (r !! Z.to_nat i) eqn:Er; [reflexivity|].
      apply lookup_ge_None in Er. lia. }
    rewrite insert_take_drop in H by lia.
    rewrite <- (take_drop_middle body _ _ Hx) in H at 3.
    apply Hne.
    apply (crc16_detects_byte (take (Z.to_nat i - 1) body)
             (drop (S (Z.to_nat i - 1)) body)); try assumption.
    + apply bytes_ok_Forall, Forall_take, bytes_ok_Forall, Hbody.
    + apply bytes_ok_Forall, Forall_drop, bytes_ok_Forall, Hbody.
    + apply bytes_ok_get, Hbr.
  - (* the damage is in the checksum *)
    rewrite drop_insert_ge in H by lia.
    rewrite take_insert_ge in H by lia.
    rewrite Hok in H. rewrite <- !put_insert in H by lia.
    pose proof (bytes_ok_get r (t - 2) Hbr). pose proof (bytes_ok_get r (t - 1) Hbr).
    destruct (Z.eq_dec i (t - 2)) as [->|Hn].
    + rewrite get_put_eq, get_put_ne in H by (rewrite ?length_put; lia). lia.
    + assert (i = t - 1) as -> by lia.
      rewrite get_put_eq, get_put_ne in H by (rewrite ?length_put; lia). lia.
Qed.

(** X4.  A valid answer in which any one byte from the opcode to the last CRC
    byte has been replaced by another is reported as a corrupt response. *)
Theorem sendCommand_rejects_damaged_answer (st : RFID) (timeOut : Z) (r : list Z)
  (i b : Z) :
  length (msg st) = 255%nat -> 0 <= get (msg st) 1 <= 250 ->
  Spec.complete r = true -> Spec.crc_ok r = true ->
  2 <= i < Spec.total r -> 0 <= b < 256 -> b <> get r i ->
  peer (_rfidSerial st) (tx (_rfidSerial st) ++ [outgoing (msg st)]) = put r i b ->
  exists st',
    sendCommand st timeOut true = Some st'
    /\ get (msg st') 0 = ERROR_CORRUPT_RESPONSE.
Proof.
  intros Hm Hl Hc Hok Hi Hb Hne Hpeer.
  destruct (damaged_frame r i b Hc Hok Hi Hb Hne) as (Hc' & Hbad & _).
  destruct (sendCommand_reply st timeOut (put r i b) Hm Hl Hpeer Hc')
    as (st' & E & _ & _ & _ & H0).
  exists st'. split; [exact E|]. rewrite Hbad in H0. exact H0.
Qed.

(** The first byte of the answer takes no part in any test. *)
(** X5.  The first byte of the answer takes no part in the validation: an
    answer whose header byte is not [0xFF] is accepted like the original. *)
Theorem sendCommand_ignores_header (st : RFID) (timeOut : Z) (r : list Z) (b : Z) :
  length (msg st) = 255%nat -> 0 <= get (msg st) 1 <= 250 ->
  Spec.complete r = true -> Spec.crc_ok r = true -> get r 2 = get (msg st) 2 ->
  0 <= b < 256 ->
  peer (_rfidSerial st) (tx (_rfidSerial st) ++ [outgoing (msg st)]) = put r 0 b ->
  exists st',
    sendCommand st timeOut true = Some st'
    /\ get (msg st') 0 = ALL_GOOD
    /\ (forall j, 1 <= j < Spec.total r -> get (msg st') j = get r j).
Proof.
  intros Hm Hl Hc Hok Hop Hb Hpeer.
  pose proof (complete_inv r Hc) as (Hbr & Ht & Hlen).
  assert (Htot : Spec.total (put r 0 b) = Spec.total r).
  { unfold Spec.total. rewrite get_put_ne by lia. reflexivity. }
  assert (Hc' : Spec.complete (put r 0 b) = true).
  { unfold Spec.complete. rewrite Htot, length_put, bytes_ok_put by assumption.
    unfold Spec.complete in Hc. rewrite Hbr in Hc. exact Hc. }
  assert (Hok' : Spec.crc_ok (put r 0 b) = true).
  { unfold Spec.crc_ok in *. rewrite Htot. rewrite !get_put_ne by lia.
    rewrite put_insert by lia. rewrite drop_insert_lt by lia. exact Hok. }
  destruct (sendCommand_reply st timeOut (put r 0 b) Hm Hl Hpeer Hc')
    as (st' & E & _ & _ & Hmsg & H0).
  exists st'. split; [exact E|]. split.
  - rewrite Hok', get_put_ne, Hop, Z.eqb_refl in H0 by lia. exact H0.
  - intros j Hj. rewrite Hmsg by lia. apply get_put_ne. lia.
Qed.

(** ** Answers that never complete *)

Lemma receive_runs_dry (rx0 : list Z) :
  forall (m : list Z) (messageLength spot : Z),
    2 <= spot <= 254 -> messageLength <= 255 ->
    spot + Z.of_nat (length rx0) < messageLength
    \/ (messageLength = 255 /\ spot + Z.of_nat (length rx0) <= 255) ->
    exists m', receive rx0 m messageLength spot = TimedOut [] m'.
Proof.
  induction rx0 as [|b rx' IH]; intros m ml spot Hs Hml Hc; rewrite receive_eq.
  - destruct (Z.ltb_spec spot ml); [|cbn [length] in Hc; lia].
    eexists. reflexivity.
  - cbn [length] in Hc.
    destruct (Z.ltb_spec spot ml); [|lia].
    cbv zeta. destruct (Z.eqb_spec spot 1); [lia|].
    unfold MAX_MSG_SIZE.
    destruct (Z.eq_dec spot 254) as [->|Hne].
    + change ((254 + 1) mod 255) with 0.
      destruct rx' as [|c rx'']; [|cbn [length] in Hc; lia].
      rewrite receive_eq. destruct (Z.ltb_spec 0 ml); [|lia].
      eexists. reflexivity.
    + rewrite Z.mod_small by lia. apply IH; lia.
Qed.

Lemma receive_starved (r m : list Z) :
  length m = 255%nat -> bytes_ok r = true -> r <> [] ->
  Z.of_nat (length r) < Spec.total r <= 255
  \/ (Spec.total r = 255 /\ Z.of_nat (length r) <= 255) ->
  exists m', receive r m (MAX_MSG_SIZE - 1) 0 = TimedOut [] m'.
Proof.
  intros Hm Hb Hne Hc.
  destruct r as [|b0 [|b1 rest]]; [congruence| |].
  - rewrite receive_eq. change (0 <? MAX_MSG_SIZE - 1) with true. cbv iota zeta.
    change (0 =? 1) with false. cbv iota.
    change ((0 + 1) mod MAX_MSG_SIZE) with 1.
    rewrite receive_eq. change (1 <? MAX_MSG_SIZE - 1) with true. cbv iota.
    eexists. reflexivity.
  - assert (H1 : 0 <= b1 < 256) by apply (bytes_ok_get _ 1 Hb).
    assert (Etot : Spec.total (b0 :: b1 :: rest) = b1 + 7) by reflexivity.
    rewrite Etot in Hc. cbn [length] in Hc.
    rewrite receive_eq. change (0 <? MAX_MSG_SIZE - 1) with true. cbv iota zeta.
    change (0 =? 1) with false. cbv iota.
    change ((0 + 1) mod MAX_MSG_SIZE) with 1.
    rewrite receive_eq. change (1 <? MAX_MSG_SIZE - 1) with true. cbv iota zeta.
    change (1 =? 1) with true. cbv iota.
    change ((1 + 1) mod MAX_MSG_SIZE) with 2.
    rewrite get_put_eq by (rewrite length_put; lia).
    rewrite (u8_byte b1) by lia. rewrite (u8_byte (b1 + 7)) by lia.
    apply receive_runs_dry; lia.
Qed.

Lemma sendCommand_starved (st : RFID) (timeOut : Z) (r : list Z) :
  length (msg st) = 255%nat -> 0 <= get (msg st) 1 <= 250 -> bytes_ok r = true ->
  Z.of_nat (length r) < Spec.total r <= 255
  \/ (Spec.total r = 255 /\ Z.of_nat (length r) <= 255) ->
  peer (_rfidSerial st) (tx (_rfidSerial st) ++ [outgoing (msg st)]) = r ->
  exists st',
    sendCommand st timeOut true = Some st'
    /\ get (msg st') 0 = ERROR_COMMAND_RESPONSE_TIMEOUT
    /\ rx (_rfidSerial st') = []
    /\ tx (_rfidSerial st') = tx (_rfidSerial st) ++ [outgoing (msg st)].
Proof.
  intros Hm Hl Hb Hc Hpeer. rewrite sendCommand_eq. cbv zeta.
  destruct (Z.ltb_spec 255 (get (msg st) 1 + 5)); [lia|].
  cbn [negb]. cbv iota. fields. rewrite Hpeer.
  destruct r as [|b0 r'].
  - eexists. split; [reflexivity|]. fields.
    rewrite get_put_eq by (rewrite length_framed; lia). cbn. tauto.
  - destruct (receive_starved (b0 :: r') (framed (msg st))) as (m' & E);
      [rewrite length_framed; exact Hm | assumption | congruence | assumption |].
    assert (Hm' : length m' = 255%nat).
    { pose proof (receive_length (b0 :: r') (framed (msg st)) (MAX_MSG_SIZE - 1) 0) as HL.
      rewrite E in HL. cbn [received_msg] in HL. rewrite HL, length_framed. exact Hm. }
    cbn [app]. rewrite E. eexists. split; [reflexivity|].
    unfold verdict. fields.
    rewrite get_put_eq by lia. tauto.
Qed.

(** X6.  An answer that ends before the [msg[1] + 7] bytes it announces (the
    empty answer included) ends in the time-out code, with every byte that
    did arrive consumed. *)
Theorem sendCommand_short_answer_times_out (st : RFID) (timeOut : Z) (r : list Z) :
  length (msg st) = 255%nat -> 0 <= get (msg st) 1 <= 250 -> bytes_ok r = true ->
  Z.of_nat (length r) < Spec.total r <= 255 ->
  peer (_rfidSerial st) (tx (_rfidSerial st) ++ [outgoing (msg st)]) = r ->
  exists st',
    sendCommand st timeOut true = Some st'
    /\ get (msg st') 0 = ERROR_COMMAND_RESPONSE_TIMEOUT
    /\ rx (_rfidSerial st') = []
    /\ tx (_rfidSerial st') = tx (_rfidSerial st) ++ [outgoing (msg st)].
Proof.
  intros Hm Hl Hb Hc Hpeer.
  apply (sendCommand_starved st timeOut r); try assumption. left. exact Hc.
Qed.

(** X7.  A frame of 255 bytes (payload length 248) can never be received:
    [spot] is reduced modulo 255 and so never reaches [messageLength = 255];
    the call ends in the time-out code even for a well-formed frame. *)
Theorem sendCommand_cannot_take_255_bytes (st : RFID) (timeOut : Z) (r : list Z) :
  length (msg st) = 255%nat -> 0 <= get (msg st) 1 <= 250 -> bytes_ok r = true ->
  Spec.total r = 255 -> Z.of_nat (length r) <= 255 ->
  peer (_rfidSerial st) (tx (_rfidSerial st) ++ [outgoing (msg st)]) = r ->
  exists st',
    sendCommand st timeOut true = Some st'
    /\ get (msg st') 0 = ERROR_COMMAND_RESPONSE_TIMEOUT.
Proof.
  intros Hm Hl Hb Ht Hlen Hpeer.
  destruct (sendCommand_starved st timeOut r) as (st' & E & H0 & _); try assumption.
  - right. split; assumption.
  - exists st'. split; assumption.
Qed.

(** ** [check] *)

Lemma erase_spec (n : nat) :
  forall (m : list Z) (x : Z), 0 <= x ->
    length (erase m n x) = length m
    /\ (forall j, x <= j < x + Z.of_nat n -> get (erase m n x) j = 0)
    /\ (forall j, j < x \/ x + Z.of_nat n <= j -> get (erase m n x) j = get m j).
Proof.
  induction n as [|n IH]; intros m x Hx; cbn [erase].
  - split; [reflexivity|]. split; [lia|reflexivity].
  - destruct (IH (put m x 0) (x + 1)) as (L & Z0 & K); [lia|].
    split; [rewrite L; apply length_put|]. split.
    + intros j Hj. destruct (Z.eq_dec j x) as [->|Hne].
      * rewrite K by lia.
        destruct (Z.lt_ge_cases x (Z.of_nat (length m))).
        -- apply get_put_eq. lia.
        -- apply get_outside. rewrite length_put. lia.
      * apply Z0. lia.
    + intros j Hj. rewrite K by lia. apply get_put_ne. lia.
Qed.

Lemma check_loop_idle (rx0 : list Z) :
  forall st, _continuousModeTemp st = false ->
    snd (check_loop rx0 st) = false
    /\ rx (_rfidSerial (fst (check_loop rx0 st))) = []
    /\ tx (_rfidSerial (fst (check_loop rx0 st))) = tx (_rfidSerial st)
    /\ _continuousModeTemp (fst (check_loop rx0 st)) = false.
Proof.
  induction rx0 as [|b rx' IH]; intros st Hc; cbn [check_loop].
  - cbn. tauto.
  - cbv zeta. destruct (_ && _); [apply IH, Hc|].
    destruct (_ && _).
    + fields. rewrite Hc. apply (IH (with_head (with_msg st _) 0)), Hc.
    + apply (IH (with_head (with_msg st _) _)), Hc.
Qed.

(** X8.  Outside continuous mode [check] never reports a frame: it reads all
    the bytes that are waiting, writes nothing, and returns [false]. *)
Theorem check_idle_outside_continuous_mode (st : RFID) :
  _continuousModeTemp st = false ->
  snd (check st) = false
  /\ rx (_rfidSerial (fst (check st))) = []
  /\ tx (_rfidSerial (fst (check st))) = tx (_rfidSerial st).
Proof.
  intros Hc. destruct (check_loop_idle (rx (_rfidSerial st)) st Hc) as (A & B & C & _).
  unfold check. tauto.
Qed.

Lemma check_loop_bounds (rx0 : list Z) :
  forall st, 0 <= _head st < 255 -> length (msg st) = 255%nat ->
    0 <= _head (fst (check_loop rx0 st)) < 255
    /\ length (msg (fst (check_loop rx0 st))) = 255%nat
    /\ tx (_rfidSerial (fst (check_loop rx0 st))) = tx (_rfidSerial st)
    /\ peer (_rfidSerial (fst (check_loop rx0 st))) = peer (_rfidSerial st)
    /\ _continuousModeTemp (fst (check_loop rx0 st)) = _continuousModeTemp st.
Proof.
  induction rx0 as [|b rx' IH]; intros st Hh Hm; cbn [check_loop].
  - cbn. tauto.
  - cbv zeta. destruct (_ && _); [apply IH; assumption|].
    set (h := u8 (_head st + 1) mod MAX_MSG_SIZE).
    assert (Hr : 0 <= h < 255) by (apply Z.mod_pos_bound; reflexivity).
    set (m := put (msg st) (_head st) (u8 b)).
    assert (Hlm : length m = 255%nat) by (unfold m; rewrite length_put; exact Hm).
    destruct (_ && _).
    + destruct (erase_spec (Z.to_nat (MAX_MSG_SIZE - h)) m h) as (L & _); [lia|].
      fields.
      destruct (_continuousModeTemp st) eqn:Ec.
      * repeat match goal with |- context [if ?c then _ else _] => destruct c end;
          cbn; rewrite L, Hlm; repeat split; try lia; try assumption.
      * destruct (IH (with_head (with_msg st (erase m (Z.to_nat (MAX_MSG_SIZE - h)) h)) 0))
          as (A & B & C & D & E); [cbn; lia | cbn; rewrite L; exact Hlm |].
        cbn in C, D, E. rewrite Ec in E.
        repeat split; try assumption; try lia.
    + destruct (IH (with_head (with_msg st m) h)) as (A & B & C & D & E);
        [cbn; lia | exact Hlm |].
      cbn in C, D, E.
      repeat split; try assumption; lia.
Qed.

(** X9.  [check] keeps [_head] an index of [msg], whatever arrives: the store
    [msg[_head++]] never leaves the array.  It writes nothing to the stream
    and does not change the mode. *)
Theorem check_keeps_head_inside_msg (st : RFID) :
  0 <= _head st < 255 -> length (msg st) = 255%nat ->
  0 <= _head (fst (check st)) < 255
  /\ length (msg (fst (check st))) = 255%nat
  /\ tx (_rfidSerial (fst (check st))) = tx (_rfidSerial st)
  /\ peer (_rfidSerial (fst (check st))) = peer (_rfidSerial st)
  /\ _continuousModeTemp (fst (check st)) = _continuousModeTemp st.
Proof. intros Hh Hm. apply check_loop_bounds; assumption. Qed.

Lemma check_loop_skips (junk : list Z) :
  forall st rest, _head st = 0 -> bytes_ok junk = true ->
    Forall (fun b => b <> 0xFF) junk ->
    check_loop (junk ++ rest) st = check_loop rest st.
Proof.
  induction junk as [|b junk IH]; intros st rest Hh Hb Hj; [reflexivity|].
  cbn [app check_loop]. cbv zeta.
  apply andb_true_iff in Hb as [Hb1 Hb2]. apply is_byte_range in Hb1.
  inversion Hj as [|? ? Hne Hj']; subst.
  rewrite Hh, u8_byte by lia. change (0 =? 0) with true.
  destruct (Z.eqb_spec b 255); [contradiction|].
  cbn [andb negb]. apply IH; assumption.
Qed.

Lemma check_loop_accumulates (bytes : list Z) :
  forall (m : list Z) (h : Z) (c : bool) (t : Z) (s : Stream) (rest : list Z),
    bytes_ok bytes = true -> length m = 255%nat -> 2 <= h ->
    h + Z.of_nat (length bytes) < get m 1 + 7 -> get m 1 + 7 <= 254 ->
    exists m',
      check_loop (bytes ++ rest) (mkRFID m h c t s)
      = check_loop rest (mkRFID m' (h + Z.of_nat (length bytes)) c t s)
      /\ length m' = 255%nat
      /\ (forall j, 0 <= j < Z.of_nat (length bytes) -> get m' (h + j) = get bytes j)
      /\ (forall j, j < h \/ h + Z.of_nat (length bytes) <= j -> get m' j = get m j).
Proof.
  induction bytes as [|b bytes IH]; intros m h c t s rest Hb Hm Hh Hlt Hmax.
  - exists m. cbn [app length]. rewrite Z.add_0_r.
    split; [reflexivity|]. split; [exact Hm|]. split; [cbn [length]; lia|reflexivity].
  - apply andb_true_iff in Hb as [Hb1 Hb2]. apply is_byte_range in Hb1.
    cbn [length] in Hlt.
    cbn [app check_loop]. cbv zeta. fields.
    destruct (Z.eqb_spec h 0); [lia|]. cbn [andb].
    rewrite (u8_byte b) by lia. rewrite (u8_byte (h + 1)) by lia.
    unfold MAX_MSG_SIZE. rewrite (Z.mod_small (h + 1)) by lia.
    rewrite get_put_ne by lia.
    destruct (Z.eqb_spec (h + 1) (get m 1 + 7)); [lia|].
    rewrite andb_false_r.
    unfold with_head, with_msg. fields.
    destruct (IH (put m h b) (h + 1) c t s rest) as (m' & E & L & G & K);
      [assumption | rewrite length_put; exact Hm | lia
       | rewrite get_put_ne by lia; lia | rewrite get_put_ne by lia; lia |].
    exists m'. split.
    { rewrite E. f_equal. f_equal. cbn [length]. lia. }
    split; [exact L|]. split.
    + intros j Hj. cbn [length] in Hj.
      destruct (Z.eq_dec j 0) as [->|Hne].
      * rewrite Z.add_0_r, K by lia. rewrite get_put_eq by lia. reflexivity.
      * replace (h + j) with (h + 1 + (j - 1)) by lia. rewrite G by lia.
        replace j with ((j - 1) + 1) at 2 by lia. symmetry. apply get_cons_succ. lia.
    + intros j Hj. cbn [length] in Hj. rewrite K by lia. apply get_put_ne. lia.
Qed.

Lemma check_delivers (st : RFID) (junk f rest : list Z) :
  length (msg st) = 255%nat -> bytes_ok (msg st) = true ->
  _head st = 0 -> _continuousModeTemp st = true ->
  rx (_rfidSerial st) = junk ++ f ++ rest ->
  bytes_ok junk = true -> Forall (fun b => b <> 0xFF) junk ->
  Spec.complete f = true -> get f 0 = 0xFF -> Z.of_nat (length f) = Spec.total f ->
  snd (check st) = reported f
  /\ (forall j, 0 <= j < Spec.total f -> get (msg (fst (check st))) j = get f j)
  /\ (forall j, Spec.total f <= j -> get (msg (fst (check st))) j = 0)
  /\ _head (fst (check st)) = 0
  /\ rx (_rfidSerial (fst (check st))) = rest
  /\ _contTemp (fst (check st)) = sampled f (_contTemp st).
Proof.
  intros Hm Hmb Hh Hc Hrx Hjb Hj Hf H0 Hlen.
  pose proof (complete_inv f Hf) as (Hb & Ht & _).
  unfold check. rewrite Hrx, check_loop_skips by assumption.
  destruct st as [m h c t s]. cbn in Hm, Hmb, Hh, Hc, Hrx. subst h c.
  fields.
  destruct f as [|b0 [|b1 g]]; try (cbn in Hlen; unfold Spec.total in *; cbn in *; lia).
  assert (E0 : b0 = 255) by exact H0. subst b0.
  assert (H1 : 0 <= b1 < 256) by apply (bytes_ok_get _ 1 Hb).
  assert (Etot : Spec.total (255 :: b1 :: g) = b1 + 7) by reflexivity.
  rewrite Etot in *. cbn [length] in Hlen.
  assert (Hg : bytes_ok g = true).
  { cbn in Hb. apply andb_true_iff in Hb as [_ Hb]. exact Hb. }
  set (n := Z.to_nat (b1 + 4)).
  assert (Hn : Z.of_nat n = b1 + 4) by (unfold n; lia). clearbody n.
  assert (Hsplit : g = take n g ++ [get g (b1 + 4)]).
  { rewrite <- (take_drop n g) at 1. f_equal.
    apply list_eq_get; [rewrite length_drop; cbn [length]; lia|].
    intros j Hj'. rewrite length_drop in Hj'.
    assert (j = 0) as -> by lia. rewrite get_drop by lia.
    change (get [get g (b1 + 4)] 0) with (get g (b1 + 4)). f_equal. lia. }
  set (mid := take n g) in *. set (last := get g (b1 + 4)) in *.
  assert (Hmid : Z.of_nat (length mid) = b1 + 4).
  { unfold mid. rewrite length_take. lia. }
  assert (Hmidb : bytes_ok mid = true).
  { apply bytes_ok_Forall, Forall_take, bytes_ok_Forall, Hg. }
  assert (Hlast : 0 <= last < 256) by apply (bytes_ok_get _ _ Hg).
  pose proof (bytes_ok_get m 1 Hmb) as Hm1.
  (* the header byte *)
  cbn [app check_loop]. cbv zeta. fields.
  change (u8 255 =? 255) with true. change (0 =? 0) with true. cbn [andb negb].
  change (u8 (0 + 1) mod MAX_MSG_SIZE) with 1. change (0 <? 1) with true.
  rewrite get_put_ne by lia.
  destruct (Z.eqb_spec 1 (get m 1 + 7)); [lia|]. cbn [andb].
  (* the length byte *)
  unfold with_head, with_msg. fields.
  change (1 =? 0) with false. cbn [andb].
  change (u8 (1 + 1) mod MAX_MSG_SIZE) with 2. change (0 <? 2) with true.
  rewrite (u8_byte b1) by lia.
  rewrite get_put_eq by (rewrite length_put; lia).
  destruct (Z.eqb_spec 2 (b1 + 7)); [lia|]. cbn [andb]. fields.
  (* the body *)
  set (m2 := put (put m 0 (u8 255)) 1 b1).
  assert (Hm2 : length m2 = 255%nat) by (unfold m2; rewrite !length_put; exact Hm).
  assert (Hm21 : get m2 1 = b1) by (unfold m2; apply get_put_eq; rewrite length_put; lia).
  assert (Hrest : g ++ rest = mid ++ [last] ++ rest)
    by (rewrite Hsplit at 1; rewrite <- app_assoc; reflexivity).
  rewrite Hrest.
  destruct (check_loop_accumulates mid m2 2 true t s ([last] ++ rest))
    as (m3 & E & L3 & G3 & K3); [assumption | exact Hm2 | lia | lia | lia |].
  rewrite E. rewrite Hmid.
  (* the last byte *)
  cbn [app check_loop]. cbv zeta. fields.
  destruct (Z.eqb_spec (2 + (b1 + 4)) 0); [lia|]. cbn [andb].
  rewrite (u8_byte last) by lia. rewrite (u8_byte (2 + (b1 + 4) + 1)) by lia.
  unfold MAX_MSG_SIZE. rewrite (Z.mod_small (2 + (b1 + 4) + 1)) by lia.
  replace (2 + (b1 + 4) + 1) with (b1 + 7) by lia.
  replace (2 + (b1 + 4)) with (b1 + 6) by lia.
  rewrite get_put_ne by lia. rewrite K3, Hm21 by lia.
  rewrite Z.eqb_refl. destruct (Z.ltb_spec 0 (b1 + 7)); [|lia]. cbn [andb].
  set (m4 := erase (put m3 (b1 + 6) last) (Z.to_nat (255 - (b1 + 7))) (b1 + 7)).
  destruct (erase_spec (Z.to_nat (255 - (b1 + 7))) (put m3 (b1 + 6) last) (b1 + 7))
    as (L4 & Z4 & K4); [lia|]. fold m4 in L4, Z4, K4.
  assert (Hlow : forall j, 0 <= j < b1 + 7 -> get m4 j = get (255 :: b1 :: g) j).
  { intros j Hj'. rewrite K4 by lia.
    destruct (Z.eq_dec j 0) as [->|N0].
    { rewrite get_put_ne, K3 by lia. unfold m2. rewrite get_put_ne by lia.
      rewrite get_put_eq by lia. reflexivity. }
    destruct (Z.eq_dec j 1) as [->|N1].
    { rewrite get_put_ne, K3 by lia. exact Hm21. }
    replace j with ((j - 2) + 1 + 1) at 2 by lia.
    rewrite !get_cons_succ by lia. rewrite Hsplit.
    destruct (Z.eq_dec j (b1 + 6)) as [->|N6].
    - rewrite get_put_eq by lia. rewrite get_app_r by lia.
      replace (b1 + 6 - 2 - Z.of_nat (length mid)) with 0 by lia. reflexivity.
    - rewrite get_put_ne by lia. replace j with (2 + (j - 2)) at 1 by lia.
      rewrite G3 by lia. symmetry. apply get_app_l. lia. }
  assert (Hhigh : forall j, b1 + 7 <= j -> get m4 j = 0).
  { intros j Hj'. destruct (Z.lt_ge_cases j 255).
    - apply Z4. lia.
    - apply get_outside. rewrite L4, length_put. lia. }
  assert (Hall : forall j, 0 <= j -> get m4 j = get (255 :: b1 :: g) j).
  { intros j Hj'. destruct (Z.lt_ge_cases j (b1 + 7)).
    - apply Hlow. lia.
    - rewrite Hhigh by lia. symmetry. apply get_outside. cbn [length]. lia. }
  unfold sampled, reported.
  rewrite <- !(Hall 5), <- !(Hall 3), <- !(Hall 8), <- !(Hall 13), <- !(Hall 11),
    <- !(Hall 14) by lia.
  destruct (get m4 5 =? 16);
    [cbn [fst snd with_serial with_contTemp with_head with_msg msg _head
            _continuousModeTemp _contTemp _rfidSerial rx tx peer orb andb negb];
     repeat split; solve [reflexivity | exact Hlow | exact Hhigh]|].
  destruct (get m4 3 =? 4);
    [cbn [fst snd with_serial with_contTemp with_head with_msg msg _head
            _continuousModeTemp _contTemp _rfidSerial rx tx peer orb andb negb];
     repeat split; solve [reflexivity | exact Hlow | exact Hhigh]|].
  destruct (get m4 8 =? 2);
    [|cbn [fst snd with_serial with_contTemp with_head with_msg msg _head
            _continuousModeTemp _contTemp _rfidSerial rx tx peer orb andb negb];
     repeat split; solve [reflexivity | exact Hlow | exact Hhigh]].
  destruct (get m4 13 =? 1);
    [|cbn [fst snd with_serial with_contTemp with_head with_msg msg _head
            _continuousModeTemp _contTemp _rfidSerial rx tx peer orb andb negb];
     repeat split; solve [reflexivity | exact Hlow | exact Hhigh]].
  destruct (get m4 11 =? 130);
    cbn [fst snd with_serial with_contTemp with_head with_msg msg _head
            _continuousModeTemp _contTemp _rfidSerial rx tx peer orb andb negb];
     repeat split; solve [reflexivity | exact Hlow | exact Hhigh].
Qed.

(** X10.  In continuous mode, with no frame under way, [check] skips the bytes
    before the header [0xFF], collects the frame, clears the rest of [msg],
    leaves the bytes after the frame in the stream, reports the frame iff
    [msg[5] = 0x10] or [msg[3] = 0x04], and stores the temperature of a
    statistics frame. *)
Theorem check_delivers_frame (st : RFID) (junk f rest : list Z) :
  length (msg st) = 255%nat -> bytes_ok (msg st) = true ->
  _head st = 0 -> _continuousModeTemp st = true ->
  rx (_rfidSerial st) = junk ++ f ++ rest ->
  bytes_ok junk = true -> Forall (fun b => b <> 0xFF) junk ->
  Spec.complete f = true -> get f 0 = 0xFF -> Z.of_nat (length f) = Spec.total f ->
  snd (check st) = reported f
  /\ (forall j, 0 <= j < Spec.total f -> get (msg (fst (check st))) j = get f j)
  /\ (forall j, Spec.total f <= j -> get (msg (fst (check st))) j = 0)
  /\ _head (fst (check st)) = 0
  /\ rx (_rfidSerial (fst (check st))) = rest
  /\ _contTemp (fst (check st)) = sampled f (_contTemp st).
Proof. apply check_delivers. Qed.

(** ** Commands that are sent without waiting *)

Lemma sendMessage_no_wait (st : RFID) (opcode : Z) (data : list Z) (timeOut : Z) :
  length (msg st) = 255%nat -> 0 <= opcode < 256 ->
  bytes_ok data = true -> (length data <= 250)%nat ->
  exists st',
    sendMessage st opcode data (Z.of_nat (length data)) timeOut false = Some st'
    /\ tx (_rfidSerial st') = tx (_rfidSerial st) ++ [Spec.encode opcode data]
    /\ rx (_rfidSerial st') = []
    /\ length (msg st') = 255%nat
    /\ get (msg st') 0 = 0xFF
    /\ peer (_rfidSerial st') = peer (_rfidSerial st)
    /\ _head st' = _head st
    /\ _contTemp st' = _contTemp st.
Proof.
  intros Hm Hop Hd Hl.
  rewrite sendMessage_eq, sendCommand_eq. cbv zeta. fields.
  rewrite loaded_size by lia.
  destruct (Z.ltb_spec 255 (Z.of_nat (length data) + 5)); [lia|].
  cbn [negb]. cbv iota. eexists. split; [reflexivity|]. fields.
  rewrite sendMessage_writes_encode by assumption.
  rewrite length_framed, length_loaded.
  repeat split; try assumption; try reflexivity.
  unfold framed. cbv zeta. rewrite !get_put_ne by (rewrite ?get_put_ne by lia;
    rewrite ?loaded_size by lia; lia).
  apply get_put_eq. rewrite length_loaded. lia.
Qed.

(** X11.  [stopReading] sends the stop request without waiting for an answer,
    leaves nothing in the receive buffer and leaves continuous mode: a
    following [check] returns [false]. *)
Theorem stopReading_leaves_continuous_mode (st : RFID) :
  length (msg st) = 255%nat ->
  exists st',
    stopReading st = Some st'
    /\ tx (_rfidSerial st') = tx (_rfidSerial st) ++ [Spec.encode 0x2F [0x00; 0x00; 0x02]]
    /\ rx (_rfidSerial st') = []
    /\ _continuousModeTemp st' = false
    /\ snd (check st') = false.
Proof.
  intros Hm. unfold stopReading. cbv zeta.
  destruct (sendMessage_no_wait st TMR_SR_OPCODE_MULTI_PROTOCOL_TAG_OP [0; 0; 2]
              COMMAND_TIME_OUT Hm) as (st' & E & Htx & Hrx & _);
    [unfold TMR_SR_OPCODE_MULTI_PROTOCOL_TAG_OP; lia | reflexivity | cbn; lia |].
  change (Z.of_nat (length [0; 0; 2])) with 3 in E. rewrite E.
  eexists. split; [reflexivity|]. fields.
  repeat split; try assumption.
  apply check_loop_idle. reflexivity.
Qed.

(** ** Addresses *)

Lemma splice_address_spec (n : nat) :
  forall (blob : list Z) (base address x : Z),
    0 <= base -> 0 <= x -> base + x + Z.of_nat n <= Z.of_nat (length blob) ->
    length (splice_address blob base address n x) = length blob
    /\ (forall j, x <= j < x + Z.of_nat n ->
        get (splice_address blob base address n x) (base + j)
        = Z.land (Z.shiftr address (8 * (3 - j))) 0xFF)
    /\ (forall k, k < base + x \/ base + x + Z.of_nat n <= k ->
        get (splice_address blob base address n x) k = get blob k).
Proof.
  induction n as [|n IH]; intros blob base address x Hb Hx Hlen;
    cbn [splice_address].
  - split; [reflexivity|]. split; [lia|reflexivity].
  - destruct (IH (put blob (base + x) (Z.land (Z.shiftr address (8 * (3 - x))) 255))
                base address (x + 1)) as (L & G & K);
      [lia | lia | rewrite length_put; lia |].
    rewrite length_put in L. split; [exact L|]. split.
    + intros j Hj. destruct (Z.eq_dec j x) as [->|Hne].
      * rewrite K by lia. apply get_put_eq. lia.
      * apply G. lia.
    + intros k Hk. rewrite K by lia. apply get_put_ne. lia.
Qed.

Lemma land_byte (a : Z) : 0 <= Z.land a 0xFF < 256.
Proof.
  change 255 with (Z.ones 8). rewrite Z.land_ones by lia.
  apply Z.mod_pos_bound. reflexivity.
Qed.

Lemma bytes_ok_splice_address (n : nat) :
  forall (blob : list Z) (base address x : Z),
    bytes_ok blob = true -> bytes_ok (splice_address blob base address n x) = true.
Proof.
  induction n as [|n IH]; intros blob base address x Hb; cbn [splice_address].
  - exact Hb.
  - apply IH, bytes_ok_put; [exact Hb | apply land_byte].
Qed.

Lemma address_value (a : Z) :
  0 <= a < 4294967296 ->
  Z.land (Z.shiftr a (8 * (3 - 0))) 0xFF * 16777216
  + Z.land (Z.shiftr a (8 * (3 - 1))) 0xFF * 65536
  + Z.land (Z.shiftr a (8 * (3 - 2))) 0xFF * 256
  + Z.land (Z.shiftr a (8 * (3 - 3))) 0xFF = a.
Proof.
  intros Ha. change 255 with (Z.ones 8).
  rewrite !Z.land_ones, !Z.shiftr_div_pow2 by lia.
  change (2 ^ (8 * (3 - 0))) with 16777216. change (2 ^ (8 * (3 - 1))) with 65536.
  change (2 ^ (8 * (3 - 2))) with 256. change (2 ^ (8 * (3 - 3))) with 1.
  change (2 ^ 8) with 256.
  Z.div_mod_to_equations. lia.
Qed.

(** ** [startReadingBank] *)

(** X12.  [startReadingBank] sends three frames; the last carries the bank,
    the address big-endian in four bytes and a word count that is never
    above 32 (and 32 when all of the USER bank is asked for); the driver is
    in continuous mode afterwards. *)
Theorem startReadingBank_asks_at_most_32_words (st : RFID) (bank address len : Z) :
  length (msg st) = 255%nat ->
  0 <= bank < 256 -> 0 <= address < 4294967296 -> 0 <= len < 256 ->
  exists st' configBlob,
    startReadingBank st bank address len = Some st'
    /\ tx (_rfidSerial st')
       = tx (_rfidSerial st)
         ++ [Spec.encode 0x9A [0x01; 0x08; 0x00];
             Spec.encode 0x9A [0x01; 0x0C; 0x00];
             Spec.encode 0x2F configBlob]
    /\ length configBlob = 30%nat
    /\ get configBlob 24 = bank
    /\ get configBlob 25 * 16777216 + get configBlob 26 * 65536
       + get configBlob 27 * 256 + get configBlob 28 = address
    /\ get configBlob 29 = Z.min 32 (if (bank =? 3) && (len =? 0) then 32 else len)
    /\ _continuousModeTemp st' = true.
Proof.
  intros Hm Hbank Haddr Hlen. unfold startReadingBank. cbv zeta.
  set (blob0 := put _ 24 bank).
  set (words := if bank =? TMR_GEN2_BANK_USER then _ else _).
  assert (Hw : words = Z.min 32 (if (bank =? 3) && (len =? 0) then 32 else len)
               /\ 0 <= words <= 32).
  { unfold words, TMR_GEN2_BANK_USER.
    destruct (bank =? 3); cbn [andb].
    - destruct (Z.eqb_spec len 0); cbn [orb]; [lia|].
      destruct (Z.ltb_spec 32 len); lia.
    - destruct (Z.ltb_spec 32 len); lia. }
  destruct Hw as (Hw & Hwr). clearbody words.
  assert (Hl0 : length blob0 = 30%nat) by (unfold blob0; rewrite length_put; reflexivity).
  assert (Hb0 : bytes_ok blob0 = true)
    by (unfold blob0; apply bytes_ok_put; [reflexivity | lia]).
  destruct (splice_address_spec 4 blob0 25 address 0) as (L & G & K);
    [lia | lia | rewrite Hl0; cbn; lia |].
  set (blob1 := splice_address blob0 25 address 4 0) in *.
  set (blob := put blob1 29 words).
  assert (Hl : length blob = 30%nat) by (unfold blob; rewrite length_put, L; exact Hl0).
  assert (Hb : bytes_ok blob = true).
  { unfold blob, blob1. apply bytes_ok_put; [|lia].
    apply bytes_ok_splice_address, Hb0. }
  destruct (sendMessage_frame st TMR_SR_OPCODE_SET_READER_OPTIONAL_PARAMS
              [1; 8; 0] COMMAND_TIME_OUT true Hm)
    as (st1 & E1 & T1 & M1 & _); [cbv; split; congruence | reflexivity | cbn; lia |].
  change (Z.of_nat (length [1; 8; 0])) with 3 in E1. rewrite E1.
  destruct (sendMessage_frame st1 TMR_SR_OPCODE_SET_READER_OPTIONAL_PARAMS
              [1; 12; 0] COMMAND_TIME_OUT true M1)
    as (st2 & E2 & T2 & M2 & _); [cbv; split; congruence | reflexivity | cbn; lia |].
  change (Z.of_nat (length [1; 12; 0])) with 3 in E2.
  unfold disableReadFilter, setReaderConfiguration. rewrite E2.
  destruct (sendMessage_frame
              (mkRFID (msg st2) (_head st2) true 0 (_rfidSerial st2))
              TMR_SR_OPCODE_MULTI_PROTOCOL_TAG_OP blob COMMAND_TIME_OUT true M2)
    as (st3 & E3 & T3 & M3 & _ & _ & Hflag & _); [cbv; split; congruence | exact Hb | lia |].
  rewrite Hl in E3. change (Z.of_nat 30) with 30 in E3.
  exists st3, blob. split; [exact E3|]. fields_in T3. fields_in Hflag.
  split.
  { rewrite T3, T2, T1, <- !app_assoc. reflexivity. }
  split; [exact Hl|].
  unfold blob. rewrite !get_put_ne by lia. rewrite get_put_eq by lia.
  rewrite K by lia.
  pose proof (G 0 ltac:(lia)) as G0. pose proof (G 1 ltac:(lia)) as G1.
  pose proof (G 2 ltac:(lia)) as G2. pose proof (G 3 ltac:(lia)) as G3.
  change (25 + 0) with 25 in G0. change (25 + 1) with 26 in G1.
  change (25 + 2) with 27 in G2. change (25 + 3) with 28 in G3.
  rewrite G0, G1, G2, G3.
  rewrite address_value by lia.
  unfold blob0. rewrite get_put_eq by (cbn; lia).
  repeat split; try assumption.
Qed.

(** ** Settings *)

(** X13.  An M6E is never sent a power mode above 3: a mode above 4 is
    refused without any traffic, and mode 4 (sleep) goes out as mode 2. *)
Theorem setPowerMode_never_sends_sleep_to_M6E (st : RFID) (mode : Z) :
  length (msg st) = 255%nat -> 0 <= mode < 256 ->
  exists st' ok,
    setPowerMode st ThingMagic_M6E_NANO mode = Some (st', ok)
    /\ (4 < mode -> st' = st /\ ok = false)
    /\ (mode <= 4 ->
        tx (_rfidSerial st')
        = tx (_rfidSerial st) ++ [Spec.encode 0x98 [if mode =? 4 then 2 else mode]]
        /\ ok = (get (msg st') 0 =? ALL_GOOD)).
Proof.
  intros Hm Hmode. unfold setPowerMode.
  destruct (Z.ltb_spec 4 mode) as [Hgt|Hle].
  - exists st, false. split; [reflexivity|]. split; [tauto|lia].
  - cbv zeta.
    destruct (sendMessage_frame st TMR_SR_OPCODE_SET_POWER_MODE
                [if mode =? 4 then 2 else mode] COMMAND_TIME_OUT true Hm)
      as (st' & E & T & _).
    { cbv; split; congruence. }
    { cbn [bytes_ok forallb]. rewrite andb_true_r. apply is_byte_range.
      destruct (mode =? 4); lia. }
    { cbn; lia. }
    change (Z.of_nat (length [if mode =? 4 then 2 else mode])) with 1 in E.
    rewrite E.
    exists st', (get (msg st') 0 =? ALL_GOOD).
    split; [destruct (get (msg st') 0 =? ALL_GOOD); reflexivity|].
    split; [lia|]. intros _. split; [exact T|reflexivity].
Qed.

(** X14.  [setGen2Q] tests [init_value] only after the Q type has been sent:
    with an initial value above 10 it returns [false] although the module
    has accepted the new Q type. *)
Theorem setGen2Q_rejects_init_value_after_setting_Q (st : RFID) (Q_state init_value : Z) :
  length (msg st) = 255%nat -> 0 <= Q_state < 256 -> Q_state <> TMR_SR_GEN2_Q_INVALID ->
  10 < init_value ->
  peer (_rfidSerial st) (tx (_rfidSerial st) ++ [Spec.encode 0x9B [0x05; 0x12; Q_state]])
  = Spec.response 0x9B 0 [] ->
  exists st',
    setGen2Q st Q_state init_value true = Some (st', false)
    /\ tx (_rfidSerial st')
       = tx (_rfidSerial st) ++ [Spec.encode 0x9B [0x05; 0x12; Q_state]]
    /\ get (msg st') 0 = ALL_GOOD
    /\ get (msg st') 3 = 0 /\ get (msg st') 4 = 0.
Proof.
  intros Hm HQ Hvalid Hinit Hpeer. unfold setGen2Q.
  destruct (Z.eqb_spec Q_state TMR_SR_GEN2_Q_INVALID); [contradiction|].
  destruct (sendMessage_answered st TMR_SR_OPCODE_SET_PROTOCOL_PARAM [5; 18; Q_state]
              COMMAND_TIME_OUT 0 [] Hm)
    as (st' & E & (A0 & _ & _ & A3 & A4 & _) & T & _).
  { cbv; split; congruence. }
  { cbn [bytes_ok forallb]. rewrite andb_true_r.
    change (is_byte Q_state = true). apply is_byte_range. lia. }
  { cbn; lia. }
  { lia. }
  { reflexivity. }
  { cbn; lia. }
  { exact Hpeer. }
  change (Z.of_nat (length [5; 18; Q_state])) with 3 in E. rewrite E.
  change (0 / 256) with 0 in A3. change (0 mod 256) with 0 in A4.
  rewrite A0, A3, A4. cbn [negb orb Z.eqb ALL_GOOD]. 
  change (ALL_GOOD =? ALL_GOOD) with true. cbn [negb orb].
  destruct (Z.ltb_spec 10 init_value); [|lia].
  exists st'. repeat split; assumption.
Qed.

Lemma power_bytes_value (p : Z) :
  -32768 <= p < 32768 ->
  exists hi lo,
    power_bytes p 2 2 0 = [hi; lo]
    /\ 0 <= hi < 256 /\ 0 <= lo < 256
    /\ hi * 256 + lo = p mod 65536.
Proof.
  intros Hp. exists (u8 (Z.shiftr p 8)), (u8 (Z.shiftr p 0)).
  split; [reflexivity|]. unfold u8.
  rewrite Z.shiftr_0_r, Z.shiftr_div_pow2 by lia. change (2 ^ 8) with 256.
  repeat split; try (apply Z.mod_pos_bound; reflexivity).
  Z.div_mod_to_equations. lia.
Qed.

Lemma setReadPower_frame (st : RFID) (powerSetting : Z) :
  length (msg st) = 255%nat -> -32768 <= powerSetting < 32768 ->
  exists st' hi lo,
    setReadPower st powerSetting = Some st'
    /\ tx (_rfidSerial st') = tx (_rfidSerial st) ++ [Spec.encode 0x92 [hi; lo]]
    /\ hi * 256 + lo = Z.min powerSetting 2700 mod 65536.
Proof.
  intros Hm Hp. unfold setReadPower. cbv zeta.
  set (p := if 2700 <? powerSetting then 2700 else powerSetting).
  assert (Hmin : p = Z.min powerSetting 2700)
    by (unfold p; destruct (Z.ltb_spec 2700 powerSetting); lia).
  clearbody p.
  destruct (power_bytes_value p) as (hi & lo & Eb & Hhi & Hlo & Hv); [lia|].
  change (Z.to_nat 2) with 2%nat. rewrite Eb.
  destruct (sendMessage_frame st TMR_SR_OPCODE_SET_READ_TX_POWER [hi; lo]
              COMMAND_TIME_OUT true Hm) as (st' & E & T & _).
  { cbv; split; congruence. }
  { cbn [bytes_ok forallb]. rewrite andb_true_r.
    apply andb_true_iff. split; apply is_byte_range; assumption. }
  { cbn; lia. }
  change (Z.of_nat (length [hi; lo])) with 2 in E.
  exists st', hi, lo. rewrite <- Hmin. repeat split; assumption.
Qed.

Lemma setWritePower_frame (st : RFID) (powerSetting : Z) :
  length (msg st) = 255%nat -> -32768 <= powerSetting < 32768 ->
  exists st' hi lo,
    setWritePower st powerSetting = Some st'
    /\ tx (_rfidSerial st') = tx (_rfidSerial st) ++ [Spec.encode 0x94 [hi; lo]]
    /\ hi * 256 + lo = powerSetting mod 65536.
Proof.
  intros Hm Hp. unfold setWritePower. cbv zeta.
  destruct (power_bytes_value powerSetting) as (hi & lo & Eb & Hhi & Hlo & Hv); [lia|].
  change (Z.to_nat 2) with 2%nat. rewrite Eb.
  destruct (sendMessage_frame st TMR_SR_OPCODE_SET_WRITE_TX_POWER [hi; lo]
              COMMAND_TIME_OUT true Hm) as (st' & E & T & _).
  { cbv; split; congruence. }
  { cbn [bytes_ok forallb]. rewrite andb_true_r.
    apply andb_true_iff. split; apply is_byte_range; assumption. }
  { cbn; lia. }
  change (Z.of_nat (length [hi; lo])) with 2 in E.
  exists st', hi, lo. repeat split; assumption.
Qed.

(** X15.  [setReadPower] never sends a power above 2700; [setWritePower]
    sends its argument as it is.  Both send the 16-bit value high byte
    first. *)
Theorem power_limit_applies_to_reads_only (st : RFID) (powerSetting : Z) :
  length (msg st) = 255%nat -> -32768 <= powerSetting < 32768 ->
  (exists st' hi lo,
     setReadPower st powerSetting = Some st'
     /\ tx (_rfidSerial st') = tx (_rfidSerial st) ++ [Spec.encode 0x92 [hi; lo]]
     /\ hi * 256 + lo = Z.min powerSetting 2700 mod 65536)
  /\ (exists st' hi lo,
       setWritePower st powerSetting = Some st'
       /\ tx (_rfidSerial st') = tx (_rfidSerial st) ++ [Spec.encode 0x94 [hi; lo]]
       /\ hi * 256 + lo = powerSetting mod 65536).
Proof.
  intros Hm Hp. split.
  - apply setReadPower_frame; assumption.
  - apply setWritePower_frame; assumption.
Qed.

(** ** Reading tag memory *)

Lemma status_zero (m : list Z) :
  0 <= get m 3 < 256 -> 0 <= get m 4 < 256 ->
  (u16 (Z.lor (Z.shiftl (get m 3) 8) (get m 4)) =? 0)
  = (get m 3 * 256 + get m 4 =? 0).
Proof.
  intros H3 H4. rewrite lor_shifted_byte by assumption.
  unfold u16. rewrite Z.mod_small by lia. reflexivity.
Qed.

Lemma load_response_answered (st' : RFID) (opcode status : Z) (payload dataRead : list Z)
  (dataLengthRead : Z) :
  answered st' opcode status payload -> 0 <= status < 65536 ->
  0 <= dataLengthRead -> dataLengthRead <= Z.of_nat (length dataRead) ->
  exists buf,
    load_response (msg st') dataRead dataLengthRead
    = (if status =? 0 then RESPONSE_SUCCESS else RESPONSE_FAIL,
       buf,
       if status =? 0 then Z.min (Z.of_nat (length payload)) dataLengthRead else 0)
    /\ length buf = length dataRead
    /\ (status <> 0 -> buf = dataRead)
    /\ (status = 0 ->
        (forall j, 0 <= j < Z.min (Z.of_nat (length payload)) dataLengthRead ->
           get buf j = get payload j)
        /\ (forall j, Z.min (Z.of_nat (length payload)) dataLengthRead <= j ->
           get buf j = get dataRead j)).
Proof.
  intros (A0 & A1 & A2 & A3 & A4 & A5 & _) Hst Hd Hroom.
  unfold load_response. rewrite A0. change (ALL_GOOD =? ALL_GOOD) with true.
  cbv iota zeta.
  rewrite status_zero by (rewrite ?A3, ?A4; Z.div_mod_to_equations; lia).
  rewrite A3, A4.
  replace (status / 256 * 256 + status mod 256) with status
    by (Z.div_mod_to_equations; lia).
  destruct (Z.eqb_spec status 0) as [->|Hne].
  - rewrite A1.
    set (n := if Z.of_nat (length payload) <? dataLengthRead
              then Z.of_nat (length payload) else dataLengthRead).
    assert (Hn : n = Z.min (Z.of_nat (length payload)) dataLengthRead)
      by (unfold n; destruct (Z.ltb_spec (Z.of_nat (length payload)) dataLengthRead); lia).
    clearbody n. subst n.
    destruct (copy_bank_spec (msg st') 5
                (Z.to_nat (Z.min (Z.of_nat (length payload)) dataLengthRead)) dataRead 0)
      as (L & G & K); [lia|].
    eexists. split; [reflexivity|]. split; [exact L|]. split; [congruence|].
    intros _. split.
    + intros j Hj. rewrite G by lia. apply A5. lia.
    + intros j Hj. apply K. lia.
  - exists dataRead. split; [reflexivity|]. split; [reflexivity|].
    split; [reflexivity|]. congruence.
Qed.

Lemma read_request (timeOut bank address words : Z) :
  put (splice_address
         (put (put (put (replicate 8 0) 0 (Z.land (Z.shiftr timeOut 8) 0xFF))
                 1 (Z.land timeOut 0xFF)) 2 bank) 3 address 4 0) 7 words
  = [Z.land (Z.shiftr timeOut 8) 0xFF; Z.land timeOut 0xFF; bank;
     Z.land (Z.shiftr address 24) 0xFF; Z.land (Z.shiftr address 16) 0xFF;
     Z.land (Z.shiftr address 8) 0xFF; Z.land (Z.shiftr address 0) 0xFF; words].
Proof. reflexivity. Qed.

Lemma bytes_ok_read_request (timeOut bank address words : Z) :
  0 <= bank < 256 -> 0 <= words < 256 ->
  bytes_ok [Z.land (Z.shiftr timeOut 8) 0xFF; Z.land timeOut 0xFF; bank;
            Z.land (Z.shiftr address 24) 0xFF; Z.land (Z.shiftr address 16) 0xFF;
            Z.land (Z.shiftr address 8) 0xFF; Z.land (Z.shiftr address 0) 0xFF; words]
  = true.
Proof.
  intros Hb Hw. apply bytes_ok_Forall.
  repeat (apply Forall_cons; split; [first [apply land_byte | lia]|]).
  apply Forall_nil. exact I.
Qed.

Lemma readData_eq (st : RFID) (bank address : Z) (dataRead : list Z)
  (dataLengthRead timeOut : Z) :
  readData st bank address dataRead dataLengthRead timeOut
  = match
      sendMessage st TMR_SR_OPCODE_READ_TAG_DATA
        [Z.land (Z.shiftr timeOut 8) 0xFF; Z.land timeOut 0xFF; bank;
         Z.land (Z.shiftr address 24) 0xFF; Z.land (Z.shiftr address 16) 0xFF;
         Z.land (Z.shiftr address 8) 0xFF; Z.land (Z.shiftr address 0) 0xFF;
         if bank =? TMR_GEN2_BANK_USER then 0 else dataLengthRead / 2]
        8 timeOut true
    with
    | Some st => Some (st, load_response (msg st) dataRead dataLengthRead)
    | None => None
    end.
Proof.
  unfold readData. cbv zeta. rewrite read_request.
  destruct (bank =? TMR_GEN2_BANK_USER); reflexivity.
Qed.

(** X16.  Round trip of [readData]: the request carries time-out, bank,
    address and the word count ([dataLengthRead / 2], or 0 for the USER
    bank); with status 0 the caller gets the first
    [min (payload length) dataLengthRead] payload bytes and the rest of the
    buffer untouched; with any other status [RESPONSE_FAIL], length 0 and
    the buffer untouched. *)
Theorem readData_round_trip (st : RFID) (bank address : Z) (dataRead : list Z)
  (dataLengthRead timeOut : Z) (status : Z) (payload : list Z) :
  length (msg st) = 255%nat ->
  0 <= bank < 256 -> 0 <= dataLengthRead < 256 ->
  dataLengthRead <= Z.of_nat (length dataRead) ->
  0 <= status < 65536 -> bytes_ok payload = true -> (length payload <= 247)%nat ->
  peer (_rfidSerial st)
    (tx (_rfidSerial st)
     ++ [Spec.encode 0x28
           [Z.land (Z.shiftr timeOut 8) 0xFF; Z.land timeOut 0xFF; bank;
            Z.land (Z.shiftr address 24) 0xFF; Z.land (Z.shiftr address 16) 0xFF;
            Z.land (Z.shiftr address 8) 0xFF; Z.land (Z.shiftr address 0) 0xFF;
            if bank =? 3 then 0 else dataLengthRead / 2]])
  = Spec.response 0x28 status payload ->
  exists st' buf,
    readData st bank address dataRead dataLengthRead timeOut
    = Some (st',
            (if status =? 0 then RESPONSE_SUCCESS else RESPONSE_FAIL,
             buf,
             if status =? 0 then Z.min (Z.of_nat (length payload)) dataLengthRead else 0))
    /\ length buf = length dataRead
    /\ (status <> 0 -> buf = dataRead)
    /\ (status = 0 ->
        (forall j, 0 <= j < Z.min (Z.of_nat (length payload)) dataLengthRead ->
           get buf j = get payload j)
        /\ (forall j, Z.min (Z.of_nat (length payload)) dataLengthRead <= j ->
           get buf j = get dataRead j)).
Proof.
  intros Hm Hbank Hd Hroom Hst Hp Hpl Hpeer. rewrite readData_eq.
  set (words := if bank =? TMR_GEN2_BANK_USER then 0 else dataLengthRead / 2) in *.
  assert (Hw : 0 <= words < 256).
  { unfold words. destruct (bank =? TMR_GEN2_BANK_USER); [lia|].
    Z.div_mod_to_equations. lia. }
  destruct (sendMessage_answered st TMR_SR_OPCODE_READ_TAG_DATA _ timeOut status payload Hm
              ltac:(cbv; split; congruence)
              (bytes_ok_read_request timeOut bank address words Hbank Hw)
              ltac:(cbn; lia) Hst Hp Hpl Hpeer) as (st' & E & A & _).
  change (Z.of_nat (length _)) with 8 in E. rewrite E.
  destruct (load_response_answered st' TMR_SR_OPCODE_READ_TAG_DATA status payload
              dataRead dataLengthRead A Hst ltac:(lia) Hroom) as (buf & EL & R).
  exists st', buf. rewrite EL. split; [reflexivity | exact R].
Qed.

(** X17.  When the module does not answer, or not completely, [readData]
    returns [RESPONSE_FAIL] with length 0 and the caller's buffer untouched. *)
Theorem readData_fails_without_answer (st : RFID) (bank address : Z) (dataRead : list Z)
  (dataLengthRead timeOut : Z) (r : list Z) :
  length (msg st) = 255%nat -> 0 <= bank < 256 -> 0 <= dataLengthRead < 256 ->
  bytes_ok r = true -> Z.of_nat (length r) < Spec.total r <= 255 ->
  (forall h, peer (_rfidSerial st) h = r) ->
  exists st',
    readData st bank address dataRead dataLengthRead timeOut
    = Some (st', (RESPONSE_FAIL, dataRead, 0))
    /\ get (msg st') 0 = ERROR_COMMAND_RESPONSE_TIMEOUT.
Proof.
  intros Hm Hbank Hd Hr Hshort Hpeer. rewrite readData_eq, sendMessage_eq.
  destruct (sendCommand_starved
              (with_msg st (loaded (msg st) TMR_SR_OPCODE_READ_TAG_DATA
                 [Z.land (Z.shiftr timeOut 8) 0xFF; Z.land timeOut 0xFF; bank;
                  Z.land (Z.shiftr address 24) 0xFF; Z.land (Z.shiftr address 16) 0xFF;
                  Z.land (Z.shiftr address 8) 0xFF; Z.land (Z.shiftr address 0) 0xFF;
                  if bank =? TMR_GEN2_BANK_USER then 0 else dataLengthRead / 2] 8))
              timeOut r) as (st' & E & H0 & _).
  { fields. rewrite length_loaded. exact Hm. }
  { fields. rewrite loaded_size by lia. lia. }
  { exact Hr. }
  { left. exact Hshort. }
  { fields. apply Hpeer. }
  rewrite E. exists st'. split; [|exact H0].
  unfold load_response. rewrite H0. reflexivity.
Qed.

(** ** Writing tag memory *)

Lemma load_data_ext (d1 d2 : list Z) (n : nat) :
  forall (m : list Z) (x : Z),
    (forall j, x <= j < x + Z.of_nat n -> get d1 j = get d2 j) ->
    load_data m d1 n x = load_data m d2 n x.
Proof.
  induction n as [|n IH]; intros m x H; [reflexivity|].
  cbn [load_data]. rewrite (H x) by lia. apply IH. intros j Hj. apply H. lia.
Qed.

Lemma sendMessage_prefix (st : RFID) (opcode : Z) (data : list Z) (size timeOut : Z)
  (waitForResponse : bool) :
  0 <= size <= Z.of_nat (length data) ->
  sendMessage st opcode data size timeOut waitForResponse
  = sendMessage st opcode (take (Z.to_nat size) data)
      (Z.of_nat (length (take (Z.to_nat size) data))) timeOut waitForResponse.
Proof.
  intros Hs. rewrite length_take, Nat.min_l, Z2Nat.id by lia.
  rewrite !sendMessage_eq. unfold loaded.
  rewrite (load_data_ext data (take (Z.to_nat size) data)); [reflexivity|].
  intros j Hj. symmetry. apply get_take. lia.
Qed.

Lemma splice_data_spec (dataToRecord : list Z) (n : nat) :
  forall (data : list Z) (x : Z),
    0 <= x -> 8 + x + Z.of_nat n <= Z.of_nat (length data) ->
    length (splice_data data dataToRecord n x) = length data
    /\ (forall j, x <= j < x + Z.of_nat n ->
        get (splice_data data dataToRecord n x) (8 + j) = get dataToRecord j)
    /\ (forall k, k < 8 + x \/ 8 + x + Z.of_nat n <= k ->
        get (splice_data data dataToRecord n x) k = get data k).
Proof.
  induction n as [|n IH]; intros data x Hx Hlen; cbn [splice_data].
  - split; [reflexivity|]. split; [lia|reflexivity].
  - destruct (IH (put data (8 + x) (get dataToRecord x)) (x + 1)) as (L & G & K);
      [lia | rewrite length_put; lia |].
    rewrite length_put in L. split; [exact L|]. split.
    + intros j Hj. destruct (Z.eq_dec j x) as [->|Hne].
      * rewrite K by lia. apply get_put_eq. lia.
      * apply G. lia.
    + intros k Hk. rewrite K by lia. apply get_put_ne. lia.
Qed.

(** The array [data] that [writeData] builds. *)
Lemma write_request (timeOut bank address : Z) (dataToRecord : list Z) (n : Z) :
  0 <= n <= Z.of_nat (length dataToRecord) ->
  splice_data
    (put (splice_address
            (put (put (put (replicate (Z.to_nat (8 + n)) 0)
                         0 (Z.land (Z.shiftr timeOut 8) 0xFF))
                    1 (Z.land timeOut 0xFF)) 2 0x00) 3 address 4 0) 7 bank)
    dataToRecord (Z.to_nat n) 0
  = [Z.land (Z.shiftr timeOut 8) 0xFF; Z.land timeOut 0xFF; 0x00;
     Z.land (Z.shiftr address 24) 0xFF; Z.land (Z.shiftr address 16) 0xFF;
     Z.land (Z.shiftr address 8) 0xFF; Z.land (Z.shiftr address 0) 0xFF; bank]
    ++ take (Z.to_nat n) dataToRecord.
Proof.
  intros Hn.
  set (d0 := put (put (put (replicate (Z.to_nat (8 + n)) 0) 0 _) 1 _) 2 0).
  assert (L0 : length d0 = Z.to_nat (8 + n))
    by (unfold d0; rewrite !length_put, length_replicate; reflexivity).
  destruct (splice_address_spec 4 d0 3 address 0) as (L1 & G1 & K1); [lia | lia | lia |].
  set (d1 := splice_address d0 3 address 4 0) in *.
  set (d2 := put d1 7 bank).
  assert (L2 : length d2 = Z.to_nat (8 + n)) by (unfold d2; rewrite length_put; lia).
  destruct (splice_data_spec dataToRecord (Z.to_nat n) d2 0) as (L3 & G3 & K3);
    [lia | lia |].
  apply list_eq_get.
  { rewrite L3, L2, length_app, length_take. cbn [length]. lia. }
  intros j Hj. rewrite L3, L2 in Hj.
  destruct (Z.lt_ge_cases j 8) as [Hlt|Hge].
  - rewrite K3 by lia. rewrite get_app_l by (cbn [length]; lia).
    assert (Hcases : j = 0 \/ j = 1 \/ j = 2 \/ j = 3 \/ j = 4 \/ j = 5 \/ j = 6 \/ j = 7)
      by lia.
    unfold d2.
    destruct Hcases as [->|[->|[->|[->|[->|[->|[->| ->]]]]]]].
    + rewrite get_put_ne, K1 by lia. unfold d0. rewrite !get_put_ne by lia.
      apply get_put_eq. rewrite length_replicate. lia.
    + rewrite get_put_ne, K1 by lia. unfold d0. rewrite get_put_ne by lia.
      apply get_put_eq. rewrite length_put, length_replicate. lia.
    + rewrite get_put_ne, K1 by lia. unfold d0.
      apply get_put_eq. rewrite !length_put, length_replicate. lia.
    + rewrite get_put_ne by lia. apply (G1 0). lia.
    + rewrite get_put_ne by lia. apply (G1 1). lia.
    + rewrite get_put_ne by lia. apply (G1 2). lia.
    + rewrite get_put_ne by lia. apply (G1 3). lia.
    + apply get_put_eq. lia.
  - replace j with (8 + (j - 8)) at 1 by lia. rewrite G3 by lia.
    rewrite get_app_r by (cbn [length]; lia). cbn [length].
    rewrite get_take by lia. f_equal.
Qed.

Lemma writeData_eq (st : RFID) (bank address : Z) (dataToRecord : list Z)
  (dataLengthToRecord timeOut : Z) :
  0 <= dataLengthToRecord <= Z.of_nat (length dataToRecord) ->
  writeData st bank address dataToRecord dataLengthToRecord timeOut
  = match
      sendMessage st TMR_SR_OPCODE_WRITE_TAG_DATA
        ([Z.land (Z.shiftr timeOut 8) 0xFF; Z.land timeOut 0xFF; 0x00;
          Z.land (Z.shiftr address 24) 0xFF; Z.land (Z.shiftr address 16) 0xFF;
          Z.land (Z.shiftr address 8) 0xFF; Z.land (Z.shiftr address 0) 0xFF; bank]
         ++ take (Z.to_nat dataLengthToRecord) dataToRecord)
        (u8 (8 + dataLengthToRecord)) timeOut true
    with
    | Some st => Some (st, write_status (msg st))
    | None => None
    end.
Proof.
  intros Hn. unfold writeData. cbv zeta. rewrite write_request by exact Hn.
  reflexivity.
Qed.

Lemma bytes_ok_write_request (timeOut bank address : Z) (rest : list Z) :
  0 <= bank < 256 -> bytes_ok rest = true ->
  bytes_ok ([Z.land (Z.shiftr timeOut 8) 0xFF; Z.land timeOut 0xFF; 0x00;
             Z.land (Z.shiftr address 24) 0xFF; Z.land (Z.shiftr address 16) 0xFF;
             Z.land (Z.shiftr address 8) 0xFF; Z.land (Z.shiftr address 0) 0xFF; bank]
            ++ rest) = true.
Proof.
  intros Hb Hr. apply bytes_ok_Forall. apply Forall_app. split.
  - repeat (apply Forall_cons; split; [first [apply land_byte | lia]|]).
    apply Forall_nil. exact I.
  - apply bytes_ok_Forall, Hr.
Qed.

Lemma write_status_answered (st' : RFID) (opcode status : Z) (payload : list Z) :
  answered st' opcode status payload -> 0 <= status < 65536 ->
  write_status (msg st') = if status =? 0 then RESPONSE_SUCCESS else RESPONSE_FAIL.
Proof.
  intros (A0 & A1 & A2 & A3 & A4 & A5 & _) Hst.
  unfold write_status. rewrite A0. change (ALL_GOOD =? ALL_GOOD) with true.
  cbv iota zeta.
  rewrite status_zero by (rewrite ?A3, ?A4; Z.div_mod_to_equations; lia).
  rewrite A3, A4.
  replace (status / 256 * 256 + status mod 256) with status
    by (Z.div_mod_to_equations; lia).
  reflexivity.
Qed.

Lemma writeData_sends (st : RFID) (bank address : Z) (dataToRecord : list Z)
  (n timeOut : Z) (status : Z) (payload : list Z) :
  length (msg st) = 255%nat -> 0 <= bank < 256 ->
  bytes_ok dataToRecord = true -> 0 <= n <= Z.of_nat (length dataToRecord) -> n <= 242 ->
  0 <= status < 65536 -> bytes_ok payload = true -> (length payload <= 247)%nat ->
  (forall h, peer (_rfidSerial st) h = Spec.response 0x24 status payload) ->
  exists st',
    writeData st bank address dataToRecord n timeOut
    = Some (st', if status =? 0 then RESPONSE_SUCCESS else RESPONSE_FAIL)
    /\ tx (_rfidSerial st')
       = tx (_rfidSerial st)
         ++ [Spec.encode 0x24
               ([Z.land (Z.shiftr timeOut 8) 0xFF; Z.land timeOut 0xFF; 0x00;
                 Z.land (Z.shiftr address 24) 0xFF; Z.land (Z.shiftr address 16) 0xFF;
                 Z.land (Z.shiftr address 8) 0xFF; Z.land (Z.shiftr address 0) 0xFF;
                 bank] ++ take (Z.to_nat n) dataToRecord)].
Proof.
  intros Hm Hbank Hd Hn Hmax Hst Hp Hpl Hpeer.
  rewrite writeData_eq by lia. rewrite u8_byte by lia.
  set (data := _ ++ take (Z.to_nat n) dataToRecord).
  assert (Hlen : Z.of_nat (length data) = 8 + n).
  { unfold data. rewrite length_app, length_take. cbn [length]. lia. }
  assert (Hb : bytes_ok data = true).
  { apply bytes_ok_write_request; [exact Hbank|].
    apply bytes_ok_Forall, Forall_take, bytes_ok_Forall, Hd. }
  destruct (sendMessage_answered st TMR_SR_OPCODE_WRITE_TAG_DATA data timeOut status
              payload Hm ltac:(cbv; split; congruence) Hb ltac:(lia) Hst Hp Hpl
              (Hpeer _)) as (st' & E & A & T & _).
  rewrite Hlen in E. rewrite E.
  rewrite (write_status_answered st' _ status payload A Hst).
  exists st'. split; [reflexivity | exact T].
Qed.

(** X18.  [writeData] sends time-out, option 0, address, bank and the data in
    one frame, and returns [RESPONSE_SUCCESS] exactly when the module
    answers with status 0. *)
Theorem writeData_round_trip (st : RFID) (bank address : Z) (dataToRecord : list Z)
  (timeOut : Z) (status : Z) (payload : list Z) :
  length (msg st) = 255%nat -> 0 <= bank < 256 ->
  bytes_ok dataToRecord = true -> (length dataToRecord <= 242)%nat ->
  0 <= status < 65536 -> bytes_ok payload = true -> (length payload <= 247)%nat ->
  (forall h, peer (_rfidSerial st) h = Spec.response 0x24 status payload) ->
  exists st',
    writeData st bank address dataToRecord (Z.of_nat (length dataToRecord)) timeOut
    = Some (st', if status =? 0 then RESPONSE_SUCCESS else RESPONSE_FAIL)
    /\ tx (_rfidSerial st')
       = tx (_rfidSerial st)
         ++ [Spec.encode 0x24
               ([Z.land (Z.shiftr timeOut 8) 0xFF; Z.land timeOut 0xFF; 0x00;
                 Z.land (Z.shiftr address 24) 0xFF; Z.land (Z.shiftr address 16) 0xFF;
                 Z.land (Z.shiftr address 8) 0xFF; Z.land (Z.shiftr address 0) 0xFF;
                 bank] ++ dataToRecord)].
Proof.
  intros Hm Hbank Hd Hlen Hst Hp Hpl Hpeer.
  destruct (writeData_sends st bank address dataToRecord (Z.of_nat (length dataToRecord))
              timeOut status payload) as (st' & E & T); try assumption; try lia.
  exists st'. split; [exact E|]. rewrite T.
  rewrite Nat2Z.id, firstn_all. reflexivity.
Qed.

(** X19.  [writeDataRegion] sends whole words only: of a buffer of odd length
    the last byte is not sent. *)
Theorem writeDataRegion_drops_odd_byte (st : RFID) (bank address : Z)
  (dataToRecord : list Z) (timeOut : Z) (status : Z) (payload : list Z) :
  length (msg st) = 255%nat -> 0 <= bank < 256 ->
  bytes_ok dataToRecord = true -> (length dataToRecord <= 242)%nat ->
  0 <= status < 65536 -> bytes_ok payload = true -> (length payload <= 247)%nat ->
  (forall h, peer (_rfidSerial st) h = Spec.response 0x24 status payload) ->
  exists st',
    writeDataRegion st bank address dataToRecord (Z.of_nat (length dataToRecord)) timeOut
    = Some (st', if status =? 0 then RESPONSE_SUCCESS else RESPONSE_FAIL)
    /\ tx (_rfidSerial st')
       = tx (_rfidSerial st)
         ++ [Spec.encode 0x24
               ([Z.land (Z.shiftr timeOut 8) 0xFF; Z.land timeOut 0xFF; 0x00;
                 Z.land (Z.shiftr address 24) 0xFF; Z.land (Z.shiftr address 16) 0xFF;
                 Z.land (Z.shiftr address 8) 0xFF; Z.land (Z.shiftr address 0) 0xFF;
                 bank] ++ take (2 * (length dataToRecord / 2)) dataToRecord)].
Proof.
  intros Hm Hbank Hd Hlen Hst Hp Hpl Hpeer.
  set (n := Z.of_nat (length dataToRecord)).
  change (writeDataRegion st bank address dataToRecord n timeOut)
    with (writeData st bank address dataToRecord (u8 (n / 2 * 2)) timeOut).
  assert (Hn : u8 (n / 2 * 2) = Z.of_nat (2 * (length dataToRecord / 2))).
  { rewrite u8_byte by (unfold n; Z.div_mod_to_equations; lia).
    unfold n. rewrite Nat2Z.inj_mul, Nat2Z.inj_div. change (Z.of_nat 2) with 2. lia. }
  rewrite Hn.
  assert (Hle : (2 * (length dataToRecord / 2) <= length dataToRecord)%nat).
  { pose proof (Nat.div_mod_eq (length dataToRecord) 2). lia. }
  destruct (writeData_sends st bank address dataToRecord
              (Z.of_nat (2 * (length dataToRecord / 2))) timeOut status payload)
    as (st' & E & T); try assumption; try lia.
  exists st'. split; [exact E|]. rewrite T, Nat2Z.id. reflexivity.
Qed.

(** ** Buffers that do not fit the 8-bit size *)

(** X20.  With 248 to 255 bytes to record, the size [8 + dataLengthToRecord]
    wraps in the 8-bit parameter of [sendMessage]: the frame that goes out
    holds the first [dataLengthToRecord - 248] bytes of the request header
    and none of the data. *)
Theorem writeData_long_buffer_sends_no_data (st : RFID) (bank address : Z)
  (dataToRecord : list Z) (n timeOut : Z) :
  length (msg st) = 255%nat -> 0 <= bank < 256 ->
  248 <= n <= 255 -> n <= Z.of_nat (length dataToRecord) ->
  exists st' ret,
    writeData st bank address dataToRecord n timeOut = Some (st', ret)
    /\ tx (_rfidSerial st')
       = tx (_rfidSerial st)
         ++ [Spec.encode 0x24
               (take (Z.to_nat (n - 248))
                  [Z.land (Z.shiftr timeOut 8) 0xFF; Z.land timeOut 0xFF; 0x00;
                   Z.land (Z.shiftr address 24) 0xFF; Z.land (Z.shiftr address 16) 0xFF;
                   Z.land (Z.shiftr address 8) 0xFF; Z.land (Z.shiftr address 0) 0xFF;
                   bank])].
Proof.
  intros Hm Hbank Hn Hroom. rewrite writeData_eq by lia.
  assert (Hs : u8 (8 + n) = n - 248) by (unfold u8; Z.div_mod_to_equations; lia).
  rewrite Hs.
  set (header := [Z.land (Z.shiftr timeOut 8) 0xFF; _; _; _; _; _; _; _]).
  rewrite sendMessage_prefix
    by (rewrite length_app, length_take; cbn [length]; lia).
  rewrite take_app_le by (unfold header; cbn [length]; lia).
  assert (Hb : bytes_ok (take (Z.to_nat (n - 248)) header) = true).
  { apply bytes_ok_Forall, Forall_take, bytes_ok_Forall.
    pose proof (bytes_ok_write_request timeOut bank address [] Hbank eq_refl) as H.
    rewrite app_nil_r in H. exact H. }
  destruct (sendMessage_frame st TMR_SR_OPCODE_WRITE_TAG_DATA
              (take (Z.to_nat (n - 248)) header) timeOut true Hm
              ltac:(cbv; split; congruence) Hb) as (st' & E & T & _).
  { rewrite length_take. unfold header. cbn [length]. lia. }
  rewrite E. exists st', (write_status (msg st')). split; [reflexivity | exact T].
Qed.

(** X21.  With 243 to 247 bytes to record the frame is longer than [msg], the
    8-bit counter of the write loop of [sendCommand] never reaches its bound
    and the call does not return. *)
Theorem writeData_does_not_return (st : RFID) (bank address : Z)
  (dataToRecord : list Z) (n timeOut : Z) :
  (3 <= length (msg st))%nat ->
  243 <= n <= 247 -> n <= Z.of_nat (length dataToRecord) ->
  writeData st bank address dataToRecord n timeOut = None.
Proof.
  intros Hm Hn Hroom. rewrite writeData_eq by lia.
  rewrite u8_byte by lia. rewrite sendMessage_eq, sendCommand_eq. cbv zeta.
  fields. rewrite loaded_size by lia.
  destruct (Z.ltb_spec 255 (8 + n + 5)); [reflexivity|lia].
Qed.

(** ** The fields of a tag record *)

Lemma lor_aligned (x y k : Z) :
  0 <= k -> x mod 2 ^ k = 0 -> 0 <= y < 2 ^ k -> Z.lor x y = x + y.
Proof.
  intros Hk Hx Hy. symmetry. apply Z.add_nocarry_lor.
  apply Z.bits_inj'. intros n Hn. rewrite Z.land_spec, Z.bits_0.
  destruct (Z.lt_ge_cases n k).
  - rewrite <- (Z.mod_pow2_bits_low x k n) by lia. rewrite Hx, Z.bits_0. reflexivity.
  - rewrite <- (Z.mod_small y (2 ^ k)) by lia.
    rewrite Z.mod_pow2_bits_high by lia. apply andb_false_r.
Qed.

Lemma load_be_4 (m : list Z) (base : Z) :
  0 <= get m base < 256 -> 0 <= get m (base + 1) < 256 ->
  0 <= get m (base + 2) < 256 -> 0 <= get m (base + 3) < 256 ->
  load_be m base 4 4 0 0
  = get m base * 16777216 + get m (base + 1) * 65536
    + get m (base + 2) * 256 + get m (base + 3).
Proof.
  intros Ha Hb Hc Hd. cbn [load_be]. rewrite Z.add_0_r.
  replace (base + (0 + 1)) with (base + 1) by lia.
  replace (base + (0 + 1 + 1)) with (base + 2) by lia.
  replace (base + (0 + 1 + 1 + 1)) with (base + 3) by lia.
  change (8 * (4 - 1 - 0)) with 24. change (8 * (4 - 1 - (0 + 1))) with 16.
  change (8 * (4 - 1 - (0 + 1 + 1))) with 8.
  change (8 * (4 - 1 - (0 + 1 + 1 + 1))) with 0.
  rewrite Z.lor_0_l, Z.shiftl_0_r, !Z.shiftl_mul_pow2 by lia.
  change (2 ^ 24) with 16777216. change (2 ^ 16) with 65536. change (2 ^ 8) with 256.
  unfold u32. rewrite (Z.mod_small (get m base * 16777216)) by lia.
  rewrite (lor_aligned (get m base * 16777216) (get m (base + 1) * 65536) 24)
    by (try (change (2 ^ 24) with 16777216); first [lia | Z.div_mod_to_equations; lia]).
  rewrite (Z.mod_small (_ + _ * 65536)) by lia.
  rewrite (lor_aligned _ (get m (base + 2) * 256) 16)
    by (try (change (2 ^ 16) with 65536); first [lia | Z.div_mod_to_equations; lia]).
  rewrite (Z.mod_small (_ + _ * 256)) by lia.
  rewrite (lor_aligned _ (get m (base + 3)) 8)
    by (try (change (2 ^ 8) with 256); first [lia | Z.div_mod_to_equations; lia]).
  apply Z.mod_small. lia.
Qed.

(** X22.  [getTagTimestamp] returns the low 16 bits of the 32-bit time stamp
    only: [msg[17]] and [msg[18]] have no influence on the result. *)
Theorem getTagTimestamp_keeps_low_half (st : RFID) :
  bytes_ok (msg st) = true ->
  getTagTimestamp st = get (msg st) 19 * 256 + get (msg st) 20.
Proof.
  intros Hb. unfold getTagTimestamp. cbv zeta.
  pose proof (bytes_ok_get (msg st) 17 Hb). pose proof (bytes_ok_get (msg st) 18 Hb).
  pose proof (bytes_ok_get (msg st) 19 Hb). pose proof (bytes_ok_get (msg st) 20 Hb).
  rewrite load_be_4 by assumption.
  change (17 + 1) with 18. change (17 + 2) with 19. change (17 + 3) with 20.
  unfold u16. Z.div_mod_to_equations. lia.
Qed.

Lemma word_at (m : list Z) (i : Z) :
  bytes_ok m = true ->
  u16 (Z.lor (u16 (Z.lor 0 (Z.shiftl (get m (i + 0)) (8 * (1 - 0)))))
         (Z.shiftl (get m (i + 1)) (8 * (1 - 1))))
  = get m i * 256 + get m (i + 1).
Proof.
  intros Hb. pose proof (bytes_ok_get m i Hb). pose proof (bytes_ok_get m (i + 1) Hb).
  rewrite Z.add_0_r. change (8 * (1 - 0)) with 8. change (8 * (1 - 1)) with 0.
  rewrite Z.lor_0_l, Z.shiftl_0_r, Z.shiftl_mul_pow2 by lia. change (2 ^ 8) with 256.
  unfold u16. rewrite (Z.mod_small (get m i * 256)) by lia.
  rewrite (lor_aligned _ (get m (i + 1)) 8)
    by (try (change (2 ^ 8) with 256); first [lia | Z.div_mod_to_equations; lia]).
  apply Z.mod_small. lia.
Qed.

(** X23.  [getTagDataBytes] is the number of bits in [msg[24..25]] divided by
    8 and rounded up, modulo 256. *)
Theorem getTagDataBytes_is_ceiling (st : RFID) :
  bytes_ok (msg st) = true ->
  getTagDataBytes st = (get (msg st) 24 * 256 + get (msg st) 25 + 7) / 8 mod 256.
Proof.
  intros Hb. unfold getTagDataBytes. cbv zeta.
  rewrite (word_at (msg st) 24 Hb). change (24 + 1) with 25.
  pose proof (bytes_ok_get (msg st) 24 Hb). pose proof (bytes_ok_get (msg st) 25 Hb).
  set (bits := get (msg st) 24 * 256 + get (msg st) 25) in *.
  unfold u8.
  destruct (Z.ltb_spec 0 (bits mod 8)); Z.div_mod_to_equations; lia.
Qed.

(** X24.  When the bytes to copy lie inside [msg], [getTagData] copies
    [min (getTagDataBytes) len] bytes from [msg[26]] on and returns that
    number; the buffer is not touched at or beyond it. *)
Theorem getTagData_stays_within_len (st : RFID) (buf : list Z) (len : Z) :
  0 <= len <= Z.of_nat (length buf) ->
  26 + Z.min (getTagDataBytes st) len <= 255 ->
  exists buf',
    getTagData st buf len = Some (buf', Z.min (getTagDataBytes st) len)
    /\ length buf' = length buf
    /\ (forall j, 0 <= j < Z.min (getTagDataBytes st) len ->
        get buf' j = get (msg st) (26 + j))
    /\ (forall j, Z.min (getTagDataBytes st) len <= j -> get buf' j = get buf j).
Proof.
  intros Hlen Hin.
  assert (Hr : 0 <= getTagDataBytes st < 256).
  { unfold getTagDataBytes. cbv zeta.
    destruct (_ <? _); apply Z.mod_pos_bound; reflexivity. }
  unfold getTagData. cbv zeta.
  destruct (Z.eqb_spec (getTagDataBytes st) 0) as [E0|Hne].
  - exists buf. rewrite E0. replace (Z.min 0 len) with 0 by lia.
    repeat split; try reflexivity. intros; lia.
  - set (n := if len <? getTagDataBytes st then len else getTagDataBytes st).
    assert (Hn : n = Z.min (getTagDataBytes st) len)
      by (unfold n; destruct (Z.ltb_spec len (getTagDataBytes st)); lia).
    clearbody n. subst n. unfold MAX_MSG_SIZE.
    destruct (Z.ltb_spec 255 (26 + Z.min (getTagDataBytes st) len)); [lia|].
    destruct (copy_bank_spec (msg st) 26
                (Z.to_nat (Z.min (getTagDataBytes st) len)) buf 0)
      as (L & G & K); [lia|].
    eexists. split; [reflexivity|]. split; [exact L|]. split.
    + intros j Hj. apply G; lia.
    + intros j Hj. apply K. lia.
Qed.

(** X25.  When the two bytes of the bit count lie inside [msg],
    [getTagEPCBytes] is that count divided by 8, less 4, in 8 bits: for an
    EPC field of fewer than 32 bits the result is at least 252. *)
Theorem getTagEPCBytes_underflows (st : RFID) :
  bytes_ok (msg st) = true ->
  28 + getTagDataBytes st < 255 ->
  let bits := get (msg st) (27 + getTagDataBytes st) * 256
              + get (msg st) (28 + getTagDataBytes st) in
  getTagEPCBytes st = Some ((bits / 8 - 4) mod 256)
  /\ (bits < 32 -> 252 <= (bits / 8 - 4) mod 256)
  /\ (32 <= bits < 2080 -> (bits / 8 - 4) mod 256 = bits / 8 - 4).
Proof.
  intros Hb Hin bits. unfold getTagEPCBytes. cbv zeta. unfold MAX_MSG_SIZE.
  destruct (Z.leb_spec 255 (27 + getTagDataBytes st + 1)); [lia|].
  rewrite (word_at (msg st) (27 + getTagDataBytes st) Hb).
  replace (27 + getTagDataBytes st + 1) with (28 + getTagDataBytes st) by lia.
  fold bits.
  pose proof (bytes_ok_get (msg st) (27 + getTagDataBytes st) Hb).
  pose proof (bytes_ok_get (msg st) (28 + getTagDataBytes st) Hb).
  assert (0 <= bits < 65536) by (unfold bits; lia).
  unfold u8. split; [|split].
  - f_equal. Z.div_mod_to_equations. lia.
  - intros. Z.div_mod_to_equations. lia.
  - intros. Z.div_mod_to_equations. lia.
Qed.

(** ** [digitalRead] *)

Lemma length_pin_bytes (pins : list (Z * Z * Z)) :
  Z.of_nat (length (pin_bytes pins)) = 3 * Z.of_nat (length pins).
Proof.
  induction pins as [|t pins IH]; [reflexivity|].
  cbn [pin_bytes flat_map app length] in *. fold (pin_bytes pins). lia.
Qed.

Lemma scan_pins_finds (pins : list (Z * Z * Z)) :
  forall (m : list Z) (pin len : Z) (fuel : nat) (i : Z),
    0 <= i -> i + 3 * Z.of_nat (length pins) = len -> (length pins <= fuel)%nat ->
    (forall q, 0 <= q < 3 * Z.of_nat (length pins) ->
       get m (i + 6 + q) = get (pin_bytes pins) q) ->
    scan_pins m pin len 6 fuel i = pin_state pins pin.
Proof.
  induction pins as [|[[p md] s] pins IH]; intros m pin len fuel i Hi Hlen Hfuel Hm.
  - cbn [length] in Hlen. destruct fuel; [reflexivity|]. cbn [scan_pins].
    destruct (Z.ltb_spec i len); [lia|]. reflexivity.
  - cbn [length] in Hlen, Hfuel, Hm. destruct fuel as [|fuel]; [lia|].
    cbn [scan_pins]. destruct (Z.ltb_spec i len); [|lia].
    pose proof (Hm 0 ltac:(lia)) as H0. pose proof (Hm 2 ltac:(lia)) as H2.
    rewrite Z.add_0_r in H0. rewrite H0, H2.
    change (get (pin_bytes ((p, md, s) :: pins)) 0) with p.
    change (get (pin_bytes ((p, md, s) :: pins)) 2) with s.
    unfold pin_state. cbn [List.find fst snd].
    destruct (p =? pin); [reflexivity|].
    apply IH; try lia.
    intros q Hq. replace (i + 3 + 6 + q) with (i + 6 + (q + 3)) by lia.
    rewrite Hm by lia.
    change (pin_bytes ((p, md, s) :: pins)) with (p :: md :: s :: pin_bytes pins).
    replace (q + 3) with (q + 1 + 1 + 1) by lia.
    rewrite !get_cons_succ by lia. reflexivity.
Qed.

(** X26.  [digitalRead] returns the state of the first triple of the answer
    that names the pin, and [false] when no triple does; the status word of
    the answer is not looked at. *)
Theorem digitalRead_reports_listed_pin (st : RFID) (pin : Z) (status count : Z)
  (pins : list (Z * Z * Z)) :
  length (msg st) = 255%nat ->
  0 <= status < 65536 -> 0 <= count < 256 ->
  bytes_ok (pin_bytes pins) = true -> (length pins <= 82)%nat ->
  peer (_rfidSerial st) (tx (_rfidSerial st) ++ [Spec.encode 0x66 [1]])
  = Spec.response 0x66 status (count :: pin_bytes pins) ->
  exists st', digitalRead st pin = Some (st', pin_state pins pin).
Proof.
  intros Hm Hst Hcount Hb Hlen Hpeer. unfold digitalRead.
  pose proof (length_pin_bytes pins) as HL.
  destruct (sendMessage_answered st TMR_SR_OPCODE_GET_USER_GPIO_INPUTS [1]
              COMMAND_TIME_OUT status (count :: pin_bytes pins) Hm)
    as (st' & E & (A0 & A1 & A2 & A3 & A4 & A5 & _) & _).
  { cbv; split; congruence. }
  { reflexivity. }
  { cbn; lia. }
  { exact Hst. }
  { cbn [bytes_ok forallb]. fold (bytes_ok (pin_bytes pins)). rewrite Hb.
    assert (is_byte count = true) as -> by (apply is_byte_range; lia). reflexivity. }
  { cbn [length]. lia. }
  { exact Hpeer. }
  change (Z.of_nat (length [1])) with 1 in E. rewrite E. cbv zeta.
  exists st'. do 2 f_equal.
  cbn [length] in A1, A5. rewrite A1.
  replace (Z.of_nat (S (length (pin_bytes pins))) - 1)
    with (3 * Z.of_nat (length pins)) by lia.
  rewrite u8_byte by lia.
  apply scan_pins_finds; try lia.
  intros q Hq. replace (0 + 6 + q) with (5 + (q + 1)) by lia.
  rewrite A5 by lia. apply get_cons_succ. lia.
Qed.

(** ** From [check] to [parseResponse] *)

Lemma parseResponse_corrupt_iff (st : RFID) (f : list Z) :
  Spec.complete f = true ->
  (forall j, 1 <= j < Spec.total f -> get (msg st) j = get f j) ->
  parseResponse st = ERROR_CORRUPT_RESPONSE <-> Spec.crc_ok f = false.
Proof.
  intros Hf Hm. pose proof (complete_inv f Hf) as (Hb & Ht & _).
  unfold parseResponse. cbv zeta.
  assert (E1 : u8 (get (msg st) 1 + 7) = Spec.total f).
  { rewrite Hm by lia. unfold Spec.total in *. apply u8_byte. lia. }
  rewrite E1, (crc_mismatch_spec (msg st) f Hf Hm).
  destruct (Spec.crc_ok f); cbn [negb]; [|tauto].
  split; [|discriminate]. intros H. exfalso. revert H.
  destruct (_ =? TMR_SR_OPCODE_READ_TAG_ID_MULTIPLE); [|discriminate].
  unfold parse_multiple.
  repeat match goal with |- context [if ?c then _ else _] => destruct c end;
    discriminate.
Qed.

(** X27.  A frame of the continuous stream in which one byte from the opcode
    on has been replaced is delivered by [check] and then classified as
    corrupt by [parseResponse]. *)
Theorem check_then_parseResponse_detects_damage (st : RFID) (junk f rest : list Z)
  (i b : Z) :
  length (msg st) = 255%nat -> bytes_ok (msg st) = true ->
  _head st = 0 -> _continuousModeTemp st = true ->
  bytes_ok junk = true -> Forall (fun b => b <> 0xFF) junk ->
  Spec.complete f = true -> Spec.crc_ok f = true ->
  get f 0 = 0xFF -> Z.of_nat (length f) = Spec.total f ->
  2 <= i < Spec.total f -> 0 <= b < 256 -> b <> get f i ->
  rx (_rfidSerial st) = junk ++ put f i b ++ rest ->
  parseResponse (fst (check st)) = ERROR_CORRUPT_RESPONSE
  /\ rx (_rfidSerial (fst (check st))) = rest.
Proof.
  intros Hm Hmb Hh Hc Hjb Hj Hf Hok H0 Hlen Hi Hb Hne Hrx.
  destruct (damaged_frame f i b Hf Hok Hi Hb Hne) as (Hf' & Hbad & Htot).
  destruct (check_delivers st junk (put f i b) rest) as (_ & Hlow & _ & _ & Hrest & _);
    try assumption.
  - rewrite get_put_ne by lia. exact H0.
  - rewrite length_put, Htot. exact Hlen.
  - split; [|exact Hrest].
    apply (parseResponse_corrupt_iff _ (put f i b) Hf'); [|exact Hbad].
    intros j Hj'. apply Hlow. lia.
Qed.

(** ** [SelectiveReadDataRegion] *)

(** The commands sent before the loop; their answers are not looked at. *)
Lemma selective_read_prologue (fuel : nat) (st : RFID) (selepc : SelectEPC)
  (bank address len : Z) (dataRead : list Z) (dataLengthRead timeOut : Z) :
  length (msg st) = 255%nat ->
  EPCoffset selepc + EPClen selepc <= 12 -> EPCoffset selepc <> 12 ->
  exists st3 configBlob,
    length (msg st3) = 255%nat
    /\ peer (_rfidSerial st3) = peer (_rfidSerial st)
    /\ read_attempts (_rfidSerial st3) = read_attempts (_rfidSerial st)
    /\ SelectiveReadDataRegion fuel st selepc bank address len dataRead
         dataLengthRead timeOut
       = match
           match_loop fuel st3 selepc configBlob
             (if bank =? TMR_GEN2_BANK_EPC then 23 else 25) 0
         with
         | Some (MatchReturn st code) => Some (st, (code, dataRead, 0))
         | Some (MatchFound st) =>
             Some (st, extract_region (msg st) bank address len dataRead dataLengthRead)
         | None => None
         end.
Proof.
  intros Hm Hsum Hoff. unfold SelectiveReadDataRegion.
  destruct (Z.ltb_spec 12 (EPCoffset selepc + EPClen selepc)); [lia|].
  destruct (Z.eqb_spec (EPCoffset selepc) 12); [lia|]. cbn [orb].
  destruct (sendMessage_returns st TMR_SR_OPCODE_SET_READER_OPTIONAL_PARAMS
              [1; 8; 0] 3 COMMAND_TIME_OUT true) as (st1 & E1 & X1); [lia | lia |].
  rewrite E1.
  destruct (sendMessage_returns st1 TMR_SR_OPCODE_SET_READER_OPTIONAL_PARAMS
              [1; 12; 0] 3 COMMAND_TIME_OUT true) as (st2 & E2 & X2);
    [rewrite (exchanged_length _ _ _ X1); lia | lia |].
  unfold disableReadFilter, setReaderConfiguration. rewrite E2.
  destruct (sendMessage_returns st2 TMR_SR_OPCODE_CLEAR_TAG_ID_BUFFER
              [] 0 COMMAND_TIME_OUT true) as (st3 & E3 & X3);
    [rewrite (exchanged_length _ _ _ X2), (exchanged_length _ _ _ X1); lia | lia |].
  rewrite E3.
  assert (Hm3 : length (msg st3) = 255%nat).
  { rewrite (exchanged_length _ _ _ X3), (exchanged_length _ _ _ X2),
      (exchanged_length _ _ _ X1). exact Hm. }
  assert (Hp3 : peer (_rfidSerial st3) = peer (_rfidSerial st)).
  { rewrite (exchanged_peer _ _ _ X3), (exchanged_peer _ _ _ X2),
      (exchanged_peer _ _ _ X1). reflexivity. }
  assert (Hcount : read_attempts (_rfidSerial st3) = read_attempts (_rfidSerial st)).
  { rewrite (read_attempts_other _ _ _ X3) by discriminate.
    rewrite (read_attempts_other _ _ _ X2) by discriminate.
    apply (read_attempts_other _ _ _ X1). discriminate. }
  destruct (bank =? TMR_GEN2_BANK_EPC).
  all: match goal with |- context [match_loop _ _ _ ?blob ?pos 0] =>
         exists st3, blob; repeat split; try assumption;
         destruct (match_loop fuel st3 selepc blob pos 0) as [[?|? ?]|]; reflexivity
       end.
Qed.

Lemma match_loop_unbounded (selepc : SelectEPC) (configBlob : list Z)
  (EPCBankStartPos : Z) :
  RetryCount selepc = 0 \/ RetryCount selepc = 255 ->
  forall (fuel : nat) (st : RFID) (k : Z),
    length (msg st) = 255%nat ->
    never_matching (peer (_rfidSerial st)) selepc
      (u8 (EPCBankStartPos + EPCoffset selepc)) ->
    0 <= k <= 255 ->
    match_loop fuel st selepc configBlob EPCBankStartPos k = None.
Proof.
  intros HR. induction fuel as [|fuel IH]; intros st k Hm Hp Hk; [reflexivity|].
  cbn [match_loop].
  destruct (Hp (tx (_rfidSerial st))
              (outgoing (loaded (msg st) TMR_SR_OPCODE_READ_TAG_ID_MULTIPLE
                           configBlob 20)))
    as (Hc & Hcrc & Hop & Hs1 & Hwin & Hcmp);
    [ rewrite outgoing_opcode by (rewrite loaded_size by lia; lia);
      apply loaded_opcode; lia | ].
  set (r := peer (_rfidSerial st) _) in *.
  destruct (sendMessage_reply st TMR_SR_OPCODE_READ_TAG_ID_MULTIPLE configBlob 20
              COMMAND_TIME_OUT r Hm ltac:(lia) eq_refl Hc)
    as (st1 & E & Hex & _ & Hin & H0).
  rewrite E. rewrite Hcrc, Hop, Z.eqb_refl in H0. rewrite H0.
  change (negb (ALL_GOOD =? ALL_GOOD)) with false. cbv iota.
  rewrite (epc_compare_ext (msg st1) r selepc) by (intros j Hj; apply Hin; lia).
  destruct (Z.eqb_spec
              (epc_compare r selepc (u8 (EPCBankStartPos + EPCoffset selepc))
                 (Z.to_nat (EPClen selepc)) 0) (EPClen selepc)) as [Heq|_];
    [exfalso; exact (Hcmp Heq)|].
  assert (Hm1 : length (msg st1) = 255%nat)
    by (rewrite (exchanged_length _ _ _ Hex); exact Hm).
  assert (Hp1 : never_matching (peer (_rfidSerial st1)) selepc
                  (u8 (EPCBankStartPos + EPCoffset selepc)))
    by (rewrite (exchanged_peer _ _ _ Hex); exact Hp).
  destruct HR as [HR|HR]; rewrite HR.
  - change (negb (0 =? 0)) with false. cbv iota. apply IH; assumption.
  - change (negb (255 =? 0)) with true. cbv iota.
    destruct (Z.ltb_spec 255 k); [lia|].
    apply IH; try assumption. unfold u8.
    pose proof (Z.mod_pos_bound (k + 1) 256). lia.
Qed.

(** X28.  With [RetryCount] 0, and also with [RetryCount] 255, which the
    8-bit [retryCount] cannot exceed, [SelectiveReadDataRegion] does not
    return as long as the module shows tags that fail the filter. *)
Theorem selective_read_never_gives_up (fuel : nat) (st : RFID)
  (selepc : SelectEPC) (bank address len : Z) (dataRead : list Z)
  (dataLengthRead timeOut : Z) :
  length (msg st) = 255%nat ->
  RetryCount selepc = 0 \/ RetryCount selepc = 255 ->
  EPCoffset selepc + EPClen selepc <= 12 -> EPCoffset selepc <> 12 ->
  never_matching (peer (_rfidSerial st)) selepc
    (u8 ((if bank =? TMR_GEN2_BANK_EPC then 23 else 25) + EPCoffset selepc)) ->
  SelectiveReadDataRegion fuel st selepc bank address len dataRead
    dataLengthRead timeOut = None.
Proof.
  intros Hm HR Hsum Hoff Hp.
  destruct (selective_read_prologue fuel st selepc bank address len dataRead
              dataLengthRead timeOut Hm Hsum Hoff)
    as (st3 & blob & Hm3 & Hp3 & _ & E).
  rewrite E, (match_loop_unbounded selepc blob _ HR fuel st3 0 Hm3); [reflexivity| |lia].
  rewrite Hp3. exact Hp.
Qed.



(** ** [ReadingAllBanks] *)




(** ** Witnesses *)

Lemma sendMessage_sends_encoded_frame_witness :
  exists st',
    sendMessage (RFID_begin silent) 0x03 [] (Z.of_nat (length ([] : list Z))) 2000 true
    = Some st'
    /\ tx (_rfidSerial st') = tx (_rfidSerial (RFID_begin silent)) ++ [Spec.encode 0x03 []].
Proof.
  apply (sendMessage_sends_encoded_frame (RFID_begin silent) 0x03 [] 2000 true);
    [reflexivity | lia | reflexivity | simpl; lia].
Defined.

Lemma sendMessage_round_trip_witness :
  let st := RFID_begin (answering (Spec.response 0x72 0 [0x1A])) in
  exists st',
    sendMessage st 0x72 [] (Z.of_nat (length ([] : list Z))) 2000 true = Some st'
    /\ get (msg st') 0 = ALL_GOOD
    /\ get (msg st') 1 = Z.of_nat (length [0x1A])
    /\ get (msg st') 2 = 0x72
    /\ get (msg st') 3 * 256 + get (msg st') 4 = 0
    /\ (forall j, 0 <= j < Z.of_nat (length [0x1A]) ->
        get (msg st') (5 + j) = get [0x1A] j)
    /\ rx (_rfidSerial st') = [].
Proof.
  apply (sendMessage_round_trip (RFID_begin (answering (Spec.response 0x72 0 [0x1A])))
           0x72 [] 2000 0 [0x1A]);
    [reflexivity | lia | reflexivity | simpl; lia | lia | reflexivity | simpl; lia
    | reflexivity].
Defined.

Lemma sendCommand_rejects_damaged_answer_witness :
  exists st',
    sendCommand (asking 0x03 (answering (put version_reply 5 0x7F))) 2000 true = Some st'
    /\ get (msg st') 0 = ERROR_CORRUPT_RESPONSE.
Proof.
  apply (sendCommand_rejects_damaged_answer
           (asking 0x03 (answering (put version_reply 5 0x7F))) 2000 version_reply 5 0x7F);
    [ reflexivity | vm_compute; split; discriminate | vm_compute; reflexivity
    | vm_compute; reflexivity | vm_compute; split; first [reflexivity | discriminate]
    | lia | vm_compute; discriminate | reflexivity ].
Defined.

Lemma sendCommand_ignores_header_witness :
  exists st',
    sendCommand (asking 0x03 (answering (put version_reply 0 0x00))) 2000 true = Some st'
    /\ get (msg st') 0 = ALL_GOOD
    /\ (forall j, 1 <= j < Spec.total version_reply ->
        get (msg st') j = get version_reply j).
Proof.
  apply (sendCommand_ignores_header
           (asking 0x03 (answering (put version_reply 0 0x00))) 2000 version_reply 0x00);
    [ reflexivity | vm_compute; split; discriminate | vm_compute; reflexivity
    | vm_compute; reflexivity | vm_compute; reflexivity | lia | reflexivity ].
Defined.

Lemma sendCommand_short_answer_times_out_witness :
  let st := asking 0x03 (answering [0xFF; 0x03; 0x03]) in
  exists st',
    sendCommand st 2000 true = Some st'
    /\ get (msg st') 0 = ERROR_COMMAND_RESPONSE_TIMEOUT
    /\ rx (_rfidSerial st') = []
    /\ tx (_rfidSerial st') = tx (_rfidSerial st) ++ [outgoing (msg st)].
Proof.
  apply (sendCommand_short_answer_times_out
           (asking 0x03 (answering [0xFF; 0x03; 0x03])) 2000 [0xFF; 0x03; 0x03]);
    [ reflexivity | vm_compute; split; discriminate | reflexivity
    | vm_compute; split; first [reflexivity | discriminate] | reflexivity ].
Defined.

Lemma sendCommand_cannot_take_255_bytes_witness :
  exists st',
    sendCommand (asking 0x03 (answering full_reply)) 2000 true = Some st'
    /\ get (msg st') 0 = ERROR_COMMAND_RESPONSE_TIMEOUT.
Proof.
  apply (sendCommand_cannot_take_255_bytes
           (asking 0x03 (answering full_reply)) 2000 full_reply);
    [ reflexivity | vm_compute; split; discriminate | vm_compute; reflexivity
    | vm_compute; reflexivity | vm_compute; discriminate | reflexivity ].
Defined.

Lemma check_idle_outside_continuous_mode_witness :
  let st := RFID_begin (receiving keepalive0) in
  snd (check st) = false
  /\ rx (_rfidSerial (fst (check st))) = []
  /\ tx (_rfidSerial (fst (check st))) = tx (_rfidSerial st).
Proof.
  apply (check_idle_outside_continuous_mode (RFID_begin (receiving keepalive0)));
    reflexivity.
Defined.

Lemma check_keeps_head_inside_msg_witness :
  let st := RFID_begin (receiving [0xFF; 0x00; 0x22]) in
  0 <= _head (fst (check st)) < 255
  /\ length (msg (fst (check st))) = 255%nat
  /\ tx (_rfidSerial (fst (check st))) = tx (_rfidSerial st)
  /\ peer (_rfidSerial (fst (check st))) = peer (_rfidSerial st)
  /\ _continuousModeTemp (fst (check st)) = _continuousModeTemp st.
Proof.
  apply (check_keeps_head_inside_msg (RFID_begin (receiving [0xFF; 0x00; 0x22])));
    [simpl; lia | reflexivity].
Defined.

Lemma check_delivers_frame_witness :
  let st := streaming 0 (receiving ([0x00; 0x12] ++ keepalive0 ++ [0xFF])) in
  snd (check st) = reported keepalive0
  /\ (forall j, 0 <= j < Spec.total keepalive0 ->
      get (msg (fst (check st))) j = get keepalive0 j)
  /\ (forall j, Spec.total keepalive0 <= j -> get (msg (fst (check st))) j = 0)
  /\ _head (fst (check st)) = 0
  /\ rx (_rfidSerial (fst (check st))) = [0xFF]
  /\ _contTemp (fst (check st)) = sampled keepalive0 (_contTemp st).
Proof.
  apply (check_delivers_frame
           (streaming 0 (receiving ([0x00; 0x12] ++ keepalive0 ++ [0xFF])))
           [0x00; 0x12] keepalive0 [0xFF]);
    [ reflexivity | reflexivity | reflexivity | reflexivity | reflexivity | reflexivity
    | repeat constructor; lia | vm_compute; reflexivity | reflexivity
    | vm_compute; reflexivity ].
Defined.

Lemma stopReading_leaves_continuous_mode_witness :
  let st := streaming 26 silent in
  exists st',
    stopReading st = Some st'
    /\ tx (_rfidSerial st') = tx (_rfidSerial st) ++ [Spec.encode 0x2F [0x00; 0x00; 0x02]]
    /\ rx (_rfidSerial st') = []
    /\ _continuousModeTemp st' = false
    /\ snd (check st') = false.
Proof.
  apply (stopReading_leaves_continuous_mode (streaming 26 silent)). reflexivity.
Defined.

Lemma startReadingBank_asks_at_most_32_words_witness :
  let st := RFID_begin silent in
  exists st' configBlob,
    startReadingBank st 3 0 0 = Some st'
    /\ tx (_rfidSerial st')
       = tx (_rfidSerial st)
         ++ [Spec.encode 0x9A [0x01; 0x08; 0x00];
             Spec.encode 0x9A [0x01; 0x0C; 0x00];
             Spec.encode 0x2F configBlob]
    /\ length configBlob = 30%nat
    /\ get configBlob 24 = 3
    /\ get configBlob 25 * 16777216 + get configBlob 26 * 65536
       + get configBlob 27 * 256 + get configBlob 28 = 0
    /\ get configBlob 29 = Z.min 32 (if (3 =? 3) && (0 =? 0) then 32 else 0)
    /\ _continuousModeTemp st' = true.
Proof.
  apply (startReadingBank_asks_at_most_32_words (RFID_begin silent) 3 0 0);
    [reflexivity | lia | lia | lia].
Defined.

Lemma setPowerMode_never_sends_sleep_to_M6E_witness :
  let st := RFID_begin silent in
  exists st' ok,
    setPowerMode st ThingMagic_M6E_NANO 4 = Some (st', ok)
    /\ (4 < 4 -> st' = st /\ ok = false)
    /\ (4 <= 4 ->
        tx (_rfidSerial st')
        = tx (_rfidSerial st) ++ [Spec.encode 0x98 [if 4 =? 4 then 2 else 4]]
        /\ ok = (get (msg st') 0 =? ALL_GOOD)).
Proof.
  apply (setPowerMode_never_sends_sleep_to_M6E (RFID_begin silent) 4);
    [reflexivity | lia].
Defined.

Lemma setGen2Q_rejects_init_value_after_setting_Q_witness :
  let st := RFID_begin (answering (Spec.response 0x9B 0 [])) in
  exists st',
    setGen2Q st 0 11 true = Some (st', false)
    /\ tx (_rfidSerial st')
       = tx (_rfidSerial st) ++ [Spec.encode 0x9B [0x05; 0x12; 0]]
    /\ get (msg st') 0 = ALL_GOOD
    /\ get (msg st') 3 = 0 /\ get (msg st') 4 = 0.
Proof.
  apply (setGen2Q_rejects_init_value_after_setting_Q
           (RFID_begin (answering (Spec.response 0x9B 0 []))) 0 11);
    [reflexivity | lia | vm_compute; discriminate | lia | reflexivity].
Defined.

Lemma power_limit_applies_to_reads_only_witness :
  let st := RFID_begin silent in
  (exists st' hi lo,
     setReadPower st 3000 = Some st'
     /\ tx (_rfidSerial st') = tx (_rfidSerial st) ++ [Spec.encode 0x92 [hi; lo]]
     /\ hi * 256 + lo = Z.min 3000 2700 mod 65536)
  /\ (exists st' hi lo,
       setWritePower st 3000 = Some st'
       /\ tx (_rfidSerial st') = tx (_rfidSerial st) ++ [Spec.encode 0x94 [hi; lo]]
       /\ hi * 256 + lo = 3000 mod 65536).
Proof.
  apply (power_limit_applies_to_reads_only (RFID_begin silent) 3000);
    [reflexivity | lia].
Defined.

Lemma readData_round_trip_witness :
  let st := RFID_begin (answering (Spec.response 0x28 0 [0xAA; 0xBB; 0xCC; 0xDD])) in
  exists st' buf,
    readData st 1 2 (replicate 12 0) 12 1000
    = Some (st',
            (if 0 =? 0 then RESPONSE_SUCCESS else RESPONSE_FAIL,
             buf,
             if 0 =? 0
             then Z.min (Z.of_nat (length [0xAA; 0xBB; 0xCC; 0xDD])) 12 else 0))
    /\ length buf = length (replicate 12 0)
    /\ (0 <> 0 -> buf = replicate 12 0)
    /\ (0 = 0 ->
        (forall j, 0 <= j < Z.min (Z.of_nat (length [0xAA; 0xBB; 0xCC; 0xDD])) 12 ->
           get buf j = get [0xAA; 0xBB; 0xCC; 0xDD] j)
        /\ (forall j, Z.min (Z.of_nat (length [0xAA; 0xBB; 0xCC; 0xDD])) 12 <= j ->
           get buf j = get (replicate 12 0) j)).
Proof.
  apply (readData_round_trip
           (RFID_begin (answering (Spec.response 0x28 0 [0xAA; 0xBB; 0xCC; 0xDD])))
           1 2 (replicate 12 0) 12 1000 0 [0xAA; 0xBB; 0xCC; 0xDD]);
    [ reflexivity | lia | lia | simpl; lia | lia | reflexivity | simpl; lia
    | reflexivity ].
Defined.

Lemma readData_fails_without_answer_witness :
  exists st',
    readData (RFID_begin silent) 3 0 [0; 0; 0; 0] 4 1000
    = Some (st', (RESPONSE_FAIL, [0; 0; 0; 0], 0))
    /\ get (msg st') 0 = ERROR_COMMAND_RESPONSE_TIMEOUT.
Proof.
  apply (readData_fails_without_answer (RFID_begin silent) 3 0 [0; 0; 0; 0] 4 1000 []);
    [ reflexivity | lia | lia | reflexivity
    | vm_compute; split; first [reflexivity | discriminate] | reflexivity ].
Defined.

Lemma writeData_round_trip_witness :
  let st := RFID_begin (answering (Spec.response 0x24 0 [])) in
  exists st',
    writeData st 3 0 [0x00; 0xEE] (Z.of_nat (length [0x00; 0xEE])) 1000
    = Some (st', if 0 =? 0 then RESPONSE_SUCCESS else RESPONSE_FAIL)
    /\ tx (_rfidSerial st')
       = tx (_rfidSerial st)
         ++ [Spec.encode 0x24
               ([Z.land (Z.shiftr 1000 8) 0xFF; Z.land 1000 0xFF; 0x00;
                 Z.land (Z.shiftr 0 24) 0xFF; Z.land (Z.shiftr 0 16) 0xFF;
                 Z.land (Z.shiftr 0 8) 0xFF; Z.land (Z.shiftr 0 0) 0xFF;
                 3] ++ [0x00; 0xEE])].
Proof.
  apply (writeData_round_trip (RFID_begin (answering (Spec.response 0x24 0 [])))
           3 0 [0x00; 0xEE] 1000 0 []);
    [ reflexivity | lia | reflexivity | simpl; lia | lia | reflexivity | simpl; lia
    | reflexivity ].
Defined.

Lemma writeDataRegion_drops_odd_byte_witness :
  let st := RFID_begin (answering (Spec.response 0x24 0 [])) in
  exists st',
    writeDataRegion st 3 0 [1; 2; 3] (Z.of_nat (length [1; 2; 3])) 1000
    = Some (st', if 0 =? 0 then RESPONSE_SUCCESS else RESPONSE_FAIL)
    /\ tx (_rfidSerial st')
       = tx (_rfidSerial st)
         ++ [Spec.encode 0x24
               ([Z.land (Z.shiftr 1000 8) 0xFF; Z.land 1000 0xFF; 0x00;
                 Z.land (Z.shiftr 0 24) 0xFF; Z.land (Z.shiftr 0 16) 0xFF;
                 Z.land (Z.shiftr 0 8) 0xFF; Z.land (Z.shiftr 0 0) 0xFF;
                 3] ++ take (2 * (length [1; 2; 3] / 2)) [1; 2; 3])].
Proof.
  apply (writeDataRegion_drops_odd_byte (RFID_begin (answering (Spec.response 0x24 0 [])))
           3 0 [1; 2; 3] 1000 0 []);
    [ reflexivity | lia | reflexivity | simpl; lia | lia | reflexivity | simpl; lia
    | reflexivity ].
Defined.

Lemma writeData_long_buffer_sends_no_data_witness :
  let st := RFID_begin silent in
  exists st' ret,
    writeData st 3 0 (replicate 250 0x41) 250 1000 = Some (st', ret)
    /\ tx (_rfidSerial st')
       = tx (_rfidSerial st)
         ++ [Spec.encode 0x24
               (take (Z.to_nat (250 - 248))
                  [Z.land (Z.shiftr 1000 8) 0xFF; Z.land 1000 0xFF; 0x00;
                   Z.land (Z.shiftr 0 24) 0xFF; Z.land (Z.shiftr 0 16) 0xFF;
                   Z.land (Z.shiftr 0 8) 0xFF; Z.land (Z.shiftr 0 0) 0xFF;
                   3])].
Proof.
  apply (writeData_long_buffer_sends_no_data (RFID_begin silent) 3 0
           (replicate 250 0x41) 250 1000);
    [ reflexivity | lia | lia | vm_compute; discriminate ].
Defined.

Lemma writeData_does_not_return_witness :
  writeData (RFID_begin silent) 3 0 (replicate 245 0x41) 245 1000 = None.
Proof.
  apply (writeData_does_not_return (RFID_begin silent) 3 0 (replicate 245 0x41) 245 1000);
    [ simpl; lia | lia | vm_compute; discriminate ].
Defined.

Lemma getTagTimestamp_keeps_low_half_witness :
  let st := holding (tag_record 0xDD) in
  getTagTimestamp st = get (msg st) 19 * 256 + get (msg st) 20.
Proof.
  apply (getTagTimestamp_keeps_low_half (holding (tag_record 0xDD))).
  vm_compute. reflexivity.
Defined.

Lemma getTagDataBytes_is_ceiling_witness :
  let st := holding (tag_record 0xDD) in
  getTagDataBytes st = (get (msg st) 24 * 256 + get (msg st) 25 + 7) / 8 mod 256.
Proof.
  apply (getTagDataBytes_is_ceiling (holding (tag_record 0xDD))).
  vm_compute. reflexivity.
Defined.

Lemma getTagData_stays_within_len_witness :
  let st := holding data_record in
  exists buf',
    getTagData st (replicate 8 0) 8 = Some (buf', Z.min (getTagDataBytes st) 8)
    /\ length buf' = length (replicate 8 0)
    /\ (forall j, 0 <= j < Z.min (getTagDataBytes st) 8 ->
        get buf' j = get (msg st) (26 + j))
    /\ (forall j, Z.min (getTagDataBytes st) 8 <= j ->
        get buf' j = get (replicate 8 0) j).
Proof.
  apply (getTagData_stays_within_len (holding data_record) (replicate 8 0) 8);
    [ vm_compute; split; discriminate | vm_compute; discriminate ].
Defined.

(** The record of the source comment has 18 bytes of embedded data: a
    buffer of 8 takes the first 8, a buffer of 32 all 18. *)
Example getTagData_of_the_source_comment :
  getTagDataBytes (holding data_record) = 18
  /\ getTagData (holding data_record) (replicate 8 0) 8
     = Some ([0xFF; 0x00; 0x06; 0x2F; 0x80; 0x29; 0x01; 0x0E], 8)
  /\ option_map snd (getTagData (holding data_record) (replicate 32 0) 32) = Some 18.
Proof. repeat split; vm_compute; reflexivity. Qed.

Lemma getTagEPCBytes_underflows_witness :
  let st := holding (tag_record 0xDD) in
  let bits := get (msg st) (27 + getTagDataBytes st) * 256
              + get (msg st) (28 + getTagDataBytes st) in
  getTagEPCBytes st = Some ((bits / 8 - 4) mod 256)
  /\ (bits < 32 -> 252 <= (bits / 8 - 4) mod 256)
  /\ (32 <= bits < 2080 -> (bits / 8 - 4) mod 256 = bits / 8 - 4).
Proof.
  apply (getTagEPCBytes_underflows (holding (tag_record 0xDD)));
    [ vm_compute; reflexivity | vm_compute; reflexivity ].
Defined.

(** A tag record with an EPC field of 128 bits gives 12; after a keep-alive
    frame, where [check] has cleared the rest of [msg], the count is 0 and
    the result 252. *)
Example getTagEPCBytes_of_a_record_and_of_a_keepalive :
  getTagEPCBytes (holding (tag_record 0xDD)) = Some 12
  /\ getTagEPCBytes (holding keepalive0) = Some 252.
Proof. split; vm_compute; reflexivity. Qed.

Lemma digitalRead_reports_listed_pin_witness :
  exists st',
    digitalRead (RFID_begin (answering gpio_reply)) 4 = Some (st', pin_state gpio_pins 4).
Proof.
  apply (digitalRead_reports_listed_pin (RFID_begin (answering gpio_reply)) 4 0 1
           gpio_pins);
    [ reflexivity | lia | lia | reflexivity | simpl; lia | reflexivity ].
Defined.

Lemma check_then_parseResponse_detects_damage_witness :
  let st := streaming 0 (receiving ([0x00] ++ put keepalive0 3 0x05 ++ [0xFF])) in
  parseResponse (fst (check st)) = ERROR_CORRUPT_RESPONSE
  /\ rx (_rfidSerial (fst (check st))) = [0xFF].
Proof.
  apply (check_then_parseResponse_detects_damage
           (streaming 0 (receiving ([0x00] ++ put keepalive0 3 0x05 ++ [0xFF])))
           [0x00] keepalive0 [0xFF] 3 0x05);
    [ reflexivity | reflexivity | reflexivity | reflexivity | reflexivity
    | repeat constructor; lia | vm_compute; reflexivity | vm_compute; reflexivity
    | reflexivity | vm_compute; reflexivity
    | vm_compute; split; first [reflexivity | discriminate] | lia
    | vm_compute; discriminate | reflexivity ].
Defined.

Lemma endless_filter_never_matches :
  never_matching (peer (_rfidSerial (RFID_begin (answering epc_only_reply))))
    endless_filter
    (u8 ((if TMR_GEN2_BANK_EPC =? TMR_GEN2_BANK_EPC then 23 else 25)
         + EPCoffset endless_filter)).
Proof.
  intros h f _.
  change (peer (_rfidSerial (RFID_begin (answering epc_only_reply))) (h ++ [f]))
    with epc_only_reply.
  repeat split; vm_compute; congruence.
Qed.

Lemma selective_read_never_gives_up_witness :
  SelectiveReadDataRegion 1000 (RFID_begin (answering epc_only_reply)) endless_filter
    TMR_GEN2_BANK_EPC 0 1 [0; 0] 2 2000 = None.
Proof.
  apply (selective_read_never_gives_up 1000 (RFID_begin (answering epc_only_reply))
           endless_filter TMR_GEN2_BANK_EPC 0 1 [0; 0] 2 2000);
    [ reflexivity | left; reflexivity | vm_compute; discriminate | vm_compute; discriminate
    | exact endless_filter_never_matches ].
Defined.



